(** * HyperX Cloud Flight Wireless reader: report decoder and device session

    A shallow embedding of [index.js] (the reader returned by
    [module.exports]) and the properties of its report decoder, its
    de-duplication policy, its keep-alive scheduler and its handling of
    device handles.

    The JavaScript closure variables become the record [Vars]; what the
    code does to the outside world (node-hid handles, the timers of the
    runtime, the events given to the emitter) becomes the record [Host].
    Every function of the source is a computation in a small state monad
    over the pair of both. *)

From Stdlib Require Import ZArith List Ascii String Bool Lia.
Import ListNotations.
Open Scope Z_scope.

(** ** Constants of the module *)

Definition VENDOR_ID : Z := 2385.
Definition SUPPORTED_PRODUCT_IDS : list Z := [5828; 5923].
Definition STATUS_USAGE : Z := 771.
Definition STATUS_USAGEPAGES : list Z := [65363; 65424].

(** [Set.prototype.has] on a set of numbers. *)
Definition has (s : list Z) (x : Z) : bool := existsb (Z.eqb x) s.

(** ** Data *)

(** An entry of [HID.devices()].  A field the host does not report is
    [undefined] in JavaScript and [None] here. *)
Record Descriptor := {
  vendorId : Z;
  productId : Z;
  product : option string;
  usage : option Z;
  usagePage : option Z;
  path : string
}.

Inductive Power := On | Off.
Inductive Direction := Up | Down.

Inductive Failure :=
| StatusInterfaceNotFound
| OpenFailed (p : string)
| WriteFailed (h : nat)
| IoFailure (h : nat).

(** What the emitter is given: the name of the channel and its payload. *)
Inductive Event :=
| EPower (p : Power)
| EMuted (b : bool)
| EVolume (d : Direction)
| ECharging (b : bool)
| EBattery (pct : Z)
| EUnknown (data : list Z)
| EError (e : Failure).

(** The options of [module.exports], with their defaults. *)
Record Config := {
  debug : bool;
  updateDelay : Z;
  dedupe : bool;
  batteryMinIntervalMs : Z
}.

Definition defaultConfig : Config :=
  {| debug := false;
     updateDelay := 5 * 1000 * 60;
     dedupe := true;
     batteryMinIntervalMs := 15 * 1000 |}.

(** The closure variables of the reader.  [interval] is [undefined] or
    [null] ([None]) or the timer returned by [setInterval];
    [bootstrapDevice] is [undefined] ([None]) or a handle. *)
Record Vars := {
  lastBattery : option Z;
  lastBatteryEmitTs : Z;
  lastCharging : option bool;
  lastPower : option Power;
  lastMuted : option bool;
  interval : option nat;
  bootstrapDevice : option nat
}.

(** The world around the reader. *)
Record Host := {
  timers : list (nat * Z);        (* repeating timers that are active: id, delay *)
  timerSeq : nat;                 (* the id of the next timer *)
  handles : list (nat * string);  (* device handles that are open: id, path *)
  openSeq : nat;                  (* [new HID.HID] calls so far; the next handle id *)
  headsets : list nat;            (* handles opened by the [devices.forEach] loop,
                                     each with its close, error and data listeners *)
  closeCalls : list nat;          (* handles on which [close()] was called, in order *)
  writes : list (nat * list Z);   (* [write] calls: handle and payload, in order *)
  emitted : list Event            (* the events emitted, in order *)
}.

Record St := { vars : Vars; host : Host }.

(** Whether node-hid succeeds is not decided by the program: the [n]-th
    [new HID.HID(p)] succeeds iff [openOk n p], the [k]-th [write] iff
    [writeOk k]. *)
Record Env := {
  openOk : nat -> string -> bool;
  writeOk : nat -> bool
}.

(** ** Equality tests ([===] on the values the variables hold) *)

Definition Power_eqb (a b : Power) : bool :=
  match a, b with On, On | Off, Off => true | _, _ => false end.

Definition opt_eqb {A} (eqb : A -> A -> bool) (a b : option A) : bool :=
  match a, b with
  | Some x, Some y => eqb x y
  | None, None => true
  | _, _ => false
  end.

(** ** The state monad *)

Definition M (A : Type) : Type := St -> A * St.

Definition ret {A} (a : A) : M A := fun s => (a, s).
Definition bind {A B} (c : M A) (k : A -> M B) : M B :=
  fun s => let (a, s') := c s in k a s'.

Declare Scope m_scope.
Delimit Scope m_scope with M.
Notation "x <- c1 ;; c2" := (bind c1 (fun x => c2))
  (at level 61, c1 at next level, right associativity) : m_scope.
Notation "c1 ;; c2" := (bind c1 (fun _ => c2))
  (at level 61, right associativity) : m_scope.
Open Scope m_scope.

Definition exec {A} (c : M A) (s : St) : St := snd (c s).
Definition eval {A} (c : M A) (s : St) : A := fst (c s).

Definition getVars : M Vars := fun s => (vars s, s).
Definition modVars (f : Vars -> Vars) : M unit :=
  fun s => (tt, {| vars := f (vars s); host := host s |}).
Definition modHost (f : Host -> Host) : M unit :=
  fun s => (tt, {| vars := vars s; host := f (host s) |}).

(** Assignments to the closure variables. *)
Definition set_lastBattery (x : option Z) (v : Vars) : Vars :=
  {| lastBattery := x; lastBatteryEmitTs := lastBatteryEmitTs v;
     lastCharging := lastCharging v; lastPower := lastPower v;
     lastMuted := lastMuted v; interval := interval v;
     bootstrapDevice := bootstrapDevice v |}.
Definition set_lastBatteryEmitTs (x : Z) (v : Vars) : Vars :=
  {| lastBattery := lastBattery v; lastBatteryEmitTs := x;
     lastCharging := lastCharging v; lastPower := lastPower v;
     lastMuted := lastMuted v; interval := interval v;
     bootstrapDevice := bootstrapDevice v |}.
Definition set_lastCharging (x : option bool) (v : Vars) : Vars :=
  {| lastBattery := lastBattery v; lastBatteryEmitTs := lastBatteryEmitTs v;
     lastCharging := x; lastPower := lastPower v;
     lastMuted := lastMuted v; interval := interval v;
     bootstrapDevice := bootstrapDevice v |}.
Definition set_lastPower (x : option Power) (v : Vars) : Vars :=
  {| lastBattery := lastBattery v; lastBatteryEmitTs := lastBatteryEmitTs v;
     lastCharging := lastCharging v; lastPower := x;
     lastMuted := lastMuted v; interval := interval v;
     bootstrapDevice := bootstrapDevice v |}.
Definition set_lastMuted (x : option bool) (v : Vars) : Vars :=
  {| lastBattery := lastBattery v; lastBatteryEmitTs := lastBatteryEmitTs v;
     lastCharging := lastCharging v; lastPower := lastPower v;
     lastMuted := x; interval := interval v;
     bootstrapDevice := bootstrapDevice v |}.
Definition set_interval (x : option nat) (v : Vars) : Vars :=
  {| lastBattery := lastBattery v; lastBatteryEmitTs := lastBatteryEmitTs v;
     lastCharging := lastCharging v; lastPower := lastPower v;
     lastMuted := lastMuted v; interval := x;
     bootstrapDevice := bootstrapDevice v |}.
Definition set_bootstrapDevice (x : option nat) (v : Vars) : Vars :=
  {| lastBattery := lastBattery v; lastBatteryEmitTs := lastBatteryEmitTs v;
     lastCharging := lastCharging v; lastPower := lastPower v;
     lastMuted := lastMuted v; interval := interval v;
     bootstrapDevice := x |}.

(** ** The runtime: emitter, timers, node-hid *)

(** [emitter.emit(channel, payload)]. *)
Definition emit (e : Event) : M unit :=
  modHost (fun h =>
    {| timers := timers h; timerSeq := timerSeq h; handles := handles h;
       openSeq := openSeq h; headsets := headsets h;
       closeCalls := closeCalls h; writes := writes h;
       emitted := emitted h ++ [e] |}).

(** [setInterval(bootstrap, delay)]: a new active timer; its id is returned. *)
Definition setInterval (delay : Z) : M nat :=
  fun s =>
    let h := host s in
    (timerSeq h,
     {| vars := vars s;
        host := {| timers := timers h ++ [(timerSeq h, delay)];
                   timerSeq := S (timerSeq h); handles := handles h;
                   openSeq := openSeq h; headsets := headsets h;
                   closeCalls := closeCalls h; writes := writes h;
                   emitted := emitted h |} |}).

Definition dropId {A} (i : nat) (l : list (nat * A)) : list (nat * A) :=
  filter (fun e => negb (Nat.eqb (fst e) i)) l.

Definition hasId {A} (i : nat) (l : list (nat * A)) : bool :=
  existsb (fun e => Nat.eqb (fst e) i) l.

(** [clearInterval(t)]: nothing happens for [undefined] and [null]. *)
Definition clearInterval (t : option nat) : M unit :=
  match t with
  | None => ret tt
  | Some i =>
      modHost (fun h =>
        {| timers := dropId i (timers h); timerSeq := timerSeq h;
           handles := handles h; openSeq := openSeq h;
           headsets := headsets h; closeCalls := closeCalls h;
           writes := writes h; emitted := emitted h |})
  end.

(** ** The battery estimate *)

(** A sequence of [if (c) return x;] statements: the first that returns. *)
Definition orElse {A} (a b : option A) : option A :=
  match a with Some x => Some x | None => b end.
Infix "<|>" := orElse (at level 55, right associativity).

Definition ifReturn (c : bool) (x : Z) : option Z :=
  if c then Some x else None.

(** The body of [if (chargeState === 0x0f) { ... }]. *)
Definition bands0f (magicValue : Z) : option Z :=
  ifReturn (magicValue >=? 130) 100
  <|> ifReturn ((magicValue <? 130) && (magicValue >=? 120)) 95
  <|> ifReturn ((magicValue <? 120) && (magicValue >=? 100)) 90
  <|> ifReturn ((magicValue <? 100) && (magicValue >=? 70)) 85
  <|> ifReturn ((magicValue <? 70) && (magicValue >=? 50)) 80
  <|> ifReturn ((magicValue <? 50) && (magicValue >=? 20)) 75
  <|> ifReturn ((magicValue <? 20) && (magicValue >? 0)) 70.

(** The body of [if (chargeState === 0x0e) { ... }]. *)
Definition bands0e (magicValue : Z) : option Z :=
  ifReturn ((magicValue <? 250) && (magicValue >? 240)) 65
  <|> ifReturn ((magicValue <? 240) && (magicValue >=? 220)) 60
  <|> ifReturn ((magicValue <? 220) && (magicValue >=? 208)) 55
  <|> ifReturn ((magicValue <? 208) && (magicValue >=? 200)) 50
  <|> ifReturn ((magicValue <? 200) && (magicValue >=? 190)) 45
  <|> ifReturn ((magicValue <? 190) && (magicValue >=? 180)) 40
  <|> ifReturn ((magicValue <? 179) && (magicValue >=? 169)) 35
  <|> ifReturn ((magicValue <? 169) && (magicValue >=? 159)) 30
  <|> ifReturn ((magicValue <? 159) && (magicValue >=? 148)) 25
  <|> ifReturn ((magicValue <? 148) && (magicValue >=? 119)) 20
  <|> ifReturn ((magicValue <? 119) && (magicValue >=? 90)) 15
  <|> ifReturn (magicValue <? 90) 10.

(** [calculatePercentage] from its second [if] on: the two band tables
    and the final [return null]. *)
Definition bandLookup (chargeState magicValue : Z) : option Z :=
  (if chargeState =? 0x0f then bands0f magicValue else None)
  <|> (if chargeState =? 0x0e then bands0e magicValue else None)
  <|> None.

Section Reader.

Variable cfg : Config.
Variable env : Env.
(** The interfaces selected by the enumeration at the top of
    [module.exports] (vendor, then product id, then product name). *)
Variable devices : list Descriptor.

(** [new HID.HID(p)]: the handle, or [None] when the constructor throws. *)
Definition hidOpen (p : string) : M (option nat) :=
  fun s =>
    let h := host s in
    let n := openSeq h in
    if openOk env n p then
      (Some n,
       {| vars := vars s;
          host := {| timers := timers h; timerSeq := timerSeq h;
                     handles := handles h ++ [(n, p)];
                     openSeq := S n; headsets := headsets h;
                     closeCalls := closeCalls h; writes := writes h;
                     emitted := emitted h |} |})
    else
      (None,
       {| vars := vars s;
          host := {| timers := timers h; timerSeq := timerSeq h;
                     handles := handles h;
                     openSeq := S n; headsets := headsets h;
                     closeCalls := closeCalls h; writes := writes h;
                     emitted := emitted h |} |}).

(** [dev.write(buffer)]: [false] when it throws. *)
Definition hidWrite (dev : nat) (buffer : list Z) : M bool :=
  fun s =>
    let h := host s in
    (writeOk env (List.length (writes h)),
     {| vars := vars s;
        host := {| timers := timers h; timerSeq := timerSeq h;
                   handles := handles h; openSeq := openSeq h;
                   headsets := headsets h; closeCalls := closeCalls h;
                   writes := writes h ++ [(dev, buffer)];
                   emitted := emitted h |} |}).

(** [try { dev.close(); } catch (_) {}]. *)
Definition hidClose (dev : nat) : M unit :=
  modHost (fun h =>
    {| timers := timers h; timerSeq := timerSeq h;
       handles := dropId dev (handles h); openSeq := openSeq h;
       headsets := headsets h; closeCalls := closeCalls h ++ [dev];
       writes := writes h; emitted := emitted h |}).

(** The loop registers the listeners of a headset handle. *)
Definition listen (dev : nat) : M unit :=
  modHost (fun h =>
    {| timers := timers h; timerSeq := timerSeq h; handles := handles h;
       openSeq := openSeq h; headsets := headsets h ++ [dev];
       closeCalls := closeCalls h; writes := writes h;
       emitted := emitted h |}).

(** ** [bootstrap] *)

Definition isStatus (d : Descriptor) : bool :=
  opt_eqb Z.eqb (usage d) (Some STATUS_USAGE).

Definition isStatusOnPage (d : Descriptor) : bool :=
  isStatus d &&
  match usagePage d with Some p => has STATUS_USAGEPAGES p | None => false end.

(** [devices.find(usage and page) || devices.find(usage)]. *)
Definition findStatus : option Descriptor :=
  match find isStatusOnPage devices with
  | Some d => Some d
  | None => find isStatus devices
  end.

(** The keep-alive packet: the 20 bytes [0x21 0xff 0x05] and seventeen
    [0x00]. *)
Definition wakeup : list Z := [0x21; 0xff; 0x05] ++ repeat 0x00 17.

(** The part of [bootstrap] under [if (!bootstrapDevice)]: the handle to
    write to, or [None] where the source returns early. *)
Definition resolveStatus : M (option nat) :=
  v <- getVars ;;
  match bootstrapDevice v with
  | Some dev => ret (Some dev)
  | None =>
      match findStatus with
      | None => emit (EError StatusInterfaceNotFound) ;; ret None
      | Some info =>
          o <- hidOpen (path info) ;;
          match o with
          | Some dev =>
              modVars (set_bootstrapDevice (Some dev)) ;; ret (Some dev)
          | None => emit (EError (OpenFailed (path info))) ;; ret None
          end
      end
  end.

Definition bootstrap : M unit :=
  v <- getVars ;;
  match interval v with
  | None =>
      t <- setInterval (updateDelay cfg) ;; modVars (set_interval (Some t))
  | Some _ => ret tt
  end ;;
  r <- resolveStatus ;;
  match r with
  | None => ret tt
  | Some dev =>
      ok <- hidWrite dev wakeup ;;
      if ok then ret tt else emit (EError (WriteFailed dev))
  end.

(** ** The [devices.forEach] loop *)

Definition openInterface (deviceInfo : Descriptor) : M unit :=
  o <- hidOpen (path deviceInfo) ;;
  match o with
  | None => emit (EError (OpenFailed (path deviceInfo)))
  | Some dev => listen dev
  end.

Fixpoint forEach {A} (f : A -> M unit) (l : list A) : M unit :=
  match l with
  | [] => ret tt
  | x :: l' => f x ;; forEach f l'
  end.

(** ** The de-duplication blocks of the data listener

    The three blocks [if (!dedupe || v !== lastX) { emit; lastX = v; }]. *)

Definition powerBlock (p : Power) : M unit :=
  v <- getVars ;;
  if negb (dedupe cfg) || negb (opt_eqb Power_eqb (lastPower v) (Some p)) then
    emit (EPower p) ;; modVars (set_lastPower (Some p))
  else ret tt.

Definition mutedBlock (isMuted : bool) : M unit :=
  v <- getVars ;;
  if negb (dedupe cfg) || negb (opt_eqb Bool.eqb (Some isMuted) (lastMuted v)) then
    emit (EMuted isMuted) ;; modVars (set_lastMuted (Some isMuted))
  else ret tt.

Definition chargingBlock (isCharging : bool) : M unit :=
  v <- getVars ;;
  if negb (dedupe cfg)
     || negb (opt_eqb Bool.eqb (Some isCharging) (lastCharging v)) then
    emit (ECharging isCharging) ;; modVars (set_lastCharging (Some isCharging))
  else ret tt.

(** ** The status case

    The function [calculatePercentage] of the status case; [chargeState]
    and [magicValue] are the constants it closes over. *)
Definition calculatePercentage (chargeState magicValue : Z) : M (option Z) :=
  early <-
    (if chargeState =? 0x10 then
       let isCharging := magicValue >=? 20 in
       chargingBlock isCharging ;;
       ret (ifReturn (magicValue <=? 11) 100)
     else ret None) ;;
  ret (early <|> bandLookup chargeState magicValue).

(** The block after [const percentage = calculatePercentage()]; [now]
    is what [Date.now()] returns. *)
Definition batteryBlock (now : Z) (percentage : option Z) : M unit :=
  match percentage with
  | None => ret tt
  | Some pct =>
      v <- getVars ;;
      let changed := negb (opt_eqb Z.eqb (Some pct) (lastBattery v)) in
      let timedOut :=
        now - lastBatteryEmitTs v >=? batteryMinIntervalMs cfg in
      if negb (dedupe cfg) || changed || timedOut then
        emit (EBattery pct) ;;
        modVars (set_lastBattery (Some pct)) ;;
        modVars (set_lastBatteryEmitTs now)
      else ret tt
  end.

(** ** The data listener

    [data] is the report (a Buffer: bytes), [data[i]] is [nth i data 0]:
    every index the listener reads is below the length its [switch] has
    just tested.  The [debug] log writes to the console only. *)
Definition onData (now : Z) (data : list Z) : M unit :=
  let len := Z.of_nat (List.length data) in
  if len =? 0x02 then
    if (nth 0 data 0 =? 0x64) && (nth 1 data 0 =? 0x03) then
      v <- getVars ;;
      clearInterval (interval v) ;;
      modVars (set_interval None) ;;
      powerBlock Off
    else if (nth 0 data 0 =? 0x64) && (nth 1 data 0 =? 0x01) then
      bootstrap ;;
      powerBlock On
    else
      let isMuted := (nth 0 data 0 =? 0x65) && (nth 1 data 0 =? 0x04) in
      mutedBlock isMuted
  else if len =? 0x05 then
    let v := nth 1 data 0 in
    let dir :=
      if v =? 0x01 then Some Up else if v =? 0x02 then Some Down else None in
    match dir with
    | Some d => emit (EVolume d)
    | None => ret tt
    end
  else if (len =? 0x0f) || (len =? 0x14) then
    let chargeState := nth 3 data 0 in
    let magicValue := if nth 4 data 0 =? 0 then chargeState else nth 4 data 0 in
    percentage <- calculatePercentage chargeState magicValue ;;
    batteryBlock now percentage
  else
    emit (EUnknown data).

(** ** Session *)

(** The listeners of ['close'], one per headset handle, in the order of
    their registration. *)
Definition onClose : M unit :=
  fun s => forEach hidClose (headsets (host s)) s.

(** The listener of a handle's ['error']. *)
Definition onError (dev : nat) : M unit := emit (EError (IoFailure dev)).

Definition initVars : Vars :=
  {| lastBattery := None; lastBatteryEmitTs := 0; lastCharging := None;
     lastPower := None; lastMuted := None; interval := None;
     bootstrapDevice := None |}.

Definition initHost : Host :=
  {| timers := []; timerSeq := O; handles := []; openSeq := O;
     headsets := []; closeCalls := []; writes := []; emitted := [] |}.

Definition initSt : St := {| vars := initVars; host := initHost |}.

(** The body of [module.exports] after the enumeration: [None] where it
    throws because no interface was selected. *)
Definition create : option St :=
  match devices with
  | [] => None
  | _ => Some (exec (bootstrap ;; forEach openInterface devices) initSt)
  end.

(** What can happen to a session afterwards. *)
Inductive Action :=
| Tick (t : nat)                              (* a repeating timer fires *)
| Data (dev : nat) (now : Z) (data : list Z)  (* a headset handle reports *)
| DeviceError (dev : nat)                     (* a handle signals an error *)
| Close.                                      (* the consumer emits 'close' *)

Definition isHeadset (dev : nat) (s : St) : bool :=
  existsb (Nat.eqb dev) (headsets (host s)) && hasId dev (handles (host s)).

(** An action that cannot happen in the state (a timer that was cleared,
    a handle that is not open) leaves it as it is. *)
Definition step (a : Action) (s : St) : St :=
  match a with
  | Tick t => if hasId t (timers (host s)) then exec bootstrap s else s
  | Data dev now data =>
      if isHeadset dev s then exec (onData now data) s else s
  | DeviceError dev =>
      if hasId dev (handles (host s)) then exec (onError dev) s else s
  | Close => exec onClose s
  end.

Definition run (l : list Action) (s : St) : St :=
  fold_left (fun s a => step a s) l s.

End Reader.

(** ** The enumeration

    The first statements of [module.exports]: the interfaces of the
    vendor; among them those of a known product id; when there is none,
    those whose product name holds the name of the headset.  A product
    name is a string of bytes, and [toLowerCase] acts on the letters A to
    Z. *)

Definition lowerChar (c : ascii) : ascii :=
  let n := nat_of_ascii c in
  if Nat.leb 65 n && Nat.leb n 90 then ascii_of_nat (n + 32) else c.

Fixpoint toLowerCase (s : string) : string :=
  match s with
  | EmptyString => EmptyString
  | String c s' => String (lowerChar c) (toLowerCase s')
  end.

(** [s.includes(needle)]. *)
Fixpoint includes (s needle : string) : bool :=
  String.prefix needle s
  || match s with
     | EmptyString => false
     | String _ s' => includes s' needle
     end.

Definition selectDevices (hidDevices : list Descriptor) : list Descriptor :=
  let all := filter (fun d => vendorId d =? VENDOR_ID) hidDevices in
  let devices :=
    filter (fun d => has SUPPORTED_PRODUCT_IDS (productId d)) all in
  match devices with
  | [] =>
      filter
        (fun d =>
           includes
             (toLowerCase
                (match product d with Some n => n | None => EmptyString end))
             "cloud flight wireless")
        all
  | _ => devices
  end.

(** [module.exports], on what [HID.devices()] returns: the session, or
    [None] where it throws because the headset was not found. *)
Definition module_exports (cfg : Config) (env : Env)
    (hidDevices : list Descriptor) : option St :=
  create cfg env (selectDevices hidDevices).

(** ** Observations on a state *)

(** The events emitted between an earlier state [s] and a later one [s']. *)
Definition since (s s' : St) : list Event :=
  skipn (List.length (emitted (host s))) (emitted (host s')).

(** The decoded signals among events: every channel but ['error']. *)
Definition isSignal (e : Event) : bool :=
  match e with EError _ => false | _ => true end.

Definition signals (l : list Event) : list Event := filter isSignal l.

(** The scheduler is armed: [interval] holds a timer and it is active. *)
Definition armed (s : St) : bool :=
  match interval (vars s) with
  | Some t => hasId t (timers (host s))
  | None => false
  end.

(** The scheduler is disarmed: [interval] is null and no timer is active. *)
Definition disarmed (s : St) : bool :=
  match interval (vars s), timers (host s) with
  | None, [] => true
  | _, _ => false
  end.

(** The repeating timers of the runtime are the one [interval] holds. *)
Definition schedOk (cfg : Config) (s : St) : Prop :=
  timers (host s) =
  match interval (vars s) with
  | Some t => [(t, updateDelay cfg)]
  | None => []
  end.

(** ** The band table of charge state [0x0e] as data

    One entry per [if] of the source: its comparison and the value it
    returns. *)
Definition table0e : list ((Z -> bool) * Z) :=
  [ (fun m => (m <? 250) && (m >? 240), 65);
    (fun m => (m <? 240) && (m >=? 220), 60);
    (fun m => (m <? 220) && (m >=? 208), 55);
    (fun m => (m <? 208) && (m >=? 200), 50);
    (fun m => (m <? 200) && (m >=? 190), 45);
    (fun m => (m <? 190) && (m >=? 180), 40);
    (fun m => (m <? 179) && (m >=? 169), 35);
    (fun m => (m <? 169) && (m >=? 159), 30);
    (fun m => (m <? 159) && (m >=? 148), 25);
    (fun m => (m <? 148) && (m >=? 119), 20);
    (fun m => (m <? 119) && (m >=? 90), 15);
    (fun m => m <? 90, 10) ].

(** The bands whose comparison a value satisfies. *)
Definition satisfied (t : list ((Z -> bool) * Z)) (m : Z) : list Z :=
  map snd (filter (fun b => fst b m) t).

(** The edges of the bands of [0x0e]. *)
Definition edges0e : list Z :=
  [90; 119; 148; 159; 169; 179; 180; 190; 200; 208; 220; 240; 250].

(** ** The de-duplication policy, in the words of its description

    When the policy is enabled an event is suppressed if the new value
    equals the last one of its channel; when disabled it is always
    emitted. *)
Definition surfaced (enabled same : bool) (e : Event) : list Event :=
  if enabled && same then [] else [e].

(** The policy as a relation between what a channel stores, the value
    decoded and the events that come out. *)
Definition deduped {A} (enabled : bool) (last : option A) (v : A) (e : Event)
    (out : list Event) : Prop :=
  (enabled = false \/ last <> Some v -> out = [e])
  /\ (enabled = true -> last = Some v -> out = []).

(** Two events of one channel. *)
Definition sameChannel (a b : Event) : bool :=
  match a, b with
  | EPower _, EPower _ | EMuted _, EMuted _ | EVolume _, EVolume _
  | ECharging _, ECharging _ | EBattery _, EBattery _
  | EUnknown _, EUnknown _ | EError _, EError _ => true
  | _, _ => false
  end.

(** The value the reader stores for the channel of [ch], as an event of
    that channel. *)
Definition stored (ch : Event) (v : Vars) : option Event :=
  match ch with
  | EPower _ => option_map EPower (lastPower v)
  | EMuted _ => option_map EMuted (lastMuted v)
  | ECharging _ => option_map ECharging (lastCharging v)
  | EBattery _ => option_map EBattery (lastBattery v)
  | _ => None
  end.

(** The last event of the channel of [ch] in a log, if there is one. *)
Definition lastOn (ch : Event) (log : list Event) : option Event :=
  fold_left (fun acc e => if sameChannel ch e then Some e else acc) log None.

(** The value a report decodes to on the power, muted or charging
    channel, as the description of the classifier gives it: a report of
    two bytes is a power report for [(0x64,0x03)] and [(0x64,0x01)] and a
    mute report otherwise; a report of 15 or 20 bytes decodes a charging
    value when its charge state is [0x10]. *)
Definition specDecode (data : list Z) : option Event :=
  match data with
  | [b0; b1] =>
      if (b0 =? 0x64) && (b1 =? 0x03) then Some (EPower Off)
      else if (b0 =? 0x64) && (b1 =? 0x01) then Some (EPower On)
      else Some (EMuted ((b0 =? 0x65) && (b1 =? 0x04)))
  | _ =>
      if (Nat.eqb (List.length data) 15 || Nat.eqb (List.length data) 20)
         && (nth 3 data 0 =? 0x10)
      then
        let magicValue :=
          if nth 4 data 0 =? 0 then nth 3 data 0 else nth 4 data 0 in
        Some (ECharging (magicValue >=? 20))
      else None
  end.

(** The variables of the de-duplication state. *)
Definition dedupeVars (v : Vars) :=
  (lastBattery v, lastBatteryEmitTs v, lastCharging v, lastPower v, lastMuted v).

(** ** The status report, piece by piece *)

(** The magic value of a status report: [data[4] || data[3]]. *)
Definition magicOf (data : list Z) : Z :=
  if nth 4 data 0 =? 0 then nth 3 data 0 else nth 4 data 0.

(** The value [calculatePercentage] returns: the early [return 100] of
    charge state [0x10], then the band tables. *)
Definition estimate (chargeState magicValue : Z) : option Z :=
  (if chargeState =? 0x10 then ifReturn (magicValue <=? 11) 100 else None)
  <|> bandLookup chargeState magicValue.

(** The percentage a report of the status channel determines. *)
Definition percentageOf (data : list Z) : option Z :=
  estimate (nth 3 data 0) (magicOf data).

Definition isStatusReport (data : list Z) : bool :=
  Nat.eqb (List.length data) 15 || Nat.eqb (List.length data) 20.

(** The battery events of a log. *)
Definition battery (l : list Event) : list Event :=
  filter (sameChannel (EBattery 0)) l.

(** The channels whose last value the reader stores. *)
Definition isTracked (e : Event) : bool :=
  match e with
  | EPower _ | EMuted _ | ECharging _ | EBattery _ => true
  | _ => false
  end.

(** What the reader stores for a channel is the last event it emitted on
    it, and nothing as long as it has emitted none. *)
Definition lastOk (s : St) : Prop :=
  forall ch, isTracked ch = true ->
    stored ch (vars s) = lastOn ch (emitted (host s)).

(** ** Handles and paths *)

Definition addEvents (l : list Event) (h : Host) : Host :=
  {| timers := timers h; timerSeq := timerSeq h; handles := handles h;
     openSeq := openSeq h; headsets := headsets h;
     closeCalls := closeCalls h; writes := writes h;
     emitted := emitted h ++ l |}.

(** How many of the open handles are on path [p]. *)
Definition pathCount (p : string) (l : list (nat * string)) : nat :=
  List.length (filter (fun e => String.eqb (snd e) p) l).

(** How many of the selected interfaces have path [p]. *)
Definition devCount (p : string) (ds : list Descriptor) : nat :=
  List.length (filter (fun d => String.eqb (path d) p) ds).

(** One if [p] is the path of the status interface, zero otherwise. *)
Definition statusCount (devices : list Descriptor) (p : string) : nat :=
  match findStatus devices with
  | Some d => if String.eqb (path d) p then 1%nat else 0%nat
  | None => 0%nat
  end.

(** The open handles on a path are at most the interfaces with that path
    among those the loop has opened, and one more on the path of the
    status interface once the scheduler holds its handle. *)
Definition pathsOk (devices opened : list Descriptor) (s : St) : Prop :=
  forall p,
    (pathCount p (handles (host s))
     <= devCount p opened
        + match bootstrapDevice (vars s) with
          | Some _ => statusCount devices p
          | None => 0
          end)%nat.

Definition Inv (cfg : Config) (devices : list Descriptor) (s : St) : Prop :=
  schedOk cfg s /\ lastOk s /\ pathsOk devices devices s.

(** The states of a session: what [create] returns, and what any
    sequence of actions makes of it. *)
Definition reachable (cfg : Config) (env : Env) (devices : list Descriptor)
    (s : St) : Prop :=
  exists s0 acts,
    create cfg env devices = Some s0 /\ s = run cfg env devices acts s0.

(** The log from [s] to [s'] only grows. *)
Definition extends (s s' : St) : Prop :=
  exists l, emitted (host s') = emitted (host s) ++ l.

(** ** A host to run the reader on

    node-hid never fails, and the dongle shows a status interface and a
    power and mute interface. *)
Definition okEnv : Env :=
  {| openOk := fun _ _ => true; writeOk := fun _ => true |}.

Definition statusInterface : Descriptor :=
  {| vendorId := 2385; productId := 5828;
     product := Some "HyperX Cloud Flight Wireless"%string;
     usage := Some 771; usagePage := Some 65363;
     path := "/dev/hidraw3"%string |}.

Definition powerInterface : Descriptor :=
  {| vendorId := 2385; productId := 5828;
     product := Some "HyperX Cloud Flight Wireless"%string;
     usage := Some 1; usagePage := Some 65472;
     path := "/dev/hidraw1"%string |}.

(** ** The decoder without suppression

    What the data listener emits for a report when no event is
    suppressed: the signals the report decodes to, in the order the
    listener emits them. *)
Definition decodeReport (data : list Z) : list Event :=
  let len := Z.of_nat (List.length data) in
  if len =? 0x02 then
    if (nth 0 data 0 =? 0x64) && (nth 1 data 0 =? 0x03) then [EPower Off]
    else if (nth 0 data 0 =? 0x64) && (nth 1 data 0 =? 0x01) then [EPower On]
    else [EMuted ((nth 0 data 0 =? 0x65) && (nth 1 data 0 =? 0x04))]
  else if len =? 0x05 then
    if nth 1 data 0 =? 0x01 then [EVolume Up]
    else if nth 1 data 0 =? 0x02 then [EVolume Down]
    else []
  else if (len =? 0x0f) || (len =? 0x14) then
    (if nth 3 data 0 =? 0x10 then [ECharging (magicOf data >=? 20)] else [])
    ++ match percentageOf data with
       | Some pct => [EBattery pct]
       | None => []
       end
  else [EUnknown data].

(** [l] is [k] with some elements left out. *)
Inductive Subseq {A : Type} : list A -> list A -> Prop :=
| Subseq_nil : Subseq [] []
| Subseq_keep x l k : Subseq l k -> Subseq (x :: l) (x :: k)
| Subseq_skip x l k : Subseq l k -> Subseq l (x :: k).

(** The percentages of the band tables: 10, 15, ..., 100. *)
Definition percentOk (pct : Z) : Prop := 10 <= pct <= 100 /\ pct mod 5 = 0.

Definition batteryOk (e : Event) : Prop :=
  match e with
  | EBattery pct => percentOk pct
  | _ => True
  end.

(** The battery events of a session and the battery value it stores. *)
Definition batteryInv (s : St) : Prop :=
  Forall batteryOk (emitted (host s))
  /\ forall pct, lastBattery (vars s) = Some pct -> percentOk pct.

(** Handles are numbered in the order of the [new HID.HID] calls;
    [close()] is called on headset handles only; the handle of the
    scheduler is open, on the path of the status interface,
    and is none of the headset handles; every [write] so far was the
    wake-up report on the handle of the scheduler. *)
Definition handlesInv (devices : list Descriptor) (s : St) : Prop :=
  (forall h, In h (headsets (host s)) -> (h < openSeq (host s))%nat)
  /\ (forall h, In h (closeCalls (host s)) -> In h (headsets (host s)))
  /\ match bootstrapDevice (vars s) with
     | Some dev =>
         (dev < openSeq (host s))%nat
         /\ ~ In dev (headsets (host s))
         /\ exists info, findStatus devices = Some info
                         /\ In (dev, path info) (handles (host s))
     | None => writes (host s) = []
     end
  /\ Forall (fun w => snd w = wakeup
                      /\ bootstrapDevice (vars s) = Some (fst w))
       (writes (host s)).

(** [clearInterval(interval); interval = null], the first statements of
    the power-off case. *)
Definition clearTimer : M unit :=
  v <- getVars ;;
  clearInterval (interval v) ;;
  modVars (set_interval None).

(** ** Parts of a state *)

Definition devicesOf (s : St) :=
  (bootstrapDevice (vars s), handles (host s), openSeq (host s),
   writes (host s)).

Definition schedulerOf (s : St) := (interval (vars s), timers (host s)).

Definition listenersOf (s : St) := (headsets (host s), closeCalls (host s)).

Definition powerMutedOf (s : St) := (lastPower (vars s), lastMuted (vars s)).

Definition chargeBatteryOf (s : St) :=
  (lastCharging (vars s), lastBattery (vars s), lastBatteryEmitTs (vars s)).

(** A host on which the first [new HID.HID] throws. *)
Definition flakyEnv : Env :=
  {| openOk := fun n _ => negb (Nat.eqb n 0); writeOk := fun _ => true |}.

(** The product name of an interface holds the name of the headset, in
    any case of its letters. *)
Definition nameMatches (d : Descriptor) : Prop :=
  exists pre post,
    toLowerCase (match product d with Some n => n | None => EmptyString end)
    = (pre ++ "cloud flight wireless" ++ post)%string.

(** The interfaces of the vendor with a known product id. *)
Definition knownProduct (d : Descriptor) : Prop :=
  vendorId d = 2385 /\ (productId d = 5828 \/ productId d = 5923).

(** * The helper process: [sensor.js]

    [sensor.js] creates the reader and writes one JSON object per line
    for the events it listens to.  A message is the object given to
    [log]; its text is [JSON.stringify] of it. *)

(** A JavaScript string is the list of its UTF-16 code units. *)
Definition Text := list Z.

Module Sensor.

Inductive Msg :=
| Status (found : bool) (withError : bool)  (* event 'status'; the error text
                                               is there when creation failed *)
| PowerMsg (power : Power)
| BatteryMsg (battery : Z)
| MutedMsg (muted : bool)
| ChargingMsg (charging : bool)
| ErrorMsg (error : Failure).

(** The options [start] gives to the reader; the others are defaults. *)
Definition config : Config :=
  {| debug := false;
     updateDelay := 5 * 1000 * 60;
     dedupe := true;
     batteryMinIntervalMs := 60000 |}.

(** The listeners [start] registers: what is logged for an event of the
    reader.  No listener is registered for ['volume'] and ['unknown']. *)
Definition forward (e : Event) : list Msg :=
  match e with
  | EPower p =>
      [PowerMsg p;
       match p with Off => Status false false | On => Status true false end]
  | EBattery pct => [BatteryMsg pct]
  | EMuted m => [MutedMsg m]
  | ECharging c => [ChargingMsg c]
  | EError e => [ErrorMsg e]
  | EVolume _ | EUnknown _ => []
  end.

(** [start]: what it logs, the reader if it was created, and the delay of
    the [setTimeout(start, ...)] if it was not. *)
Definition start (env : Env) (hidDevices : list Descriptor)
    : list Msg * option St * option Z :=
  match module_exports config env hidDevices with
  | Some flight => ([Status true false], Some flight, None)
  | None => ([Status false true], None, Some 10000)
  end.

(** [log]: the text written to the standard output for a message, where
    [stringify] is [JSON.stringify]; and the text of a run of messages. *)
Section Log.

Variable stringify : Msg -> Text.

Definition log (obj : Msg) : Text := stringify obj ++ [0x0a].

Definition output (objs : list Msg) : Text := flat_map log objs.

End Log.

End Sensor.

(** * The tray application: [main.js]

    The part of [main.js] that reads the helper: the listener [onData] of
    the streams of the child process, the ['exit'] and ['error']
    listeners of [launch], and the state they maintain. *)

Module Tray.

(** [t.indexOf(c)], for a single code unit: [None] is [-1]. *)
Fixpoint indexOf (c : Z) (t : Text) : option nat :=
  match t with
  | [] => None
  | x :: r => if x =? c then Some O else option_map S (indexOf c r)
  end.

(** The white space and line terminators that [trim] removes. *)
Definition isWhite (c : Z) : bool :=
  existsb (Z.eqb c)
    [0x09; 0x0a; 0x0b; 0x0c; 0x0d; 0x20; 0xa0; 0x1680; 0x2028; 0x2029;
     0x202f; 0x205f; 0x3000; 0xfeff]
  || ((0x2000 <=? c) && (c <=? 0x200a)).

(** [!line.trim()]. *)
Definition blank (line : Text) : bool := forallb isWhite line.

Section Reader.

(** The values of JavaScript, as far as [main.js] looks at them: [!!v]
    and [v === 'on']. *)
Variable JsVal : Type.
Variable jsNull : JsVal.
Variable truthy : JsVal -> bool.
Variable isOn : JsVal -> bool.

(** What [onData] sees of [msg = JSON.parse(line)]: the case of
    [switch (msg.event)] and the field that case reads. *)
Inductive Parsed :=
| PStatus (found : JsVal)
| PBattery (battery : JsVal)
| PMuted (muted : JsVal)
| PCharging (charging : JsVal)
| PPower (power : JsVal)
| PError (error : JsVal)
| POther.

(** [JSON.parse(line)] and the read of [msg.event]: [None] where one of
    them throws (a line that is no JSON text, or the text [null]). *)
Variable parseLine : Text -> option Parsed.

(** The object [state]; [muted] and [charging] are [null] or a boolean. *)
Record State := {
  found : bool;
  battery : JsVal;
  charging : option bool;
  muted : option bool;
  power : JsVal
}.

Definition initState : State :=
  {| found := false; battery := jsNull; charging := None; muted := None;
     power := jsNull |}.

Inductive Console :=
| ParseError (line : Text)      (* console.error('[parse]', e, line) *)
| SensorError (error : JsVal).  (* console.error('[sensor error]', msg.error) *)

(** [buf] and [state], with the states [updateUI] was called on and what
    [onData] has printed with [console.error]. *)
Record Main := {
  buf : Text;
  state : State;
  ui : list State;
  console : list Console
}.

Definition initMain : Main :=
  {| buf := []; state := initState; ui := []; console := [] |}.

(** The [switch] of [onData]. *)
Definition apply (msg : Parsed) (st : State) : State :=
  match msg with
  | PStatus v =>
      {| found := truthy v; battery := battery st; charging := charging st;
         muted := muted st; power := power st |}
  | PBattery v =>
      {| found := found st; battery := v; charging := charging st;
         muted := muted st; power := power st |}
  | PMuted v =>
      {| found := found st; battery := battery st; charging := charging st;
         muted := Some (truthy v); power := power st |}
  | PCharging v =>
      {| found := found st; battery := battery st;
         charging := Some (truthy v); muted := muted st; power := power st |}
  | PPower v =>
      {| found := isOn v; battery := battery st; charging := charging st;
         muted := muted st; power := v |}
  | PError _ | POther => st
  end.

(** The states [updateUI] shows while the messages are applied in turn. *)
Fixpoint updates (msgs : list Parsed) (st : State) : list State :=
  match msgs with
  | [] => []
  | msg :: rest => apply msg st :: updates rest (apply msg st)
  end.

(** The body of the [while] loop for one line. *)
Definition handleLine (line : Text) (m : Main) : Main :=
  if blank line then m
  else
    match parseLine line with
    | Some msg =>
        let st := apply msg (state m) in
        {| buf := buf m; state := st; ui := ui m ++ [st];
           console :=
             console m
             ++ match msg with PError e => [SensorError e] | _ => [] end |}
    | None =>
        {| buf := buf m; state := state m; ui := ui m;
           console := console m ++ [ParseError line] |}
    end.

Definition setBuf (b : Text) (m : Main) : Main :=
  {| buf := b; state := state m; ui := ui m; console := console m |}.

(** [while ((i = buf.indexOf('\n')) >= 0) { ... }]; every turn takes a
    line off [buf], so [fuel] turns are enough when [fuel] is above the
    length of [buf]. *)
Fixpoint drain (fuel : nat) (m : Main) : Main :=
  match fuel with
  | O => m
  | S fuel' =>
      match indexOf 0x0a (buf m) with
      | None => m
      | Some i =>
          let line := firstn i (buf m) in
          drain fuel' (handleLine line (setBuf (skipn (S i) (buf m)) m))
      end
  end.

(** The listener of the streams of the child; [chunk] is
    [chunk.toString('utf8')]. *)
Definition onData (chunk : Text) (m : Main) : Main :=
  let m' := setBuf (buf m ++ chunk) m in
  drain (S (List.length (buf m'))) m'.

(** The ['exit'] listener: the state is reset and shown, and [launch]
    is set to run again in 5000 ms unless the application is quitting.
    [state.power] and [buf] stay. *)
Definition onExit (quitting : bool) (m : Main) : Main * option Z :=
  let st :=
    {| found := false; battery := jsNull; charging := None; muted := None;
       power := power (state m) |} in
  ({| buf := buf m; state := st; ui := ui m ++ [st]; console := console m |},
   if quitting then None else Some 5000).

End Reader.

Arguments PStatus {JsVal}.
Arguments PBattery {JsVal}.
Arguments PMuted {JsVal}.
Arguments PCharging {JsVal}.
Arguments PPower {JsVal}.
Arguments PError {JsVal}.
Arguments POther {JsVal}.
Arguments found {JsVal}.
Arguments battery {JsVal}.
Arguments charging {JsVal}.
Arguments muted {JsVal}.
Arguments power {JsVal}.
Arguments ParseError {JsVal}.
Arguments SensorError {JsVal}.
Arguments buf {JsVal}.
Arguments state {JsVal}.
Arguments ui {JsVal}.
Arguments console {JsVal}.
Arguments setBuf {JsVal}.
Arguments apply {JsVal}.
Arguments updates {JsVal}.
Arguments handleLine {JsVal}.
Arguments drain {JsVal}.
Arguments onData {JsVal}.
Arguments onExit {JsVal}.
Arguments initState {JsVal}.
Arguments initMain {JsVal}.

(** ** The executable [launch] starts

    [candidates] after [filter(Boolean)]: the path under [NVM_SYMLINK]
    when that variable is set and not empty ([nvmNode] is the result of
    [path.join]), three fixed paths and ['node']. *)
Definition candidatesOf (nvmNode : option string) : list string :=
  match nvmNode with Some p => [p] | None => [] end
  ++ ["C:\nvm4w\nodejs\node.exe";
      "C:\Program Files\nodejs\node.exe";
      "C:\Program Files (x86)\nodejs\node.exe";
      "node"]%string.

(** [candidates[idx] || 'node']. *)
Definition exe (candidates : list string) (idx : nat) : string :=
  nth idx candidates "node"%string.

(** The ['error'] listener of the child: [idx = (idx + 1) %
    candidates.length], and [launch] runs again in 1000 ms. *)
Definition onSpawnError (candidates : list string) (idx : nat) : nat * Z :=
  (Nat.modulo (idx + 1) (List.length candidates), 1000).

(** [idx] after [k] failures to start the helper. *)
Definition idxAfter (candidates : list string) (k : nat) : nat :=
  Nat.iter k (fun idx => fst (onSpawnError candidates idx)) O.

End Tray.

(** The complete lines of a text and what follows its last line feed. *)
Fixpoint splitLines (t : Text) : list Text * Text :=
  match t with
  | [] => ([], [])
  | c :: r =>
      let (ls, rest) := splitLines r in
      if c =? 0x0a then ([] :: ls, rest)
      else match ls with
           | [] => ([], c :: rest)
           | l :: ls' => ((c :: l) :: ls', rest)
           end
  end.

(** ** From the helper to the tray

    What [JSON.parse] makes of the text of a message of the helper, as
    [onData] sees it; the values of JavaScript for a boolean, a number, a
    power state and the text of an error are given by [ofBool], [ofNum],
    [ofPower] and [ofError]. *)
Section Pipe.

Variable JsVal : Type.
Variable ofBool : bool -> JsVal.
Variable ofNum : Z -> JsVal.
Variable ofPower : Power -> JsVal.
Variable ofError : Failure -> JsVal.

Definition view (obj : Sensor.Msg) : Tray.Parsed JsVal :=
  match obj with
  | Sensor.Status f _ => Tray.PStatus (ofBool f)
  | Sensor.PowerMsg p => Tray.PPower (ofPower p)
  | Sensor.BatteryMsg pct => Tray.PBattery (ofNum pct)
  | Sensor.MutedMsg m => Tray.PMuted (ofBool m)
  | Sensor.ChargingMsg c => Tray.PCharging (ofBool c)
  | Sensor.ErrorMsg e => Tray.PError (ofError e)
  end.

(** What the ['error'] case prints for a message. *)
Definition printed (obj : Sensor.Msg) : list (Tray.Console JsVal) :=
  match obj with
  | Sensor.ErrorMsg e => [Tray.SensorError (ofError e)]
  | _ => []
  end.

(** The text of a message parses back to the message, is one line and
    is not blank: what [JSON.stringify] and [JSON.parse] give for the
    objects of the helper. *)
Variable parseLine : Text -> option (Tray.Parsed JsVal).
Variable stringify : Sensor.Msg -> Text.

Definition roundTrip (obj : Sensor.Msg) : Prop :=
  parseLine (stringify obj) = Some (view obj)
  /\ ~ In 0x0a (stringify obj)
  /\ Tray.blank (stringify obj) = false.

End Pipe.

Arguments view {JsVal}.
Arguments printed {JsVal}.
Arguments roundTrip {JsVal}.

(** The values the helper sends: [null], booleans, numbers and strings,
    with [!!v] and [v === 'on']. *)
Inductive Js := JsNull | JsBool (b : bool) | JsNum (n : Z) | JsStr (s : string).

Definition jsTruthy (v : Js) : bool :=
  match v with
  | JsNull => false
  | JsBool b => b
  | JsNum n => negb (n =? 0)
  | JsStr s => negb (String.eqb s EmptyString)
  end.

Definition jsIsOn (v : Js) : bool :=
  match v with JsStr s => String.eqb s "on" | _ => false end.

Definition jsPower (p : Power) : Js :=
  match p with On => JsStr "on" | Off => JsStr "off" end.

(** A parser given by the lines it knows. *)
Definition textEqb (a b : Text) : bool :=
  (Nat.eqb (List.length a) (List.length b))
  && forallb (fun p => fst p =? snd p) (combine a b).

Definition parseFrom {A} (known : list (Text * A)) (line : Text) : option A :=
  option_map snd (find (fun e => textEqb (fst e) line) known).

(** The code units of a string of bytes. *)
Definition textOf (s : string) : Text :=
  map (fun a => Z.of_N (N_of_ascii a)) (list_ascii_of_string s).

(** A plain line format for the status and power messages, with the
    parser that knows its four lines. *)
Definition plainText (obj : Sensor.Msg) : Text :=
  textOf
    match obj with
    | Sensor.Status true _ => "status true"
    | Sensor.Status false _ => "status false"
    | Sensor.PowerMsg On => "power on"
    | Sensor.PowerMsg Off => "power off"
    | _ => "other"
    end.

Definition plainParse : Text -> option (Tray.Parsed Js) :=
  parseFrom
    (map (fun obj => (plainText obj, view JsBool JsNum jsPower (fun _ => JsNull) obj))
       [Sensor.Status true false; Sensor.Status false false;
        Sensor.PowerMsg On; Sensor.PowerMsg Off]).

(** ** Proof tools *)

Ltac run_m :=
  unfold exec, eval, bind, ret, getVars, modVars, modHost, emit; cbn.

(** Decide every integer comparison of the goal from the hypotheses. *)
Ltac cmp :=
  repeat match goal with
  | |- context [?a <? ?b] =>
      destruct (Z.ltb_spec a b); try (exfalso; lia)
  | |- context [?a >? ?b] =>
      rewrite (Z.gtb_ltb a b)
  | |- context [?a >=? ?b] =>
      rewrite (Z.geb_leb a b)
  | |- context [?a <=? ?b] =>
      destruct (Z.leb_spec a b); try (exfalso; lia)
  | |- context [?a =? ?b] =>
      destruct (Z.eqb_spec a b); try (exfalso; lia)
  end.

Lemma skipn_length_app {A} (l k : list A) : skipn (List.length l) (l ++ k) = k.
Proof. induction l as [|x l IH]; [reflexivity | exact IH]. Qed.

Lemma since_emitted s s' l :
  emitted (host s') = emitted (host s) ++ l -> since s s' = l.
Proof. intros H. unfold since. rewrite H. apply skipn_length_app. Qed.

Lemma since_refl s : since s s = [].
Proof. apply since_emitted. now rewrite app_nil_r. Qed.

(** ** The enumeration *)

Lemma module_exports_not_found cfg env hidDevices :
  selectDevices hidDevices = [] -> module_exports cfg env hidDevices = None.
Proof. unfold module_exports, create. now intros ->. Qed.

(** The interfaces of another vendor are left out, and an interface of an
    unknown product id is selected by its name when no known id is
    there. *)
Lemma selectDevices_examples :
  let mouse :=
    {| vendorId := 1133; productId := 5828; product := Some "Mouse"%string;
       usage := Some 2; usagePage := Some 1; path := "/dev/hidraw0"%string |} in
  let renamed :=
    {| vendorId := 2385; productId := 1; product := Some "Cloud Flight Wireless"%string;
       usage := Some 771; usagePage := None; path := "/dev/hidraw5"%string |} in
  selectDevices [mouse; statusInterface; renamed; powerInterface]
  = [statusInterface; powerInterface]
  /\ selectDevices [mouse; renamed] = [renamed]
  /\ selectDevices [mouse] = [].
Proof. cbv zeta. repeat split. Qed.

(** ** The battery bands *)

Lemma bands0f_cases m p :
  bands0f m = Some p ->
  (130 <= m /\ p = 100) \/ (120 <= m < 130 /\ p = 95) \/
  (100 <= m < 120 /\ p = 90) \/ (70 <= m < 100 /\ p = 85) \/
  (50 <= m < 70 /\ p = 80) \/ (20 <= m < 50 /\ p = 75) \/
  (0 < m < 20 /\ p = 70).
Proof.
  assert (C : m <= 0 \/ 0 < m < 20 \/ 20 <= m < 50 \/ 50 <= m < 70 \/
              70 <= m < 100 \/ 100 <= m < 120 \/ 120 <= m < 130 \/ 130 <= m)
    by lia.
  unfold bands0f, ifReturn, orElse.
  destruct C as [C|[C|[C|[C|[C|[C|[C|C]]]]]]];
    cmp; cbn; intros E; inversion E; lia.
Qed.

Lemma bands0e_cases m p :
  bands0e m = Some p ->
  (240 < m < 250 /\ p = 65) \/ (220 <= m < 240 /\ p = 60) \/
  (208 <= m < 220 /\ p = 55) \/ (200 <= m < 208 /\ p = 50) \/
  (190 <= m < 200 /\ p = 45) \/ (180 <= m < 190 /\ p = 40) \/
  (169 <= m < 179 /\ p = 35) \/ (159 <= m < 169 /\ p = 30) \/
  (148 <= m < 159 /\ p = 25) \/ (119 <= m < 148 /\ p = 20) \/
  (90 <= m < 119 /\ p = 15) \/ (m < 90 /\ p = 10).
Proof.
  assert (C : m < 90 \/ 90 <= m < 119 \/ 119 <= m < 148 \/ 148 <= m < 159 \/
              159 <= m < 169 \/ 169 <= m < 179 \/ m = 179 \/
              180 <= m < 190 \/ 190 <= m < 200 \/ 200 <= m < 208 \/
              208 <= m < 220 \/ 220 <= m < 240 \/ m = 240 \/
              240 < m < 250 \/ 250 <= m)
    by lia.
  unfold bands0e, ifReturn, orElse.
  destruct C as [C|[C|[C|[C|[C|[C|[C|[C|[C|[C|[C|[C|[C|[C|C]]]]]]]]]]]]]];
    cmp; cbn; intros E; inversion E; lia.
Qed.

Lemma bandLookup_0f m : bandLookup 0x0f m = bands0f m.
Proof. unfold bandLookup, orElse. cbn. now destruct (bands0f m). Qed.

Lemma bandLookup_0e m : bandLookup 0x0e m = bands0e m.
Proof. unfold bandLookup, orElse. cbn. now destruct (bands0e m). Qed.

Lemma bandLookup_other cs m : cs <> 0x0f -> cs <> 0x0e -> bandLookup cs m = None.
Proof. intros. unfold bandLookup, orElse. cmp; reflexivity. Qed.

(** Outside charge state [0x10] the estimate reads and writes nothing. *)
Lemma calculatePercentage_not_charging cfg cs m s :
  cs <> 0x10 -> calculatePercentage cfg cs m s = (bandLookup cs m, s).
Proof. intros H. unfold calculatePercentage, bind, ret. cmp; reflexivity. Qed.

(** C5. The band lookup is a function of charge state and magic value
    alone ([calculatePercentage] returns it and leaves the state as it
    was, whatever the options and the state), and within charge state
    [0x0f] or [0x0e] a smaller magic value never gets a larger
    percentage, among the values that get one. *)
Theorem band_lookup_monotone (cs m1 m2 p1 p2 : Z)
  (Hcs : cs = 0x0f \/ cs = 0x0e) (Hm : m2 <= m1)
  (H1 : bandLookup cs m1 = Some p1) (H2 : bandLookup cs m2 = Some p2) :
  p2 <= p1 /\
  (forall cfg s, calculatePercentage cfg cs m1 s = (Some p1, s)) /\
  (forall cfg s, calculatePercentage cfg cs m2 s = (Some p2, s)).
Proof.
  split.
  - destruct Hcs as [-> | ->].
    + rewrite bandLookup_0f in H1, H2.
      apply bands0f_cases in H1, H2. lia.
    + rewrite bandLookup_0e in H1, H2.
      apply bands0e_cases in H1, H2. lia.
  - split; intros cfg s; rewrite calculatePercentage_not_charging;
      try congruence; destruct Hcs; subst cs; discriminate.
Qed.

Lemma band_lookup_monotone_witness :
  bandLookup 0x0e 241 = Some 65 /\ bandLookup 0x0e 178 = Some 35 /\ 35 <= 65.
Proof.
  split; [reflexivity | split; [reflexivity | ]].
  apply (band_lookup_monotone 0x0e 241 178 65 35);
    [right; reflexivity | lia | reflexivity | reflexivity].
Defined.

Lemma filter_step {A} (f : A -> bool) (x : A) (l : list A) :
  filter f (x :: l) = if f x then x :: filter f l else filter f l.
Proof. reflexivity. Qed.

Ltac bands_step := rewrite filter_step; cbn [fst]; cmp; cbn [andb].

Lemma satisfied0e_cases m :
  (m < 90 /\ satisfied table0e m = [10]) \/
  (90 <= m < 119 /\ satisfied table0e m = [15]) \/
  (119 <= m < 148 /\ satisfied table0e m = [20]) \/
  (148 <= m < 159 /\ satisfied table0e m = [25]) \/
  (159 <= m < 169 /\ satisfied table0e m = [30]) \/
  (169 <= m < 179 /\ satisfied table0e m = [35]) \/
  (m = 179 /\ satisfied table0e m = []) \/
  (180 <= m < 190 /\ satisfied table0e m = [40]) \/
  (190 <= m < 200 /\ satisfied table0e m = [45]) \/
  (200 <= m < 208 /\ satisfied table0e m = [50]) \/
  (208 <= m < 220 /\ satisfied table0e m = [55]) \/
  (220 <= m < 240 /\ satisfied table0e m = [60]) \/
  (m = 240 /\ satisfied table0e m = []) \/
  (240 < m < 250 /\ satisfied table0e m = [65]) \/
  (250 <= m /\ satisfied table0e m = []).
Proof.
  assert (C : m < 90 \/ 90 <= m < 119 \/ 119 <= m < 148 \/ 148 <= m < 159 \/
              159 <= m < 169 \/ 169 <= m < 179 \/ m = 179 \/
              180 <= m < 190 \/ 190 <= m < 200 \/ 200 <= m < 208 \/
              208 <= m < 220 \/ 220 <= m < 240 \/ m = 240 \/
              240 < m < 250 \/ 250 <= m)
    by lia.
  unfold satisfied, table0e.
  destruct C as [C|[C|[C|[C|[C|[C|[C|[C|[C|[C|[C|[C|[C|[C|C]]]]]]]]]]]]]];
    do 12 bands_step; cbn [filter map snd]; repeat (first [left; split; [exact C | reflexivity] | right; try (split; [exact C | reflexivity])]).
Qed.

Lemma bands0e_table m : bands0e m = hd_error (satisfied table0e m).
Proof.
  unfold bands0e, ifReturn, orElse.
  destruct (satisfied0e_cases m)
    as [C|[C|[C|[C|[C|[C|[C|[C|[C|[C|[C|[C|[C|[C|C]]]]]]]]]]]]]];
    destruct C as [C ->]; cmp; reflexivity.
Qed.

Lemma satisfied0e_at_most_one m : (List.length (satisfied table0e m) <= 1)%nat.
Proof.
  destruct (satisfied0e_cases m)
    as [C|[C|[C|[C|[C|[C|[C|[C|[C|[C|[C|[C|[C|[C|C]]]]]]]]]]]]]];
    destruct C as [C ->]; cbn; auto.
Qed.

(** C6 (as amended). In the table of charge state [0x0e] every magic
    value satisfies the comparison of at most one band, and the decoder
    returns the percentage of that band; the edges 90, 119, 148, 159, 169,
    180, 190, 200, 208 and 220 satisfy exactly one, while 179, 240 and 250
    satisfy none and get no percentage. *)
Theorem bands0e_edges (m : Z) :
  (List.length (satisfied table0e m) <= 1)%nat /\
  bands0e m = hd_error (satisfied table0e m) /\
  (In m [90; 119; 148; 159; 169; 180; 190; 200; 208; 220] ->
   exists p, satisfied table0e m = [p] /\ bands0e m = Some p) /\
  (In m [179; 240; 250] -> satisfied table0e m = [] /\ bands0e m = None).
Proof.
  split; [apply satisfied0e_at_most_one | ].
  split; [apply bands0e_table | ].
  split; intros H; cbn in H;
    repeat (destruct H as [H | H]; [subst m; cbv; eauto | ]);
    contradiction.
Qed.

Lemma bands0e_edges_witness :
  exists p, satisfied table0e 180 = [p] /\ bands0e 180 = Some p.
Proof.
  apply (proj1 (proj2 (proj2 (bands0e_edges 180)))).
  cbn. tauto.
Defined.

(** C6, where the claim fails: 179 is an edge in the claim's list, and
    it satisfies no comparison of the table; so do 240 and 250. *)
Lemma bands0e_edge_without_band :
  In 179 edges0e /\ satisfied table0e 179 = [] /\ bands0e 179 = None /\
  satisfied table0e 240 = [] /\ satisfied table0e 250 = [].
Proof. cbv. intuition. Qed.

(** ** The de-duplication blocks *)

Lemma addEvents_nil h : addEvents [] h = h.
Proof. destruct h. unfold addEvents. cbn. now rewrite app_nil_r. Qed.

Lemma Power_eqb_eq a b : Power_eqb a b = true <-> a = b.
Proof. destruct a, b; cbn; split; congruence. Qed.

Lemma opt_eqb_eq {A} (eqb : A -> A -> bool) (a b : option A) :
  (forall x y, eqb x y = true <-> x = y) ->
  opt_eqb eqb a b = true <-> a = b.
Proof.
  intros E. destruct a, b; cbn; try (split; congruence).
  rewrite E. split; congruence.
Qed.

Lemma set_lastPower_same v p :
  lastPower v = Some p -> set_lastPower (Some p) v = v.
Proof. destruct v; cbn; intros ->; reflexivity. Qed.

Lemma set_lastMuted_same v b :
  lastMuted v = Some b -> set_lastMuted (Some b) v = v.
Proof. destruct v; cbn; intros ->; reflexivity. Qed.

Lemma set_lastCharging_same v b :
  lastCharging v = Some b -> set_lastCharging (Some b) v = v.
Proof. destruct v; cbn; intros ->; reflexivity. Qed.

Lemma powerBlock_run cfg p s :
  powerBlock cfg p s =
  (tt, {| vars := set_lastPower (Some p) (vars s);
          host := addEvents
                    (surfaced (dedupe cfg)
                       (opt_eqb Power_eqb (lastPower (vars s)) (Some p))
                       (EPower p))
                    (host s) |}).
Proof.
  unfold powerBlock, surfaced, bind, getVars. cbv beta iota.
  destruct (dedupe cfg); cbn [negb orb andb]; [ | reflexivity].
  destruct (opt_eqb Power_eqb (lastPower (vars s)) (Some p)) eqn:E;
    cbn [negb]; [ | reflexivity].
  unfold ret.
  apply opt_eqb_eq in E; [ | apply Power_eqb_eq].
  rewrite addEvents_nil, set_lastPower_same by exact E. now destruct s.
Qed.

Lemma mutedBlock_run cfg b s :
  mutedBlock cfg b s =
  (tt, {| vars := set_lastMuted (Some b) (vars s);
          host := addEvents
                    (surfaced (dedupe cfg)
                       (opt_eqb Bool.eqb (Some b) (lastMuted (vars s)))
                       (EMuted b))
                    (host s) |}).
Proof.
  unfold mutedBlock, surfaced, bind, getVars. cbv beta iota.
  destruct (dedupe cfg); cbn [negb orb andb]; [ | reflexivity].
  destruct (opt_eqb Bool.eqb (Some b) (lastMuted (vars s))) eqn:E;
    cbn [negb]; [ | reflexivity].
  unfold ret.
  apply opt_eqb_eq in E; [ | apply Bool.eqb_true_iff].
  rewrite addEvents_nil, set_lastMuted_same by (symmetry; exact E).
  now destruct s.
Qed.

Lemma chargingBlock_run cfg b s :
  chargingBlock cfg b s =
  (tt, {| vars := set_lastCharging (Some b) (vars s);
          host := addEvents
                    (surfaced (dedupe cfg)
                       (opt_eqb Bool.eqb (Some b) (lastCharging (vars s)))
                       (ECharging b))
                    (host s) |}).
Proof.
  unfold chargingBlock, surfaced, bind, getVars. cbv beta iota.
  destruct (dedupe cfg); cbn [negb orb andb]; [ | reflexivity].
  destruct (opt_eqb Bool.eqb (Some b) (lastCharging (vars s))) eqn:E;
    cbn [negb]; [ | reflexivity].
  unfold ret.
  apply opt_eqb_eq in E; [ | apply Bool.eqb_true_iff].
  rewrite addEvents_nil, set_lastCharging_same by (symmetry; exact E).
  now destruct s.
Qed.

(** The battery block either emits and records value and time, or does
    nothing at all. *)
Lemma batteryBlock_run cfg now pct s :
  batteryBlock cfg now (Some pct) s =
  (tt,
   if negb (dedupe cfg)
      || negb (opt_eqb Z.eqb (Some pct) (lastBattery (vars s)))
      || (now - lastBatteryEmitTs (vars s) >=? batteryMinIntervalMs cfg)
   then {| vars := set_lastBatteryEmitTs now
                     (set_lastBattery (Some pct) (vars s));
           host := addEvents [EBattery pct] (host s) |}
   else s).
Proof.
  unfold batteryBlock, bind, getVars. cbv beta iota.
  destruct (negb (dedupe cfg)
            || negb (opt_eqb Z.eqb (Some pct) (lastBattery (vars s)))
            || (now - lastBatteryEmitTs (vars s) >=? batteryMinIntervalMs cfg));
    reflexivity.
Qed.

Lemma calculatePercentage_charging cfg m s :
  calculatePercentage cfg 0x10 m s =
  (ifReturn (m <=? 11) 100, exec (chargingBlock cfg (m >=? 20)) s).
Proof.
  unfold calculatePercentage, exec, bind, ret. cbn [Z.eqb Pos.eqb].
  rewrite chargingBlock_run. cbn [snd].
  rewrite bandLookup_other by discriminate.
  now destruct (ifReturn (m <=? 11) 100).
Qed.

Lemma powerBlock_exec cfg p s :
  exec (powerBlock cfg p) s =
  {| vars := set_lastPower (Some p) (vars s);
     host := addEvents
               (surfaced (dedupe cfg)
                  (opt_eqb Power_eqb (lastPower (vars s)) (Some p)) (EPower p))
               (host s) |}.
Proof. unfold exec. now rewrite powerBlock_run. Qed.

Lemma mutedBlock_exec cfg b s :
  exec (mutedBlock cfg b) s =
  {| vars := set_lastMuted (Some b) (vars s);
     host := addEvents
               (surfaced (dedupe cfg)
                  (opt_eqb Bool.eqb (Some b) (lastMuted (vars s))) (EMuted b))
               (host s) |}.
Proof. unfold exec. now rewrite mutedBlock_run. Qed.

Lemma chargingBlock_exec cfg b s :
  exec (chargingBlock cfg b) s =
  {| vars := set_lastCharging (Some b) (vars s);
     host := addEvents
               (surfaced (dedupe cfg)
                  (opt_eqb Bool.eqb (Some b) (lastCharging (vars s)))
                  (ECharging b))
               (host s) |}.
Proof. unfold exec. now rewrite chargingBlock_run. Qed.

Lemma emitted_addEvents l h : emitted (addEvents l h) = emitted h ++ l.
Proof. reflexivity. Qed.

Lemma onData_status cfg env devices now data s :
  (List.length data = 15 \/ List.length data = 20)%nat ->
  onData cfg env devices now data s =
  (percentage <-
     calculatePercentage cfg (nth 3 data 0)
       (if nth 4 data 0 =? 0 then nth 3 data 0 else nth 4 data 0) ;;
   batteryBlock cfg now percentage) s.
Proof. intros [H | H]; unfold onData; rewrite H; reflexivity. Qed.

Lemma calculatePercentage_facts cfg (chargeState magicValue : Z) (s : St) :
  let pct := eval (calculatePercentage cfg chargeState magicValue) s in
  let s1 := exec (calculatePercentage cfg chargeState magicValue) s in
  (chargeState = 0x10 ->
      since s s1 =
        surfaced (dedupe cfg)
          (opt_eqb Bool.eqb (Some (magicValue >=? 20)) (lastCharging (vars s)))
          (ECharging (magicValue >=? 20))
      /\ lastCharging (vars s1) = Some (magicValue >=? 20)
      /\ (magicValue <= 11 -> pct = Some 100))
  /\ (chargeState = 0x0f ->
      (130 <= magicValue -> pct = Some 100) /\
      (120 <= magicValue < 130 -> pct = Some 95) /\
      (100 <= magicValue < 120 -> pct = Some 90) /\
      (70 <= magicValue < 100 -> pct = Some 85) /\
      (50 <= magicValue < 70 -> pct = Some 80) /\
      (20 <= magicValue < 50 -> pct = Some 75) /\
      (0 < magicValue < 20 -> pct = Some 70))
  /\ (chargeState <> 0x10 -> s1 = s)
  /\ (chargeState <> 0x10 -> chargeState <> 0x0f -> chargeState <> 0x0e ->
      pct = None).
Proof.
  cbv zeta. unfold eval, exec.
  split.
  { intros E. rewrite E, calculatePercentage_charging.
    unfold exec. rewrite chargingBlock_run. cbn [fst snd vars host].
    split; [now apply since_emitted | ].
    split; [reflexivity | ].
    intros Hm. unfold ifReturn. cmp; reflexivity. }
  split.
  { intros E.
    rewrite calculatePercentage_not_charging by (rewrite E; discriminate).
    cbn [fst]. rewrite E, bandLookup_0f.
    unfold bands0f, ifReturn, orElse.
    repeat split; intros Hm; cmp; reflexivity. }
  split.
  { intros E. now rewrite calculatePercentage_not_charging. }
  intros E1 E2 E3.
  rewrite calculatePercentage_not_charging by exact E1.
  now apply bandLookup_other.
Qed.

(** C1 (as amended). For a report of 15 or 20 bytes the listener takes
    byte 3 as charge state and byte 4, or the charge state when byte 4 is
    zero, as magic value, and gives the battery block the percentage that
    [calculatePercentage] returns for them.  In charge state [0x10] the
    charging block runs on [magicValue >= 20] (the value is stored and,
    de-duplication permitting, emitted) and the percentage is 100 when the
    magic value is at most 11; in charge state [0x0f] the percentage
    follows the bands; outside [0x10] nothing is decoded on the charging
    channel (the state is untouched); and outside [0x10], [0x0f] and
    [0x0e] no percentage is determined. *)
Theorem status_report_decoding cfg env devices (now : Z) (data : list Z) (s : St)
  (Hlen : (List.length data = 15 \/ List.length data = 20)%nat) :
  let chargeState := nth 3 data 0 in
  let magicValue := if nth 4 data 0 =? 0 then chargeState else nth 4 data 0 in
  let pct := eval (calculatePercentage cfg chargeState magicValue) s in
  let s1 := exec (calculatePercentage cfg chargeState magicValue) s in
  exec (onData cfg env devices now data) s = exec (batteryBlock cfg now pct) s1
  /\ (chargeState = 0x10 ->
      since s s1 =
        surfaced (dedupe cfg)
          (opt_eqb Bool.eqb (Some (magicValue >=? 20)) (lastCharging (vars s)))
          (ECharging (magicValue >=? 20))
      /\ lastCharging (vars s1) = Some (magicValue >=? 20)
      /\ (magicValue <= 11 -> pct = Some 100))
  /\ (chargeState = 0x0f ->
      (130 <= magicValue -> pct = Some 100) /\
      (120 <= magicValue < 130 -> pct = Some 95) /\
      (100 <= magicValue < 120 -> pct = Some 90) /\
      (70 <= magicValue < 100 -> pct = Some 85) /\
      (50 <= magicValue < 70 -> pct = Some 80) /\
      (20 <= magicValue < 50 -> pct = Some 75) /\
      (0 < magicValue < 20 -> pct = Some 70))
  /\ (chargeState <> 0x10 -> s1 = s)
  /\ (chargeState <> 0x10 -> chargeState <> 0x0f -> chargeState <> 0x0e ->
      pct = None).
Proof.
  cbv zeta. split; [ | apply calculatePercentage_facts].
  unfold exec at 1. rewrite onData_status by exact Hlen.
  unfold bind, eval, exec.
  now destruct (calculatePercentage cfg (nth 3 data 0)
                  (if nth 4 data 0 =? 0 then nth 3 data 0 else nth 4 data 0) s).
Qed.

Lemma status_report_decoding_witness :
  (List.length [0; 0; 0; 0x10; 5; 0; 0; 0; 0; 0; 0; 0; 0; 0; 0] = 15)%nat /\
  exec (onData defaultConfig okEnv [statusInterface] 1000
          [0; 0; 0; 0x10; 5; 0; 0; 0; 0; 0; 0; 0; 0; 0; 0]) initSt =
  exec (batteryBlock defaultConfig 1000 (Some 100))
    (exec (chargingBlock defaultConfig false) initSt).
Proof.
  split; [reflexivity | ].
  exact (proj1 (status_report_decoding defaultConfig okEnv [statusInterface]
                  1000 [0; 0; 0; 0x10; 5; 0; 0; 0; 0; 0; 0; 0; 0; 0; 0]
                  initSt (or_introl eq_refl))).
Defined.

(** C1, where the claim fails: a report of 15 bytes whose charge state
    [0x0e] is neither [0x10] nor [0x0f], and for which a percentage is
    determined and emitted. *)
Lemma status_report_0e_has_percentage :
  let data := [0; 0; 0; 0x0e; 100; 0; 0; 0; 0; 0; 0; 0; 0; 0; 0] in
  List.length data = 15%nat /\
  nth 3 data 0 = 0x0e /\
  eval (calculatePercentage defaultConfig (nth 3 data 0) (nth 4 data 0)) initSt
  = Some 15 /\
  emitted (host (exec (onData defaultConfig okEnv [statusInterface] 1000 data)
                   initSt))
  = [EBattery 15].
Proof. cbv. auto. Qed.

Lemma calculatePercentage_run cfg cs m s :
  calculatePercentage cfg cs m s =
  (estimate cs m,
   if cs =? 0x10 then exec (chargingBlock cfg (m >=? 20)) s else s).
Proof.
  unfold estimate. destruct (Z.eqb_spec cs 0x10) as [-> | N].
  - rewrite calculatePercentage_charging, bandLookup_other by discriminate.
    cbn [Z.eqb Pos.eqb]. now destruct (ifReturn (m <=? 11) 100).
  - rewrite calculatePercentage_not_charging by exact N. reflexivity.
Qed.

Lemma onData_status_run cfg env devices now data s :
  isStatusReport data = true ->
  exec (onData cfg env devices now data) s =
  exec (batteryBlock cfg now (percentageOf data))
    (if nth 3 data 0 =? 0x10
     then exec (chargingBlock cfg (magicOf data >=? 20)) s else s).
Proof.
  intros H. unfold exec at 1. rewrite onData_status.
  - unfold bind. fold (magicOf data). rewrite calculatePercentage_run.
    reflexivity.
  - unfold isStatusReport in H. apply orb_true_iff in H.
    destruct H as [H | H]; apply Nat.eqb_eq in H; auto.
Qed.

(** What a status report does to the battery channel, from a state [s]:
    the charging block touches neither the battery variables nor the
    battery events. *)
Lemma onData_status_battery cfg env devices now data s pct :
  isStatusReport data = true ->
  percentageOf data = Some pct ->
  let s' := exec (onData cfg env devices now data) s in
  if negb (dedupe cfg)
     || negb (opt_eqb Z.eqb (Some pct) (lastBattery (vars s)))
     || (now - lastBatteryEmitTs (vars s) >=? batteryMinIntervalMs cfg)
  then battery (since s s') = [EBattery pct]
       /\ lastBattery (vars s') = Some pct
       /\ lastBatteryEmitTs (vars s') = now
  else battery (since s s') = []
       /\ lastBattery (vars s') = lastBattery (vars s)
       /\ lastBatteryEmitTs (vars s') = lastBatteryEmitTs (vars s).
Proof.
  intros Hs Hp s'. subst s'. rewrite onData_status_run by exact Hs.
  rewrite Hp. unfold exec. rewrite batteryBlock_run. cbn [snd].
  set (s1 := if nth 3 data 0 =? 0x10
             then snd (chargingBlock cfg (magicOf data >=? 20) s) else s).
  assert (E : lastBattery (vars s1) = lastBattery (vars s)
              /\ lastBatteryEmitTs (vars s1) = lastBatteryEmitTs (vars s)
              /\ exists l, emitted (host s1) = emitted (host s) ++ l
                           /\ battery l = []).
  { subst s1. destruct (nth 3 data 0 =? 0x10).
    - rewrite chargingBlock_run. cbn [snd vars host].
      repeat split. eexists. split; [reflexivity | ].
      unfold surfaced. now destruct (_ && _).
    - repeat split. exists []. now rewrite app_nil_r. }
  destruct E as (E1 & E2 & l & E3 & E4). rewrite E1, E2.
  destruct (negb (dedupe cfg) || _ || _).
  - cbn [vars host]. split; [ | split; reflexivity].
    rewrite (since_emitted s _ (l ++ [EBattery pct])).
    + unfold battery in *. now rewrite filter_app, E4.
    + cbn. now rewrite E3, app_assoc.
  - split; [ | split; assumption].
    now rewrite (since_emitted s s1 l).
Qed.

Lemma exec_bind {A B} (c : M A) (k : A -> M B) s :
  exec (bind c k) s = exec (k (eval c s)) (exec c s).
Proof. unfold exec, eval, bind. now destruct (c s). Qed.

Lemma exec_forEach_cons {A} (f : A -> M unit) x l s :
  exec (forEach f (x :: l)) s = exec (forEach f l) (exec (f x) s).
Proof. cbn [forEach]. now rewrite exec_bind. Qed.

Lemma onData_status_extends cfg env devices now data s :
  isStatusReport data = true ->
  exists l, emitted (host (exec (onData cfg env devices now data) s))
            = emitted (host s) ++ l.
Proof.
  intros H. rewrite onData_status_run by exact H.
  assert (E : exists l,
            emitted (host (if nth 3 data 0 =? 0x10
                           then exec (chargingBlock cfg (magicOf data >=? 20)) s
                           else s)) = emitted (host s) ++ l).
  { destruct (nth 3 data 0 =? 0x10).
    - unfold exec. rewrite chargingBlock_run. eexists. reflexivity.
    - exists []. now rewrite app_nil_r. }
  destruct E as [l E].
  destruct (percentageOf data) as [pct | ].
  - unfold exec at 1. rewrite batteryBlock_run. cbn [snd].
    destruct (negb (dedupe cfg) || _ || _).
    + exists (l ++ [EBattery pct]). cbn. now rewrite E, app_assoc.
    + now exists l.
  - now exists l.
Qed.

(** Reports that repeat the stored percentage before the interval has
    elapsed emit no battery event and leave value and time as they are. *)
Lemma quiet_reports cfg env devices pct (quiet : list (Z * list Z)) :
  forall s,
  dedupe cfg = true ->
  lastBattery (vars s) = Some pct ->
  Forall (fun r => isStatusReport (snd r) = true
                   /\ percentageOf (snd r) = Some pct
                   /\ fst r - lastBatteryEmitTs (vars s)
                      < batteryMinIntervalMs cfg) quiet ->
  let s1 :=
    exec (forEach (fun r => onData cfg env devices (fst r) (snd r)) quiet) s in
  battery (since s s1) = []
  /\ (exists l, emitted (host s1) = emitted (host s) ++ l)
  /\ lastBattery (vars s1) = Some pct
  /\ lastBatteryEmitTs (vars s1) = lastBatteryEmitTs (vars s).
Proof.
  induction quiet as [ | [t d] quiet IH]; intros s Hd Hl Hq; cbn zeta.
  - cbn. rewrite since_refl. repeat split; auto.
    exists []. now rewrite app_nil_r.
  - inversion Hq as [ | r q (Hs & Hp & Ht) Hq']; subst. cbn [fst snd] in *.
    rewrite exec_forEach_cons. cbn [fst snd].
    pose proof (onData_status_battery cfg env devices t d s pct Hs Hp) as B.
    cbv zeta in B.
    rewrite Hd, Hl in B. cbn [negb orb opt_eqb] in B.
    rewrite Z.eqb_refl in B. cbn [negb orb] in B.
    replace (t - lastBatteryEmitTs (vars s) >=? batteryMinIntervalMs cfg)
      with false in B by (symmetry; rewrite Z.geb_leb; apply Z.leb_gt; lia).
    destruct B as (B1 & B2 & B3).
    destruct (onData_status_extends cfg env devices t d s Hs) as [l0 E0].
    set (sm := exec (onData cfg env devices t d) s) in *.
    destruct (IH sm Hd) as (I1 & (l1 & E1) & I3 & I4).
    + now rewrite B2.
    + rewrite B3. exact Hq'.
    + rewrite (since_emitted s sm l0 E0) in B1.
      rewrite (since_emitted sm _ l1 E1) in I1.
      split.
      { rewrite (since_emitted s _ (l0 ++ l1)).
        - unfold battery in *. now rewrite filter_app, B1, I1.
        - now rewrite E1, E0, app_assoc. }
      split; [exists (l0 ++ l1); now rewrite E1, E0, app_assoc | ].
      split; [exact I3 | now rewrite I4].
Qed.

(** ** [bootstrap] *)


Ltac crunch :=
  repeat (cbn;
    match goal with
    | |- context [match ?x with _ => _ end] => is_var x; destruct x
    | |- context [match findStatus ?d with _ => _ end] =>
        destruct (findStatus d) eqn:?
    | |- context [if openOk ?e ?n ?p then _ else _] =>
        destruct (openOk e n p) eqn:?
    | |- context [if writeOk ?e ?n then _ else _] =>
        destruct (writeOk e n) eqn:?
    end).

Ltac boot s :=
  destruct s as [[] []];
  unfold bootstrap, resolveStatus, setInterval, hidOpen, hidWrite;
  run_m; crunch.

Lemma bootstrap_dedupeVars cfg env devices s :
  dedupeVars (vars (exec (bootstrap cfg env devices) s)) = dedupeVars (vars s).
Proof. boot s; reflexivity. Qed.

Lemma bootstrap_emits cfg env devices s :
  exists errs,
    emitted (host (exec (bootstrap cfg env devices) s))
    = emitted (host s) ++ errs
    /\ signals errs = [].
Proof.
  boot s;
    first [ now exists []; rewrite app_nil_r
          | eexists; split; reflexivity
          | rewrite <- app_assoc; eexists; split; reflexivity ].
Qed.

Lemma bootstrap_arms cfg env devices s :
  schedOk cfg s ->
  let s' := exec (bootstrap cfg env devices) s in
  schedOk cfg s' /\ armed s' = true.
Proof.
  unfold schedOk, armed. boot s; intros ->; cbn;
    rewrite ?Nat.eqb_refl; auto.
Qed.

Lemma bootstrap_headsets cfg env devices s :
  headsets (host (exec (bootstrap cfg env devices) s)) = headsets (host s)
  /\ closeCalls (host (exec (bootstrap cfg env devices) s))
     = closeCalls (host s).
Proof. boot s; auto. Qed.

(** The wake-up report is written to the handle [bootstrap] has resolved,
    and nothing is written when it has none. *)
Lemma bootstrap_writes cfg env devices s :
  let s' := exec (bootstrap cfg env devices) s in
  match bootstrapDevice (vars s') with
  | Some dev => writes (host s') = writes (host s) ++ [(dev, wakeup)]
  | None => writes (host s') = writes (host s)
  end.
Proof. boot s; reflexivity. Qed.

(** [bootstrap] resolves a handle iff it holds one already or the status
    interface exists and opens. *)
Lemma bootstrap_resolves cfg env devices s :
  let s' := exec (bootstrap cfg env devices) s in
  bootstrapDevice (vars s') =
  match bootstrapDevice (vars s), findStatus devices with
  | Some dev, _ => Some dev
  | None, Some info =>
      if openOk env (openSeq (host s)) (path info)
      then Some (openSeq (host s)) else None
  | None, None => None
  end.
Proof. boot s; reflexivity. Qed.

(** The handles after [bootstrap]: one more, on the path of the status
    interface, when it had to open it. *)
Lemma bootstrap_handles cfg env devices s :
  let s' := exec (bootstrap cfg env devices) s in
  handles (host s') =
  match bootstrapDevice (vars s), findStatus devices with
  | None, Some info =>
      if openOk env (openSeq (host s)) (path info)
      then handles (host s) ++ [(openSeq (host s), path info)]
      else handles (host s)
  | _, _ => handles (host s)
  end.
Proof. boot s; reflexivity. Qed.

(** Without a status interface: the error, and nothing else but the
    timer. *)
Lemma bootstrap_not_found cfg env devices s :
  findStatus devices = None ->
  bootstrapDevice (vars s) = None ->
  let s' := exec (bootstrap cfg env devices) s in
  emitted (host s') = emitted (host s) ++ [EError StatusInterfaceNotFound]
  /\ bootstrapDevice (vars s') = None
  /\ handles (host s') = handles (host s)
  /\ openSeq (host s') = openSeq (host s)
  /\ writes (host s') = writes (host s)
  /\ interval (vars s') <> None.
Proof.
  intros F. destruct s as [[] []].
  unfold bootstrap, resolveStatus, setInterval, hidOpen, hidWrite.
  rewrite F. run_m. intros ->. crunch; repeat split; discriminate.
Qed.

(** ** Reports of two bytes *)


Lemma surfaced_deduped {A} enabled same (last : option A) v e :
  (same = true <-> last = Some v) ->
  deduped enabled last v e (surfaced enabled same e).
Proof.
  intros E. unfold deduped, surfaced. split.
  - intros [-> | N]; [reflexivity | ].
    destruct same; [ | now rewrite andb_false_r].
    exfalso. apply N, E. reflexivity.
  - intros -> L. apply E in L. now rewrite L.
Qed.

Lemma deduped_power enabled last p :
  deduped enabled last p (EPower p)
    (surfaced enabled (opt_eqb Power_eqb last (Some p)) (EPower p)).
Proof. apply surfaced_deduped, opt_eqb_eq, Power_eqb_eq. Qed.

Lemma deduped_bool enabled last b e :
  deduped enabled last b e (surfaced enabled (opt_eqb Bool.eqb (Some b) last) e).
Proof.
  apply surfaced_deduped.
  rewrite opt_eqb_eq by apply Bool.eqb_true_iff. split; congruence.
Qed.

Lemma onData_two cfg env devices now b0 b1 :
  onData cfg env devices now [b0; b1] =
  if (b0 =? 0x64) && (b1 =? 0x03) then
    v <- getVars ;;
    clearInterval (interval v) ;;
    modVars (set_interval None) ;;
    powerBlock cfg Off
  else if (b0 =? 0x64) && (b1 =? 0x01) then
    bootstrap cfg env devices ;; powerBlock cfg On
  else mutedBlock cfg ((b0 =? 0x65) && (b1 =? 0x04)).
Proof. reflexivity. Qed.

Lemma pair_test b0 b1 x y :
  (b0 =? x) && (b1 =? y) = true <-> b0 = x /\ b1 = y.
Proof. now rewrite andb_true_iff, !Z.eqb_eq. Qed.

(** The power-off report, whatever the state. *)
Lemma power_off_run cfg env devices now s :
  let s' := exec (onData cfg env devices now [0x64; 0x03]) s in
  since s s' =
    surfaced (dedupe cfg) (opt_eqb Power_eqb (lastPower (vars s)) (Some Off))
      (EPower Off)
  /\ lastPower (vars s') = Some Off
  /\ interval (vars s') = None
  /\ timers (host s') =
     match interval (vars s) with
     | Some t => dropId t (timers (host s))
     | None => timers (host s)
     end.
Proof.
  cbv zeta. rewrite onData_two. cbn [Z.eqb Pos.eqb andb].
  rewrite !exec_bind, !powerBlock_exec.
  destruct s as [[? ? ? ? ? i ?] []]. destruct i;
    unfold clearInterval; run_m;
    (split; [apply skipn_length_app | repeat split]).
Qed.

(** The power-on report: [bootstrap], then the power block. *)
Lemma power_on_run cfg env devices now s :
  exec (onData cfg env devices now [0x64; 0x01]) s
  = exec (powerBlock cfg On) (exec (bootstrap cfg env devices) s).
Proof. rewrite onData_two. cbn [Z.eqb Pos.eqb andb]. now rewrite exec_bind. Qed.

Lemma signals_app l k : signals (l ++ k) = signals l ++ signals k.
Proof. apply filter_app. Qed.

Lemma power_on_signals cfg env devices now s :
  let s' := exec (onData cfg env devices now [0x64; 0x01]) s in
  signals (since s s') =
    surfaced (dedupe cfg) (opt_eqb Power_eqb (lastPower (vars s)) (Some On))
      (EPower On)
  /\ lastPower (vars s') = Some On.
Proof.
  cbv zeta. rewrite power_on_run.
  destruct (bootstrap_emits cfg env devices s) as (errs & E & S).
  pose proof (bootstrap_dedupeVars cfg env devices s) as D.
  unfold dedupeVars in D. injection D as _ _ _ D _.
  rewrite powerBlock_exec. cbn [vars host].
  split; [ | reflexivity].
  rewrite (since_emitted s _ (errs ++ surfaced (dedupe cfg)
             (opt_eqb Power_eqb (lastPower (vars s)) (Some On)) (EPower On))).
  - rewrite signals_app, S. cbn [app]. unfold surfaced.
    now destruct (_ && _).
  - cbn. now rewrite E, D, app_assoc.
Qed.

Lemma dropId_single {A} (t : nat) (x : A) : dropId t [(t, x)] = [].
Proof. unfold dropId. cbn. now rewrite Nat.eqb_refl. Qed.

Lemma power_off_disarms cfg env devices now s :
  schedOk cfg s ->
  let s' := exec (onData cfg env devices now [0x64; 0x03]) s in
  interval (vars s') = None /\ timers (host s') = [] /\ disarmed s' = true.
Proof.
  intros Hok s'.
  destruct (power_off_run cfg env devices now s) as (_ & _ & I & T).
  fold s' in I, T. unfold schedOk in Hok.
  assert (T' : timers (host s') = []).
  { rewrite T, Hok. destruct (interval (vars s)); [apply dropId_single | auto]. }
  unfold disarmed. now rewrite I, T'.
Qed.

Lemma power_on_arms cfg env devices now s :
  schedOk cfg s ->
  armed (exec (onData cfg env devices now [0x64; 0x01]) s) = true.
Proof.
  intros Hok. rewrite power_on_run, powerBlock_exec.
  apply (bootstrap_arms cfg env devices s Hok).
Qed.

(** C2. A report of two bytes [(0x64,0x03)] decodes power off: the only
    event it can emit is [EPower Off] (emitted or suppressed as the policy
    says), the stored power value becomes [Off], and the scheduler is
    disarmed.  [(0x64,0x01)] decodes power on: the only signal it can emit
    is [EPower On] (next to the errors [bootstrap] may report), the stored
    value becomes [On], and the scheduler is armed.  Every other report of
    two bytes decodes [EMuted true] if its bytes are [(0x65,0x04)] and
    [EMuted false] otherwise, and touches neither the power channel nor
    the scheduler. *)
Theorem two_byte_reports cfg env devices (now b0 b1 : Z) (s : St)
  (Hok : schedOk cfg s) :
  let s' := exec (onData cfg env devices now [b0; b1]) s in
  (b0 = 0x64 /\ b1 = 0x03 ->
     deduped (dedupe cfg) (lastPower (vars s)) Off (EPower Off) (since s s')
     /\ lastPower (vars s') = Some Off
     /\ disarmed s' = true)
  /\ (b0 = 0x64 /\ b1 = 0x01 ->
     deduped (dedupe cfg) (lastPower (vars s)) On (EPower On)
       (signals (since s s'))
     /\ lastPower (vars s') = Some On
     /\ armed s' = true)
  /\ (~ (b0 = 0x64 /\ b1 = 0x03) -> ~ (b0 = 0x64 /\ b1 = 0x01) ->
     forall isMuted : bool,
       (isMuted = true <-> b0 = 0x65 /\ b1 = 0x04) ->
       deduped (dedupe cfg) (lastMuted (vars s)) isMuted (EMuted isMuted)
         (since s s')
       /\ lastMuted (vars s') = Some isMuted
       /\ lastPower (vars s') = lastPower (vars s)
       /\ interval (vars s') = interval (vars s)
       /\ timers (host s') = timers (host s)).
Proof.
  intros s'. split; [ | split].
  - intros [-> ->]. subst s'.
    destruct (power_off_run cfg env devices now s) as (E & L & _).
    destruct (power_off_disarms cfg env devices now s Hok) as (_ & _ & D).
    cbv zeta in E, L, D. rewrite E. split; [apply deduped_power | auto].
  - intros [-> ->]. subst s'.
    destruct (power_on_signals cfg env devices now s) as (E & L).
    cbv zeta in E, L. rewrite E. split; [apply deduped_power | ].
    split; [exact L | now apply power_on_arms].
  - intros N1 N2 isMuted Hm. subst s'. rewrite onData_two.
    rewrite <- pair_test in N1, N2, Hm.
    apply not_true_is_false in N1, N2. rewrite N1, N2.
    assert (E : (b0 =? 0x65) && (b1 =? 0x04) = isMuted).
    { destruct isMuted; [now apply Hm | ].
      apply not_true_is_false. intros C. apply Hm in C. discriminate. }
    rewrite E, mutedBlock_exec. cbn [vars host].
    split; [ | now destruct s as [[] ?]].
    erewrite since_emitted by (cbn; reflexivity). apply deduped_bool.
Qed.

Lemma two_byte_reports_witness :
  exists s0,
    create defaultConfig okEnv [statusInterface; powerInterface] = Some s0
    /\ schedOk defaultConfig s0
    /\ disarmed
         (exec (onData defaultConfig okEnv [statusInterface; powerInterface]
                  1000 [0x64; 0x03]) s0) = true.
Proof.
  eexists. split; [vm_compute; reflexivity | ].
  match goal with
  | |- schedOk ?c ?s /\ _ => assert (S : schedOk c s) by reflexivity
  end.
  split; [exact S | ].
  exact (proj2 (proj2 (proj1
           (two_byte_reports defaultConfig okEnv
              [statusInterface; powerInterface] 1000 0x64 0x03 _ S)
           (conj eq_refl eq_refl)))).
Defined.

(** C10. The scheduler side effect of a power report comes before the
    de-duplication of its event and does not depend on it.  After
    [(0x64,0x03)] the timer is cleared and [interval] is null, also when
    the event is suppressed.  [(0x64,0x01)] runs [bootstrap] on the state
    as it is and then the power block: afterwards the timer is armed, the
    status handle is the one [bootstrap] resolves, and the wake-up report
    has been written to it (nothing is written when [bootstrap] resolves
    no handle), also when the event is suppressed. *)
Theorem power_effects_before_dedupe cfg env devices (now : Z) (s : St)
  (Hok : schedOk cfg s) :
  let off := exec (onData cfg env devices now [0x64; 0x03]) s in
  let on := exec (onData cfg env devices now [0x64; 0x01]) s in
  let booted := exec (bootstrap cfg env devices) s in
  (interval (vars off) = None /\ timers (host off) = [])
  /\ (dedupe cfg = true -> lastPower (vars s) = Some Off ->
      since s off = [] /\ disarmed off = true)
  /\ on = exec (powerBlock cfg On) booted
  /\ armed on = true
  /\ bootstrapDevice (vars on) =
     match bootstrapDevice (vars s), findStatus devices with
     | Some dev, _ => Some dev
     | None, Some info =>
         if openOk env (openSeq (host s)) (path info)
         then Some (openSeq (host s)) else None
     | None, None => None
     end
  /\ match bootstrapDevice (vars on) with
     | Some dev => writes (host on) = writes (host s) ++ [(dev, wakeup)]
     | None => writes (host on) = writes (host s)
     end
  /\ (dedupe cfg = true -> lastPower (vars s) = Some On ->
      signals (since s on) = [] /\ armed on = true).
Proof.
  intros off on booted.
  destruct (power_off_disarms cfg env devices now s Hok) as (I & T & D).
  destruct (power_off_run cfg env devices now s) as (E & _).
  destruct (power_on_signals cfg env devices now s) as (E' & _).
  pose proof (power_on_arms cfg env devices now s Hok) as A.
  pose proof (power_on_run cfg env devices now s) as R.
  pose proof (bootstrap_resolves cfg env devices s) as B.
  pose proof (bootstrap_writes cfg env devices s) as W.
  cbv zeta in *. fold off in I, T, D, E. fold on in E', A, R.
  fold booted in R, B, W.
  assert (V : bootstrapDevice (vars on) = bootstrapDevice (vars booted)
              /\ writes (host on) = writes (host booted)).
  { rewrite R, powerBlock_exec. now destruct (vars booted). }
  destruct V as (V1 & V2).
  split; [auto | ].
  split.
  { intros Hd Hl. split; [ | exact D].
    rewrite E, Hd, Hl. reflexivity. }
  split; [exact R | ].
  split; [exact A | ].
  split; [now rewrite V1 | ].
  split; [now rewrite V1, V2 | ].
  intros Hd Hl. split; [ | exact A].
  rewrite E', Hd, Hl. reflexivity.
Qed.

Lemma power_effects_before_dedupe_witness :
  schedOk defaultConfig initSt
  /\ armed (exec (onData defaultConfig okEnv [statusInterface] 1000 [0x64; 0x01])
              initSt) = true.
Proof.
  split; [reflexivity | ].
  exact (proj1 (proj2 (proj2 (proj2
           (power_effects_before_dedupe defaultConfig okEnv [statusInterface]
              1000 initSt eq_refl))))).
Defined.

(** ** Invariants of a session *)

Lemma lastOn_snoc ch l e :
  lastOn ch (l ++ [e]) = if sameChannel ch e then Some e else lastOn ch l.
Proof. unfold lastOn. now rewrite fold_left_app. Qed.

Lemma lastOn_untracked ch l k :
  isTracked ch = true ->
  Forall (fun e => isTracked e = false) k ->
  lastOn ch (l ++ k) = lastOn ch l.
Proof.
  intros T F. unfold lastOn. rewrite fold_left_app.
  generalize (fold_left (fun acc e => if sameChannel ch e then Some e else acc)
                l None).
  induction F as [ | e k He _ IH]; intros a; [reflexivity | ].
  cbn [fold_left].
  replace (sameChannel ch e) with false; [apply IH | ].
  destruct ch, e; try discriminate; reflexivity.
Qed.

Lemma signals_untracked l :
  signals l = [] -> Forall (fun e => isTracked e = false) l.
Proof.
  induction l as [ | e l IH]; intros H; constructor.
  - destruct e; try discriminate; reflexivity.
  - apply IH. destruct e; try discriminate; exact H.
Qed.

Lemma stored_channel ch e v :
  sameChannel ch e = true -> stored ch v = stored e v.
Proof. destruct ch, e; try discriminate; reflexivity. Qed.

Lemma lastOn_channel ch e l :
  sameChannel ch e = true -> lastOn ch l = lastOn e l.
Proof.
  intros H. unfold lastOn.
  assert (E : forall x, sameChannel ch x = sameChannel e x)
    by (intros x; destruct ch, e, x; try discriminate; reflexivity).
  clear H. generalize (@None Event).
  induction l as [ | x l IH]; intros a; [reflexivity | ].
  cbn [fold_left]. rewrite E. apply IH.
Qed.

(** A state that differs by events of no stored channel only. *)
Lemma Inv_frame cfg devices s s' k :
  interval (vars s') = interval (vars s) ->
  timers (host s') = timers (host s) ->
  bootstrapDevice (vars s') = bootstrapDevice (vars s) ->
  handles (host s') = handles (host s) ->
  dedupeVars (vars s') = dedupeVars (vars s) ->
  emitted (host s') = emitted (host s) ++ k ->
  Forall (fun e => isTracked e = false) k ->
  Inv cfg devices s -> Inv cfg devices s'.
Proof.
  intros I T B H D E F (S & L & P). unfold dedupeVars in D.
  injection D as D1 D2 D3 D4 D5.
  split; [ | split].
  - unfold schedOk in *. now rewrite I, T.
  - intros ch Tr. rewrite E, lastOn_untracked by assumption.
    rewrite <- (L ch Tr). destruct ch; try discriminate; cbn; congruence.
  - intros p. rewrite B, H. apply P.
Qed.

(** A de-duplication block: the event [e] is emitted, or suppressed
    because it is what the channel stores already. *)
Lemma Inv_block cfg devices s v' e out :
  isTracked e = true ->
  out = [e] \/ (out = [] /\ stored e (vars s) = Some e) ->
  stored e v' = Some e ->
  (forall ch, sameChannel ch e = false -> stored ch v' = stored ch (vars s)) ->
  interval v' = interval (vars s) ->
  bootstrapDevice v' = bootstrapDevice (vars s) ->
  Inv cfg devices s ->
  Inv cfg devices {| vars := v'; host := addEvents out (host s) |}.
Proof.
  intros Te O Se Sch I B (S & L & P).
  split; [ | split].
  - unfold schedOk in *. cbn. now rewrite I.
  - intros ch Tr. cbn [vars host]. rewrite emitted_addEvents.
    destruct (sameChannel ch e) eqn:C.
    + rewrite (stored_channel ch e) by exact C.
      rewrite (lastOn_channel ch e) by exact C.
      rewrite Se. destruct O as [-> | [-> O]].
      * rewrite lastOn_snoc.
        replace (sameChannel e e) with true
          by (destruct e; try discriminate; reflexivity).
        reflexivity.
      * rewrite app_nil_r, <- (L e Te). now rewrite O.
    + rewrite Sch by exact C. rewrite (L ch Tr).
      destruct O as [-> | [-> O]]; [ | now rewrite app_nil_r].
      rewrite lastOn_snoc. now rewrite C.
  - intros p. cbn. rewrite B. apply P.
Qed.

Lemma surfaced_cases enabled same e :
  surfaced enabled same e = [e]
  \/ (surfaced enabled same e = [] /\ same = true).
Proof. unfold surfaced. destruct enabled, same; cbn; auto. Qed.

Lemma Inv_powerBlock cfg devices p s :
  Inv cfg devices s -> Inv cfg devices (exec (powerBlock cfg p) s).
Proof.
  intros H. rewrite powerBlock_exec.
  apply Inv_block with (e := EPower p); auto.
  - destruct (surfaced_cases (dedupe cfg)
                (opt_eqb Power_eqb (lastPower (vars s)) (Some p)) (EPower p))
      as [E | [E C]]; [now left | right].
    split; [exact E | ].
    apply opt_eqb_eq in C; [ | apply Power_eqb_eq]. cbn. now rewrite C.
  - intros ch C. destruct ch; try discriminate; reflexivity.
Qed.

Lemma Inv_mutedBlock cfg devices b s :
  Inv cfg devices s -> Inv cfg devices (exec (mutedBlock cfg b) s).
Proof.
  intros H. rewrite mutedBlock_exec.
  apply Inv_block with (e := EMuted b); auto.
  - destruct (surfaced_cases (dedupe cfg)
                (opt_eqb Bool.eqb (Some b) (lastMuted (vars s))) (EMuted b))
      as [E | [E C]]; [now left | right].
    split; [exact E | ].
    apply opt_eqb_eq in C; [ | apply Bool.eqb_true_iff]. cbn. now rewrite <- C.
  - intros ch C. destruct ch; try discriminate; reflexivity.
Qed.

Lemma Inv_chargingBlock cfg devices b s :
  Inv cfg devices s -> Inv cfg devices (exec (chargingBlock cfg b) s).
Proof.
  intros H. rewrite chargingBlock_exec.
  apply Inv_block with (e := ECharging b); auto.
  - destruct (surfaced_cases (dedupe cfg)
                (opt_eqb Bool.eqb (Some b) (lastCharging (vars s)))
                (ECharging b))
      as [E | [E C]]; [now left | right].
    split; [exact E | ].
    apply opt_eqb_eq in C; [ | apply Bool.eqb_true_iff]. cbn. now rewrite <- C.
  - intros ch C. destruct ch; try discriminate; reflexivity.
Qed.

Lemma Inv_batteryBlock cfg devices now pct s :
  Inv cfg devices s -> Inv cfg devices (exec (batteryBlock cfg now pct) s).
Proof.
  intros H. destruct pct as [pct | ]; [ | exact H].
  unfold exec. rewrite batteryBlock_run. cbn [snd].
  destruct (negb (dedupe cfg) || _ || _); [ | exact H].
  apply Inv_block with (e := EBattery pct); auto.
  intros ch C. destruct ch; try discriminate; reflexivity.
Qed.

Lemma Inv_emit cfg devices e s :
  isTracked e = false ->
  Inv cfg devices s -> Inv cfg devices (exec (emit e) s).
Proof.
  intros T. apply Inv_frame with (k := [e]); try reflexivity.
  now constructor.
Qed.

Lemma lastOk_frame s s' k :
  dedupeVars (vars s') = dedupeVars (vars s) ->
  emitted (host s') = emitted (host s) ++ k ->
  Forall (fun e => isTracked e = false) k ->
  lastOk s -> lastOk s'.
Proof.
  intros D E F L ch Tr. unfold dedupeVars in D.
  injection D as D1 D2 D3 D4 D5.
  rewrite E, lastOn_untracked by assumption.
  rewrite <- (L ch Tr). destruct ch; try discriminate; cbn; congruence.
Qed.

Lemma pathCount_snoc p l n q :
  pathCount p (l ++ [(n, q)])
  = (pathCount p l + if String.eqb q p then 1 else 0)%nat.
Proof.
  unfold pathCount. rewrite filter_app, length_app. cbn.
  now destruct (String.eqb q p).
Qed.

Lemma pathCount_dropId p d l : (pathCount p (dropId d l) <= pathCount p l)%nat.
Proof.
  unfold pathCount, dropId. induction l as [ | [n q] l IH]; cbn; [lia | ].
  destruct (Nat.eqb n d); cbn; destruct (String.eqb q p); cbn; lia.
Qed.

Lemma pathsOk_bootstrap cfg env devices opened s :
  pathsOk devices opened s ->
  pathsOk devices opened (exec (bootstrap cfg env devices) s).
Proof.
  intros P p. specialize (P p).
  pose proof (bootstrap_resolves cfg env devices s) as B.
  pose proof (bootstrap_handles cfg env devices s) as H.
  cbv zeta in B, H. rewrite B, H. unfold statusCount in *.
  destruct (bootstrapDevice (vars s)); [exact P | ].
  destruct (findStatus devices) as [info | ]; [ | exact P].
  destruct (openOk env (openSeq (host s)) (path info)); [ | exact P].
  rewrite pathCount_snoc. destruct (String.eqb (path info) p); lia.
Qed.

Lemma lastOk_bootstrap cfg env devices s :
  lastOk s -> lastOk (exec (bootstrap cfg env devices) s).
Proof.
  destruct (bootstrap_emits cfg env devices s) as (errs & E & Sg).
  apply (lastOk_frame s _ errs); auto using signals_untracked.
  apply bootstrap_dedupeVars.
Qed.

Lemma Inv_bootstrap cfg env devices s :
  Inv cfg devices s -> Inv cfg devices (exec (bootstrap cfg env devices) s).
Proof.
  intros (S & L & P). split; [ | split].
  - now apply bootstrap_arms.
  - now apply lastOk_bootstrap.
  - now apply pathsOk_bootstrap.
Qed.

(** [clearInterval(interval); interval = null]. *)
Lemma Inv_clear cfg devices s :
  Inv cfg devices s ->
  Inv cfg devices
    (exec (v <- getVars ;; clearInterval (interval v) ;;
           modVars (set_interval None)) s).
Proof.
  intros (S & L & P). unfold schedOk in S.
  destruct s as [[? ? ? ? ? i ?] []]. cbn in S.
  split; [ | split].
  - unfold schedOk. destruct i; unfold clearInterval; run_m; [ | exact S].
    subst. apply dropId_single.
  - destruct i; unfold clearInterval; run_m; exact L.
  - destruct i; unfold clearInterval; run_m; exact P.
Qed.

Lemma calculatePercentage_eval cfg cs m s :
  eval (calculatePercentage cfg cs m) s = estimate cs m.
Proof. unfold eval. now rewrite calculatePercentage_run. Qed.

Lemma calculatePercentage_exec cfg cs m s :
  exec (calculatePercentage cfg cs m) s =
  if cs =? 0x10 then exec (chargingBlock cfg (m >=? 20)) s else s.
Proof. unfold exec at 1. now rewrite calculatePercentage_run. Qed.

(** What the data listener does, case by case. *)
Lemma onData_cases cfg env devices now data s :
  let s' := exec (onData cfg env devices now data) s in
  s' = exec (powerBlock cfg Off)
         (exec (v <- getVars ;; clearInterval (interval v) ;;
                modVars (set_interval None)) s)
  \/ s' = exec (powerBlock cfg On) (exec (bootstrap cfg env devices) s)
  \/ (exists b, s' = exec (mutedBlock cfg b) s)
  \/ (exists e, isTracked e = false /\ s' = exec (emit e) s)
  \/ s' = s
  \/ (exists pct, s' = exec (batteryBlock cfg now pct) s)
  \/ (exists pct b,
        s' = exec (batteryBlock cfg now pct) (exec (chargingBlock cfg b) s)).
Proof.
  cbv zeta. unfold onData.
  destruct (Z.of_nat (List.length data) =? 0x02).
  { destruct (_ && _).
    - left. now rewrite !exec_bind.
    - destruct (_ && _).
      + right; left. now rewrite exec_bind.
      + right; right; left. eexists. reflexivity. }
  destruct (Z.of_nat (List.length data) =? 0x05).
  { destruct (nth 1 data 0 =? 0x01);
      [ | destruct (nth 1 data 0 =? 0x02)].
    - do 3 right. left. eexists. split; [ | reflexivity]. reflexivity.
    - do 3 right. left. eexists. split; [ | reflexivity]. reflexivity.
    - do 4 right. left. reflexivity. }
  destruct (_ || _).
  - rewrite exec_bind, calculatePercentage_eval, calculatePercentage_exec.
    destruct (nth 3 data 0 =? 0x10).
    + do 6 right. eexists. eexists. reflexivity.
    + do 5 right. left. eexists. reflexivity.
  - do 3 right. left. eexists. split; [ | reflexivity]. reflexivity.
Qed.

Lemma Inv_onData cfg env devices now data s :
  Inv cfg devices s ->
  Inv cfg devices (exec (onData cfg env devices now data) s).
Proof.
  intros H.
  destruct (onData_cases cfg env devices now data s)
    as [E | [E | [[b E] | [(e & T & E) | [E | [[pct E] | (pct & b & E)]]]]]];
    rewrite E.
  - now apply Inv_powerBlock, Inv_clear.
  - now apply Inv_powerBlock, Inv_bootstrap.
  - now apply Inv_mutedBlock.
  - now apply Inv_emit.
  - exact H.
  - now apply Inv_batteryBlock.
  - now apply Inv_batteryBlock, Inv_chargingBlock.
Qed.

Lemma forEach_hidClose_facts l : forall s,
  let s' := exec (forEach hidClose l) s in
  vars s' = vars s
  /\ timers (host s') = timers (host s)
  /\ emitted (host s') = emitted (host s)
  /\ headsets (host s') = headsets (host s)
  /\ writes (host s') = writes (host s)
  /\ handles (host s') = fold_left (fun hs d => dropId d hs) l (handles (host s))
  /\ closeCalls (host s') = closeCalls (host s) ++ l.
Proof.
  induction l as [ | d l IH]; intros s; cbv zeta.
  - cbn. rewrite app_nil_r. repeat split.
  - rewrite exec_forEach_cons.
    destruct (IH (exec (hidClose d) s)) as (V & T & E & Hs & W & H & C).
    rewrite V, T, E, Hs, W, H, C. cbn. rewrite <- app_assoc. repeat split.
Qed.

Lemma pathCount_fold_dropId p l : forall hs,
  (pathCount p (fold_left (fun hs d => dropId d hs) l hs) <= pathCount p hs)%nat.
Proof.
  induction l as [ | d l IH]; intros hs; cbn [fold_left]; [lia | ].
  rewrite IH. apply pathCount_dropId.
Qed.

Lemma Inv_onClose cfg devices s :
  Inv cfg devices s -> Inv cfg devices (exec onClose s).
Proof.
  intros (S & L & P). unfold onClose.
  change (exec (fun s0 => forEach hidClose (headsets (host s0)) s0) s)
    with (exec (forEach hidClose (headsets (host s))) s).
  destruct (forEach_hidClose_facts (headsets (host s)) s)
    as (V & T & E & _ & _ & H & _).
  split; [ | split].
  - unfold schedOk in *. now rewrite V, T.
  - intros ch Tr. rewrite V, E. now apply L.
  - intros p. rewrite V, H. rewrite pathCount_fold_dropId. apply P.
Qed.

Lemma Inv_onError cfg devices dev s :
  Inv cfg devices s -> Inv cfg devices (exec (onError dev) s).
Proof. now apply Inv_emit. Qed.

Lemma Inv_step cfg env devices a s :
  Inv cfg devices s -> Inv cfg devices (step cfg env devices a s).
Proof.
  intros H. destruct a as [t | dev now data | dev | ]; cbn [step].
  - destruct (hasId t (timers (host s))); [now apply Inv_bootstrap | exact H].
  - destruct (isHeadset dev s); [now apply Inv_onData | exact H].
  - destruct (hasId dev (handles (host s))); [now apply Inv_onError | exact H].
  - now apply Inv_onClose.
Qed.

Lemma Inv_run cfg env devices acts : forall s,
  Inv cfg devices s -> Inv cfg devices (run cfg env devices acts s).
Proof.
  induction acts as [ | a acts IH]; intros s H; [exact H | ].
  cbn. apply IH. now apply Inv_step.
Qed.

(** The loop over the selected interfaces. *)
Lemma openInterface_facts env d s :
  let s' := exec (openInterface env d) s in
  vars s' = vars s
  /\ timers (host s') = timers (host s)
  /\ (exists errs, emitted (host s') = emitted (host s) ++ errs
                   /\ signals errs = [])
  /\ (forall p, (pathCount p (handles (host s'))
                 <= pathCount p (handles (host s))
                    + if String.eqb (path d) p then 1 else 0)%nat).
Proof.
  destruct s as [v []]. unfold openInterface, hidOpen, listen. run_m.
  destruct (openOk env _ (path d)); cbn.
  - repeat split.
    + exists []. now rewrite app_nil_r.
    + intros p. unfold pathCount. rewrite filter_app, length_app. cbn.
      destruct (String.eqb (path d) p); cbn; lia.
  - repeat split.
    + eexists. split; reflexivity.
    + intros p. lia.
Qed.

Lemma forEach_open_facts env ds : forall s,
  let s' := exec (forEach (openInterface env) ds) s in
  vars s' = vars s
  /\ timers (host s') = timers (host s)
  /\ (exists errs, emitted (host s') = emitted (host s) ++ errs
                   /\ signals errs = [])
  /\ (forall p, (pathCount p (handles (host s'))
                 <= pathCount p (handles (host s)) + devCount p ds)%nat).
Proof.
  induction ds as [ | d ds IH]; intros s; cbv zeta.
  - cbn. repeat split; [ | intros; lia].
    exists []. now rewrite app_nil_r.
  - rewrite exec_forEach_cons.
    destruct (openInterface_facts env d s) as (V & T & (e1 & E1 & S1) & P1).
    destruct (IH (exec (openInterface env d) s))
      as (V' & T' & (e2 & E2 & S2) & P2).
    rewrite V', T', V, T. repeat split.
    + exists (e1 ++ e2). rewrite E2, E1, app_assoc. split; [reflexivity | ].
      now rewrite signals_app, S1, S2.
    + intros p. specialize (P1 p). specialize (P2 p).
      unfold devCount in *. cbn [filter].
      destruct (String.eqb (path d) p); cbn [List.length]; lia.
Qed.

Lemma Inv_initSt cfg devices :
  schedOk cfg initSt /\ lastOk initSt /\ pathsOk devices [] initSt.
Proof.
  split; [reflexivity | split].
  - intros ch T. destruct ch; try discriminate; reflexivity.
  - intros p. cbn. lia.
Qed.

Lemma Inv_create cfg env devices s0 :
  create cfg env devices = Some s0 -> Inv cfg devices s0.
Proof.
  unfold create. destruct devices as [ | d ds] eqn:D; [discriminate | ].
  rewrite <- D. intros [= <-]. rewrite exec_bind.
  destruct (Inv_initSt cfg devices) as (S & L & P).
  set (sb := exec (bootstrap cfg env devices) initSt).
  assert (Sb : schedOk cfg sb) by now apply bootstrap_arms.
  assert (Lb : lastOk sb) by now apply lastOk_bootstrap.
  assert (Pb : pathsOk devices [] sb) by now apply pathsOk_bootstrap.
  destruct (forEach_open_facts env devices sb) as (V & T & (errs & E & Sg) & Pc).
  split; [ | split].
  - unfold schedOk in *. now rewrite V, T.
  - apply (lastOk_frame sb _ errs); auto using signals_untracked.
    now rewrite V.
  - intros p. specialize (Pb p). specialize (Pc p). rewrite V.
    cbn in Pb. lia.
Qed.

Lemma reachable_Inv cfg env devices s :
  reachable cfg env devices s -> Inv cfg devices s.
Proof.
  intros (s0 & acts & C & ->). apply Inv_run. now apply Inv_create in C.
Qed.

(** ** The battery channel *)

Lemma battery_condition cfg (now pct : Z) (v : Vars) :
  let c := negb (dedupe cfg)
           || negb (opt_eqb Z.eqb (Some pct) (lastBattery v))
           || (now - lastBatteryEmitTs v >=? batteryMinIntervalMs cfg) in
  (dedupe cfg = false -> c = true)
  /\ (dedupe cfg = true ->
      (c = true <->
       lastBattery v <> Some pct
       \/ batteryMinIntervalMs cfg <= now - lastBatteryEmitTs v)).
Proof.
  cbv zeta. split; intros ->; cbn [negb orb]; [reflexivity | ].
  rewrite orb_true_iff, negb_true_iff, Z.geb_leb, Z.leb_le.
  assert (E : opt_eqb Z.eqb (Some pct) (lastBattery v) = false
              <-> lastBattery v <> Some pct).
  { rewrite <- not_true_iff_false, opt_eqb_eq by apply Z.eqb_eq.
    split; intros H C; apply H; congruence. }
  now rewrite E.
Qed.

(** C4. In a session the battery value the reader stores is the last
    battery event it emitted.  A status report that determines a
    percentage emits a battery event at most once.  With de-duplication
    enabled it does so iff the percentage differs from the last emitted
    one or at least [batteryMinIntervalMs] (15000 ms by default) has
    elapsed since the time recorded at the last emission; with
    de-duplication disabled it always does.  An emission records the percentage and the time, a
    suppressed report changes neither.  So after reports that repeat the
    stored percentage within the interval, none of which emits a battery
    event, the next one at or after the interval emits exactly one. *)
Theorem battery_policy cfg env devices (now : Z) (data : list Z) (pct : Z)
  (s : St)
  (Hr : reachable cfg env devices s)
  (Hs : isStatusReport data = true) (Hp : percentageOf data = Some pct) :
  let s' := exec (onData cfg env devices now data) s in
  option_map EBattery (lastBattery (vars s))
  = lastOn (EBattery pct) (emitted (host s))
  /\ (battery (since s s') = [EBattery pct] \/ battery (since s s') = [])
  /\ (dedupe cfg = true ->
      (battery (since s s') = [EBattery pct] <->
       lastBattery (vars s) <> Some pct
       \/ batteryMinIntervalMs cfg <= now - lastBatteryEmitTs (vars s)))
  /\ (dedupe cfg = false -> battery (since s s') = [EBattery pct])
  /\ (battery (since s s') = [EBattery pct] ->
      lastBattery (vars s') = Some pct /\ lastBatteryEmitTs (vars s') = now)
  /\ (battery (since s s') = [] ->
      lastBattery (vars s') = lastBattery (vars s)
      /\ lastBatteryEmitTs (vars s') = lastBatteryEmitTs (vars s))
  /\ batteryMinIntervalMs defaultConfig = 15000
  /\ (dedupe cfg = true ->
      lastBattery (vars s) = Some pct ->
      forall (quiet : list (Z * list Z)) (t : Z),
        Forall (fun r => isStatusReport (snd r) = true
                         /\ percentageOf (snd r) = Some pct
                         /\ fst r - lastBatteryEmitTs (vars s)
                            < batteryMinIntervalMs cfg) quiet ->
        batteryMinIntervalMs cfg <= t - lastBatteryEmitTs (vars s) ->
        let s1 :=
          exec (forEach (fun r => onData cfg env devices (fst r) (snd r)) quiet)
            s in
        let s2 := exec (onData cfg env devices t data) s1 in
        battery (since s s1) = []
        /\ battery (since s1 s2) = [EBattery pct]
        /\ lastBatteryEmitTs (vars s2) = t).
Proof.
  intros s'.
  pose proof (onData_status_battery cfg env devices now data s pct Hs Hp) as B.
  pose proof (battery_condition cfg now pct (vars s)) as (Coff & Con).
  cbv zeta in B. fold s' in B.
  split; [ | split; [ | split; [ | split; [ | split; [ | split; [ | split]]]]]].
  - destruct (reachable_Inv cfg env devices s Hr) as (_ & L & _).
    exact (L (EBattery pct) eq_refl).
  - destruct (negb (dedupe cfg) || _ || _); [left | right]; apply B.
  - intros Hd. rewrite <- (Con Hd).
    destruct (negb (dedupe cfg) || _ || _); destruct B as (B1 & _);
      rewrite B1; split; intros H; congruence.
  - intros Hd. rewrite (Coff Hd) in B. apply B.
  - intros H. destruct (negb (dedupe cfg) || _ || _);
      destruct B as (B1 & B2 & B3); [auto | congruence].
  - intros H. destruct (negb (dedupe cfg) || _ || _);
      destruct B as (B1 & B2 & B3); [congruence | auto].
  - reflexivity.
  - intros Hd Hl quiet t Hq Ht s1 s2.
    destruct (quiet_reports cfg env devices pct quiet s Hd Hl Hq)
      as (Q1 & _ & Q3 & Q4).
    fold s1 in Q1, Q3, Q4. split; [exact Q1 | ].
    pose proof (onData_status_battery cfg env devices t data s1 pct Hs Hp) as C.
    pose proof (battery_condition cfg t pct (vars s1)) as (_ & Con1).
    cbv zeta in C. fold s2 in C.
    rewrite (proj2 (Con1 Hd)) in C by (right; rewrite Q4; exact Ht).
    split; apply C.
Qed.

Lemma battery_policy_witness :
  exists s0,
    create defaultConfig okEnv [statusInterface; powerInterface] = Some s0
    /\ isStatusReport [0; 0; 0; 0x0f; 60; 0; 0; 0; 0; 0; 0; 0; 0; 0; 0] = true
    /\ percentageOf [0; 0; 0; 0x0f; 60; 0; 0; 0; 0; 0; 0; 0; 0; 0; 0] = Some 80
    /\ battery
         (since s0
            (exec (onData defaultConfig okEnv [statusInterface; powerInterface]
                     1000 [0; 0; 0; 0x0f; 60; 0; 0; 0; 0; 0; 0; 0; 0; 0; 0])
               s0))
       = [EBattery 80].
Proof.
  eexists. split; [vm_compute; reflexivity | ].
  split; [reflexivity | ]. split; [reflexivity | ].
  refine (proj2 (proj1 (proj2 (proj2
           (battery_policy defaultConfig okEnv [statusInterface; powerInterface]
              1000 [0; 0; 0; 0x0f; 60; 0; 0; 0; 0; 0; 0; 0; 0; 0; 0] 80 _
              _ eq_refl eq_refl))) eq_refl) _).
  - eexists. exists []. split; [vm_compute; reflexivity | reflexivity].
  - left. discriminate.
Defined.

(** ** The events of a report *)


Lemma extends_refl s : extends s s.
Proof. exists []. now rewrite app_nil_r. Qed.

Lemma extends_trans s1 s2 s3 : extends s1 s2 -> extends s2 s3 -> extends s1 s3.
Proof.
  intros [l E] [k F]. exists (l ++ k). now rewrite F, E, app_assoc.
Qed.

Lemma since_extends s s' :
  extends s s' -> emitted (host s') = emitted (host s) ++ since s s'.
Proof. intros [l E]. now rewrite (since_emitted s s' l E). Qed.

Lemma since_trans s1 s2 s3 :
  extends s1 s2 -> extends s2 s3 -> since s1 s3 = since s1 s2 ++ since s2 s3.
Proof.
  intros H12 H23. apply since_emitted.
  rewrite (since_extends s2 s3 H23), (since_extends s1 s2 H12).
  now rewrite app_assoc.
Qed.

Lemma extends_powerBlock cfg p s : extends s (exec (powerBlock cfg p) s).
Proof. rewrite powerBlock_exec. eexists. reflexivity. Qed.

Lemma extends_mutedBlock cfg b s : extends s (exec (mutedBlock cfg b) s).
Proof. rewrite mutedBlock_exec. eexists. reflexivity. Qed.

Lemma extends_chargingBlock cfg b s : extends s (exec (chargingBlock cfg b) s).
Proof. rewrite chargingBlock_exec. eexists. reflexivity. Qed.

Lemma extends_batteryBlock cfg now pct s :
  extends s (exec (batteryBlock cfg now pct) s).
Proof.
  destruct pct as [pct | ]; [ | apply extends_refl].
  unfold exec. rewrite batteryBlock_run. cbn [snd].
  destruct (negb (dedupe cfg) || _ || _); [ | apply extends_refl].
  eexists. reflexivity.
Qed.

Lemma extends_bootstrap cfg env devices s :
  extends s (exec (bootstrap cfg env devices) s).
Proof. destruct (bootstrap_emits cfg env devices s) as (l & E & _). now exists l. Qed.

Lemma extends_clear s :
  extends s (exec (v <- getVars ;; clearInterval (interval v) ;;
                   modVars (set_interval None)) s).
Proof.
  destruct s as [[? ? ? ? ? i ?] []].
  destruct i; unfold clearInterval; run_m; exists []; cbn;
    now rewrite app_nil_r.
Qed.

Lemma extends_onData cfg env devices now data s :
  extends s (exec (onData cfg env devices now data) s).
Proof.
  destruct (onData_cases cfg env devices now data s)
    as [E | [E | [[b E] | [(e & T & E) | [E | [[pct E] | (pct & b & E)]]]]]];
    rewrite E.
  - eapply extends_trans; [apply extends_clear | apply extends_powerBlock].
  - eapply extends_trans; [apply extends_bootstrap | apply extends_powerBlock].
  - apply extends_mutedBlock.
  - eexists. reflexivity.
  - apply extends_refl.
  - apply extends_batteryBlock.
  - eapply extends_trans; [apply extends_chargingBlock | apply extends_batteryBlock].
Qed.

Lemma filter_surfaced d enabled same :
  filter (sameChannel d) (surfaced enabled same d) = surfaced enabled same d.
Proof.
  unfold surfaced. destruct (enabled && same); [reflexivity | ].
  cbn. now destruct d.
Qed.

Lemma filter_channel_signals d l :
  isTracked d = true ->
  filter (sameChannel d) (signals l) = filter (sameChannel d) l.
Proof.
  intros T. unfold signals. induction l as [ | e l IH]; [reflexivity | ].
  cbn. destruct e; cbn; rewrite ?IH; try reflexivity.
  destruct d; try discriminate; reflexivity.
Qed.

Lemma specDecode_cases data d :
  specDecode data = Some d ->
  (exists b0 b1, data = [b0; b1])
  \/ (isStatusReport data = true /\ (nth 3 data 0 =? 0x10) = true
      /\ d = ECharging (magicOf data >=? 20)).
Proof.
  intros H. destruct data as [ | b0 [ | b1 [ | b2 rest]]];
    try (cbn in H; discriminate); [left; eauto | right].
  unfold specDecode in H. unfold isStatusReport, magicOf.
  destruct (Nat.eqb _ 15 || Nat.eqb _ 20); [ | discriminate].
  destruct (nth 3 _ 0 =? 0x10); [ | discriminate].
  injection H as <-. auto.
Qed.

(** What a report does on the channel of the value it decodes to. *)
Lemma onData_channel cfg env devices now data d s :
  specDecode data = Some d ->
  let s' := exec (onData cfg env devices now data) s in
  isTracked d = true
  /\ deduped (dedupe cfg) (stored d (vars s)) d d
       (filter (sameChannel d) (since s s'))
  /\ stored d (vars s') = Some d.
Proof.
  intros Hd s'. subst s'.
  assert (P : forall (l : option Power) p out,
             deduped (dedupe cfg) l p (EPower p) out ->
             deduped (dedupe cfg) (option_map EPower l) (EPower p) (EPower p) out).
  { intros l p out [D1 D2]. split.
    - intros [H | H]; apply D1; [now left | right].
      intros ->. now apply H.
    - intros H1 H2. apply D2; [exact H1 | ].
      destruct l; cbn in H2; congruence. }
  assert (B : forall (f : bool -> Event) (l : option bool) b out,
             (forall x y, f x = f y -> x = y) ->
             deduped (dedupe cfg) l b (f b) out ->
             deduped (dedupe cfg) (option_map f l) (f b) (f b) out).
  { intros f l b out Inj [D1 D2]. split.
    - intros [H | H]; apply D1; [now left | right].
      intros ->. now apply H.
    - intros H1 H2. apply D2; [exact H1 | ].
      destruct l; cbn in H2; [ | discriminate].
      injection H2 as H2. apply Inj in H2. congruence. }
  destruct (specDecode_cases data d Hd) as [(b0 & b1 & ->) | (Hs & Hc & ->)].
  - cbn [specDecode] in Hd.
    destruct ((b0 =? 0x64) && (b1 =? 0x03)) eqn:C1.
    { injection Hd as <-. apply pair_test in C1. destruct C1 as [-> ->].
      destruct (power_off_run cfg env devices now s) as (E & L & _).
      cbv zeta in E, L. rewrite E, filter_surfaced. cbn [stored]. rewrite L.
      split; [reflexivity | split; [ | reflexivity]].
      apply P, deduped_power. }
    destruct ((b0 =? 0x64) && (b1 =? 0x01)) eqn:C2.
    { injection Hd as <-. apply pair_test in C2. destruct C2 as [-> ->].
      destruct (power_on_signals cfg env devices now s) as (E & L).
      cbv zeta in E, L.
      rewrite <- filter_channel_signals by reflexivity.
      rewrite E, filter_surfaced. cbn [stored]. rewrite L.
      split; [reflexivity | split; [ | reflexivity]].
      apply P, deduped_power. }
    injection Hd as <-. rewrite onData_two, C1, C2, mutedBlock_exec.
    cbn [vars host stored].
    erewrite since_emitted by (cbn; reflexivity).
    rewrite filter_surfaced. split; [reflexivity | split; [ | reflexivity]].
    apply (B EMuted); [congruence | apply deduped_bool].
  - clear Hd.
    rewrite onData_status_run by exact Hs. rewrite Hc.
    set (b := magicOf data >=? 20).
    set (s1 := exec (chargingBlock cfg b) s).
    assert (E1 : since s s1
                 = surfaced (dedupe cfg)
                     (opt_eqb Bool.eqb (Some b) (lastCharging (vars s)))
                     (ECharging b)
                 /\ lastCharging (vars s1) = Some b).
    { subst s1. rewrite chargingBlock_exec. split; [ | reflexivity].
      now apply since_emitted. }
    destruct E1 as (E1 & L1).
    assert (E2 : filter (sameChannel (ECharging b))
                   (since s1 (exec (batteryBlock cfg now (percentageOf data)) s1))
                 = []
                 /\ lastCharging
                      (vars (exec (batteryBlock cfg now (percentageOf data)) s1))
                    = lastCharging (vars s1)).
    { destruct (percentageOf data) as [pct | ];
        [ | now rewrite since_refl].
      unfold exec. rewrite batteryBlock_run. cbn [snd].
      destruct (negb (dedupe cfg) || _ || _); [ | now rewrite since_refl].
      split; [ | reflexivity].
      now erewrite since_emitted by (cbn; reflexivity). }
    destruct E2 as (E2 & L2).
    rewrite (since_trans s s1) by
      (try apply extends_chargingBlock; apply extends_batteryBlock).
    rewrite filter_app, E2, app_nil_r, E1, filter_surfaced.
    cbn [stored]. rewrite L2, L1.
    split; [reflexivity | split; [ | reflexivity]].
    apply (B ECharging); [congruence | apply deduped_bool].
Qed.

(** C3. On the power, muted and charging channels the value the reader
    stores is the last event it emitted on the channel.  When a report
    decodes to the value [d]: with de-duplication enabled the event is
    emitted iff [d] differs from that last event (nothing is emitted when
    they are equal, exactly [d] otherwise); with de-duplication disabled
    it is always emitted; and afterwards the stored value is [d], emitted
    or not.  So a second report that decodes to [d] right after emits
    nothing: the two together emit what the first did, which is exactly
    one event when [d] was a change. *)
Theorem dedupe_policy cfg env devices (s : St) (now : Z) (data : list Z)
  (d : Event)
  (Hr : reachable cfg env devices s) (Hd : specDecode data = Some d) :
  let s' := exec (onData cfg env devices now data) s in
  let out := filter (sameChannel d) (since s s') in
  stored d (vars s) = lastOn d (emitted (host s))
  /\ (dedupe cfg = true -> lastOn d (emitted (host s)) = Some d -> out = [])
  /\ (dedupe cfg = true -> lastOn d (emitted (host s)) <> Some d -> out = [d])
  /\ (dedupe cfg = false -> out = [d])
  /\ stored d (vars s') = Some d
  /\ (forall now' data',
        specDecode data' = Some d -> dedupe cfg = true ->
        let s'' := exec (onData cfg env devices now' data') s' in
        filter (sameChannel d) (since s' s'') = []
        /\ filter (sameChannel d) (since s s'') = out
        /\ (lastOn d (emitted (host s)) <> Some d ->
            filter (sameChannel d) (since s s'') = [d])).
Proof.
  intros s' out.
  destruct (onData_channel cfg env devices now data d s Hd) as (T & [D1 D2] & S).
  fold s' in D1, D2, S. fold out in D1, D2.
  destruct (reachable_Inv cfg env devices s Hr) as (_ & L & _).
  specialize (L d T). rewrite <- L.
  split; [reflexivity | ].
  split; [exact D2 | ].
  split; [intros _ N; apply D1; now right | ].
  split; [intros E; apply D1; now left | ].
  split; [exact S | ].
  intros now' data' Hd' E s''.
  destruct (onData_channel cfg env devices now' data' d s' Hd')
    as (_ & [_ D2'] & _).
  fold s'' in D2'. specialize (D2' E S).
  assert (P : filter (sameChannel d) (since s s'') = out).
  { unfold s'', s'. rewrite (since_trans s s') by apply extends_onData.
    rewrite filter_app. fold s' s''. rewrite D2'. now rewrite app_nil_r. }
  split; [exact D2' | ].
  split; [exact P | ].
  intros N. rewrite P. apply D1. now right.
Qed.

Lemma dedupe_policy_witness :
  exists s0,
    create defaultConfig okEnv [statusInterface; powerInterface] = Some s0
    /\ specDecode [0x64; 0x03] = Some (EPower Off)
    /\ filter (sameChannel (EPower Off))
         (since s0
            (exec (onData defaultConfig okEnv [statusInterface; powerInterface]
                     1000 [0x64; 0x03]) s0))
       = [EPower Off].
Proof.
  eexists. split; [vm_compute; reflexivity | ]. split; [reflexivity | ].
  refine (proj1 (proj2 (proj2
    (dedupe_policy defaultConfig okEnv [statusInterface; powerInterface]
       _ 1000 [0x64; 0x03] (EPower Off) _ eq_refl))) eq_refl _).
  - eexists. exists []. split; [vm_compute; reflexivity | reflexivity].
  - vm_compute. discriminate.
Defined.

(** ** The status interface *)

Lemma isStatus_iff d : isStatus d = true <-> usage d = Some 771.
Proof.
  unfold isStatus, STATUS_USAGE. rewrite opt_eqb_eq by apply Z.eqb_eq.
  reflexivity.
Qed.

Lemma isStatusOnPage_iff d :
  isStatusOnPage d = true <->
  usage d = Some 771 /\ (usagePage d = Some 65363 \/ usagePage d = Some 65424).
Proof.
  unfold isStatusOnPage. rewrite andb_true_iff, isStatus_iff.
  destruct (usagePage d) as [p | ]; cbn.
  - rewrite !orb_true_iff, !Z.eqb_eq.
    split; intros [U H]; split; auto.
    + destruct H as [-> | [-> | H]]; [auto | auto | discriminate].
    + destruct H as [[= ->] | [= ->]]; auto.
  - split; intros [U H]; [discriminate | ].
    destruct H; discriminate.
Qed.

(** C7 (as amended). Among the selected interfaces [bootstrap] takes an
    interface of usage 771 whose usage page is 65363 or 65424 when there
    is one, otherwise any interface of usage 771, and none only when no
    selected interface has usage 771.  In that last case every call of
    [bootstrap] without a status handle emits the error that names the
    missing interface, opens no handle and writes nothing, and leaves the
    handle unresolved, so that the next call looks again; the repeating
    timer, which [bootstrap] starts before it looks for the interface, is
    armed all the same. *)
Theorem status_interface_selection cfg env devices (s : St) :
  (forall d, findStatus devices = Some d ->
     In d devices /\ usage d = Some 771
     /\ ((exists d', In d' devices /\ usage d' = Some 771
                     /\ (usagePage d' = Some 65363 \/ usagePage d' = Some 65424))
         -> usagePage d = Some 65363 \/ usagePage d = Some 65424))
  /\ (findStatus devices = None <->
      forall d, In d devices -> usage d <> Some 771)
  /\ (findStatus devices = None -> bootstrapDevice (vars s) = None ->
      schedOk cfg s ->
      let s' := exec (bootstrap cfg env devices) s in
      let s'' := exec (bootstrap cfg env devices) s' in
      since s s' = [EError StatusInterfaceNotFound]
      /\ bootstrapDevice (vars s') = None
      /\ handles (host s') = handles (host s)
      /\ openSeq (host s') = openSeq (host s)
      /\ writes (host s') = writes (host s)
      /\ armed s' = true
      /\ since s' s'' = [EError StatusInterfaceNotFound]).
Proof.
  split; [ | split].
  - intros d F. unfold findStatus in F.
    destruct (find isStatusOnPage devices) as [d0 | ] eqn:F1.
    + injection F as <-. apply find_some in F1. destruct F1 as [I P].
      apply isStatusOnPage_iff in P. tauto.
    + apply find_some in F. destruct F as [I P]. apply isStatus_iff in P.
      split; [exact I | split; [exact P | ]].
      intros (d' & I' & U' & P').
      pose proof (find_none _ _ F1 d' I') as N.
      assert (T : isStatusOnPage d' = true) by now apply isStatusOnPage_iff.
      congruence.
  - unfold findStatus. split.
    + destruct (find isStatusOnPage devices) eqn:F1; [discriminate | ].
      intros F d I U. apply isStatus_iff in U.
      pose proof (find_none _ _ F d I). congruence.
    + intros N.
      destruct (find isStatusOnPage devices) as [d | ] eqn:F1.
      * apply find_some in F1. destruct F1 as [I P].
        apply isStatusOnPage_iff in P. destruct (N d I). tauto.
      * destruct (find isStatus devices) as [d | ] eqn:F2; [ | reflexivity].
        apply find_some in F2. destruct F2 as [I P].
        apply isStatus_iff in P. destruct (N d I P).
  - intros F B S s' s''.
    destruct (bootstrap_not_found cfg env devices s F B)
      as (E & B' & H & O & W & _).
    fold s' in E, B', H, O, W.
    destruct (bootstrap_not_found cfg env devices s' F B') as (E' & _).
    fold s'' in E'.
    destruct (bootstrap_arms cfg env devices s S) as (_ & A). fold s' in A.
    repeat split; auto using since_emitted.
Qed.

Lemma status_interface_selection_witness :
  findStatus [powerInterface] = None
  /\ armed (exec (bootstrap defaultConfig okEnv [powerInterface]) initSt) = true.
Proof.
  split; [reflexivity | ].
  exact (proj1 (proj2 (proj2 (proj2 (proj2 (proj2
           (proj2 (proj2
              (status_interface_selection defaultConfig okEnv [powerInterface]
                 initSt))
              eq_refl eq_refl eq_refl))))))).
Defined.

(** C7, where the claim fails: no selected interface has usage 771, the
    session is created all the same, the error is emitted, and the
    repeating timer is active. *)
Lemma timer_armed_without_status_interface :
  findStatus [powerInterface] = None
  /\ exists s0,
       create defaultConfig okEnv [powerInterface] = Some s0
       /\ emitted (host s0) = [EError StatusInterfaceNotFound]
       /\ armed s0 = true
       /\ timers (host s0) = [(0%nat, 300000)].
Proof.
  split; [reflexivity | ].
  eexists. split; [vm_compute; reflexivity | ]. repeat split.
Qed.

(** ** Handles *)

Lemma devCount_NoDup p ds :
  NoDup (map path ds) -> (devCount p ds <= 1)%nat.
Proof.
  unfold devCount. induction ds as [ | d ds IH]; cbn; [lia | ].
  intros N. inversion N as [ | x l Hx N']; subst.
  destruct (String.eqb (path d) p) eqn:E; [ | auto].
  apply String.eqb_eq in E. subst p. cbn.
  assert (Z0 : filter (fun d0 => String.eqb (path d0) (path d)) ds = []).
  { clear -Hx. induction ds as [ | d' ds IH]; [reflexivity | ].
    cbn. destruct (String.eqb (path d') (path d)) eqn:E.
    - apply String.eqb_eq in E. exfalso. apply Hx. cbn. now left.
    - apply IH. intros C. apply Hx. cbn. now right. }
  rewrite Z0. cbn. lia.
Qed.

Lemma statusCount_le devices p : (statusCount devices p <= 1)%nat.
Proof.
  unfold statusCount. destruct (findStatus devices); [ | lia].
  destruct (String.eqb _ _); lia.
Qed.

(** C8 (as amended). At every point of a session the open handles on a
    path are at most the selected interfaces with that path, plus one on
    the path of the status interface: the handle of the scheduler, which
    [bootstrap] opens besides the handle that the loop opens on the same
    interface.  With distinct paths that is at most one handle on every
    path but that of the status interface, and at most two on that one. *)
Theorem handles_per_path cfg env devices (s : St) (p : string)
  (Hr : reachable cfg env devices s) :
  (pathCount p (handles (host s))
   <= devCount p devices + statusCount devices p)%nat
  /\ (NoDup (map path devices) ->
      (pathCount p (handles (host s)) <= 2)%nat
      /\ (statusCount devices p = 0%nat ->
          (pathCount p (handles (host s)) <= 1)%nat)).
Proof.
  destruct (reachable_Inv cfg env devices s Hr) as (_ & _ & P).
  specialize (P p).
  assert (B : (pathCount p (handles (host s))
               <= devCount p devices + statusCount devices p)%nat).
  { destruct (bootstrapDevice (vars s)); lia. }
  split; [exact B | ].
  intros N. pose proof (devCount_NoDup p devices N).
  pose proof (statusCount_le devices p). lia.
Qed.

Lemma handles_per_path_witness :
  exists s0,
    create defaultConfig okEnv [statusInterface; powerInterface] = Some s0
    /\ (pathCount "/dev/hidraw1" (handles (host s0)) <= 1 + 0)%nat.
Proof.
  eexists. split; [vm_compute; reflexivity | ].
  refine (proj1 (handles_per_path defaultConfig okEnv
                   [statusInterface; powerInterface] _ "/dev/hidraw1" _)).
  eexists. exists []. split; [vm_compute; reflexivity | reflexivity].
Defined.

(** C8, where the claim fails: the session of a dongle whose status
    interface is selected holds two open handles on the path of that
    interface, the one of the scheduler and the one the loop opened. *)
Lemma status_interface_opened_twice :
  exists s0,
    create defaultConfig okEnv [statusInterface; powerInterface] = Some s0
    /\ handles (host s0)
       = [(0%nat, "/dev/hidraw3"%string); (1%nat, "/dev/hidraw3"%string);
          (2%nat, "/dev/hidraw1"%string)]
    /\ bootstrapDevice (vars s0) = Some 0%nat
    /\ headsets (host s0) = [1%nat; 2%nat]
    /\ pathCount "/dev/hidraw3" (handles (host s0)) = 2%nat.
Proof. eexists. split; [vm_compute; reflexivity | ]. repeat split. Qed.

(** What the close listeners do: [close()] on every headset handle, once
    each, and nothing to the variables, the timers or the handle of the
    scheduler. *)
Lemma onClose_facts s :
  let s' := exec onClose s in
  vars s' = vars s
  /\ timers (host s') = timers (host s)
  /\ closeCalls (host s') = closeCalls (host s) ++ headsets (host s)
  /\ handles (host s')
     = fold_left (fun hs d => dropId d hs) (headsets (host s)) (handles (host s)).
Proof.
  unfold onClose.
  change (exec (fun s0 => forEach hidClose (headsets (host s0)) s0) s)
    with (exec (forEach hidClose (headsets (host s))) s).
  destruct (forEach_hidClose_facts (headsets (host s)) s)
    as (V & T & _ & _ & _ & H & C).
  auto.
Qed.

(** C9, on the code: after ['close'] on the session of a dongle with a
    status interface, [close()] has been called on the two headset handles
    and on nothing else; the handle of the scheduler is still open and the
    repeating timer is still active. *)
Theorem close_leaves_scheduler_running :
  exists s0,
    create defaultConfig okEnv [statusInterface; powerInterface] = Some s0
    /\ bootstrapDevice (vars s0) = Some 0%nat
    /\ let s1 := step defaultConfig okEnv [statusInterface; powerInterface]
                   Close s0 in
       closeCalls (host s1) = [1%nat; 2%nat]
       /\ handles (host s1) = [(0%nat, "/dev/hidraw3"%string)]
       /\ armed s1 = true
       /\ timers (host s1) = [(0%nat, 300000)].
Proof. eexists. split; [vm_compute; reflexivity | ]. repeat split. Qed.

(** ** Induction over the states of a session *)

Lemma onData_unfold cfg env devices now data s :
  let s' := exec (onData cfg env devices now data) s in
  let len := Z.of_nat (List.length data) in
  s' =
  if len =? 0x02 then
    if (nth 0 data 0 =? 0x64) && (nth 1 data 0 =? 0x03) then
      exec (powerBlock cfg Off) (exec clearTimer s)
    else if (nth 0 data 0 =? 0x64) && (nth 1 data 0 =? 0x01) then
      exec (powerBlock cfg On) (exec (bootstrap cfg env devices) s)
    else
      exec (mutedBlock cfg ((nth 0 data 0 =? 0x65) && (nth 1 data 0 =? 0x04))) s
  else if len =? 0x05 then
    if nth 1 data 0 =? 0x01 then exec (emit (EVolume Up)) s
    else if nth 1 data 0 =? 0x02 then exec (emit (EVolume Down)) s
    else s
  else if (len =? 0x0f) || (len =? 0x14) then
    exec (batteryBlock cfg now (percentageOf data))
      (if nth 3 data 0 =? 0x10
       then exec (chargingBlock cfg (magicOf data >=? 20)) s else s)
  else exec (emit (EUnknown data)) s.
Proof.
  cbv zeta. unfold onData.
  destruct (Z.of_nat (List.length data) =? 0x02).
  { destruct (_ && _); [unfold clearTimer; now rewrite !exec_bind | ].
    destruct (_ && _); [now rewrite exec_bind | reflexivity]. }
  destruct (Z.of_nat (List.length data) =? 0x05).
  { destruct (nth 1 data 0 =? 0x01); [reflexivity | ].
    destruct (nth 1 data 0 =? 0x02); reflexivity. }
  destruct (_ || _); [ | reflexivity].
  rewrite exec_bind, calculatePercentage_eval, calculatePercentage_exec.
  reflexivity.
Qed.

(** A property kept by every statement of the data listener is kept by
    the listener. *)
Lemma onData_preserves cfg env devices (P : St -> Prop) :
  (forall s, P s -> P (exec clearTimer s)) ->
  (forall s, P s -> P (exec (bootstrap cfg env devices) s)) ->
  (forall p s, P s -> P (exec (powerBlock cfg p) s)) ->
  (forall b s, P s -> P (exec (mutedBlock cfg b) s)) ->
  (forall b s, P s -> P (exec (chargingBlock cfg b) s)) ->
  (forall now cs m s, P s -> P (exec (batteryBlock cfg now (estimate cs m)) s)) ->
  (forall e s, isTracked e = false -> isSignal e = true ->
               P s -> P (exec (emit e) s)) ->
  forall now data s, P s -> P (exec (onData cfg env devices now data) s).
Proof.
  intros Hc Hb Hp Hm Hch Hba He now data s H.
  rewrite (onData_unfold cfg env devices now data s).
  repeat match goal with
         | |- context [if ?c then _ else _] => destruct c
         end; auto.
  - apply Hba, Hch, H.
  - apply Hba, H.
Qed.

(** A property of the initial state kept by every operation of a session
    holds in every state of the session. *)
Lemma session_induction cfg env devices (P : St -> Prop) :
  P initSt ->
  (forall s, P s -> P (exec (bootstrap cfg env devices) s)) ->
  (forall d s, P s -> P (exec (openInterface env d) s)) ->
  (forall now data s, P s -> P (exec (onData cfg env devices now data) s)) ->
  (forall s, P s -> P (exec onClose s)) ->
  (forall dev s, P s -> P (exec (onError dev) s)) ->
  forall s, reachable cfg env devices s -> P s.
Proof.
  intros H0 Hb Ho Hd Hc He s (s0 & acts & C & ->).
  assert (P0 : P s0).
  { unfold create in C. destruct devices as [ | d ds] eqn:D; [discriminate | ].
    rewrite <- D in *. injection C as <-. rewrite exec_bind.
    assert (L : forall l s, P s -> P (exec (forEach (openInterface env) l) s)).
    { induction l as [ | x l IH]; intros s Hs; [exact Hs | ].
      rewrite exec_forEach_cons. apply IH, Ho, Hs. }
    apply L, Hb, H0. }
  clear C. revert s0 P0.
  induction acts as [ | a acts IH]; intros s0 P0; [exact P0 | ].
  cbn. apply IH. destruct a as [t | dev now data | dev | ]; cbn [step].
  - destruct (hasId t (timers (host s0))); auto.
  - destruct (isHeadset dev s0); auto.
  - destruct (hasId dev (handles (host s0))); auto.
  - auto.
Qed.

(** ** Reports, one by one *)

Lemma batteryBlock_exec cfg now pct s :
  exec (batteryBlock cfg now pct) s = s
  \/ exists p, pct = Some p
       /\ exec (batteryBlock cfg now pct) s
          = {| vars := set_lastBatteryEmitTs now
                         (set_lastBattery (Some p) (vars s));
               host := addEvents [EBattery p] (host s) |}.
Proof.
  destruct pct as [p | ]; [ | now left].
  unfold exec. rewrite batteryBlock_run. cbn [snd].
  destruct (negb (dedupe cfg) || _ || _); [right; eauto | now left].
Qed.

Lemma clearTimer_exec s :
  exec clearTimer s =
  {| vars := set_interval None (vars s);
     host :=
       {| timers := match interval (vars s) with
                    | Some t => dropId t (timers (host s))
                    | None => timers (host s)
                    end;
          timerSeq := timerSeq (host s); handles := handles (host s);
          openSeq := openSeq (host s); headsets := headsets (host s);
          closeCalls := closeCalls (host s); writes := writes (host s);
          emitted := emitted (host s) |} |}.
Proof.
  destruct s as [[? ? ? ? ? i ?] []].
  destruct i; unfold clearTimer, clearInterval; run_m; reflexivity.
Qed.

(** X1. A report of five bytes is a volume report, and volume is never
    de-duplicated: whatever the options and the state, it emits
    [EVolume Up] when byte 1 is 1, [EVolume Down] when byte 1 is 2 and
    nothing otherwise, and changes nothing but the log of events. *)
Theorem volume_reports cfg env devices (now : Z) (data : list Z) (s : St)
  (Hlen : List.length data = 5%nat) :
  let s' := exec (onData cfg env devices now data) s in
  (nth 1 data 0 = 1 -> since s s' = [EVolume Up])
  /\ (nth 1 data 0 = 2 -> since s s' = [EVolume Down])
  /\ (nth 1 data 0 <> 1 -> nth 1 data 0 <> 2 -> s' = s)
  /\ s' = {| vars := vars s; host := addEvents (since s s') (host s) |}.
Proof.
  intros s'.
  pose proof (onData_unfold cfg env devices now data s) as U.
  cbv zeta in U. fold s' in U. rewrite Hlen in U. cbn [Z.of_nat Pos.of_succ_nat
    Pos.succ Z.eqb Pos.eqb] in U.
  destruct (Z.eqb_spec (nth 1 data 0) 1) as [E1 | N1].
  - assert (S : since s s' = [EVolume Up])
      by (rewrite U; now apply since_emitted).
    split; [now intros _ | ]. split; [intros; lia | ].
    split; [intros; lia | ].
    rewrite S, U. now destruct s.
  - destruct (Z.eqb_spec (nth 1 data 0) 2) as [E2 | N2].
    + assert (S : since s s' = [EVolume Down])
        by (rewrite U; now apply since_emitted).
      split; [intros; lia | ]. split; [now intros _ | ].
      split; [intros; lia | ].
      rewrite S, U. now destruct s.
    + split; [intros; lia | ]. split; [intros; lia | ].
      split; [now intros _ _ | ].
      rewrite U, since_refl, addEvents_nil. now destruct s.
Qed.

Lemma volume_reports_witness :
  (List.length [0; 1; 0; 0; 0] = 5)%nat
  /\ since initSt
       (exec (onData defaultConfig okEnv [statusInterface] 7 [0; 1; 0; 0; 0])
          initSt)
     = [EVolume Up].
Proof.
  split; [reflexivity | ].
  exact (proj1 (volume_reports defaultConfig okEnv [statusInterface] 7
                  [0; 1; 0; 0; 0] initSt eq_refl) eq_refl).
Defined.

(** X2. A report whose length is none of 2, 5, 15 and 20 (the empty
    report among them) is emitted as it is on the unknown channel,
    whatever the options and the state, and changes nothing but the log
    of events. *)
Theorem unknown_reports cfg env devices (now : Z) (data : list Z) (s : St)
  (H2 : List.length data <> 2%nat) (H5 : List.length data <> 5%nat)
  (H15 : List.length data <> 15%nat) (H20 : List.length data <> 20%nat) :
  exec (onData cfg env devices now data) s
  = {| vars := vars s; host := addEvents [EUnknown data] (host s) |}.
Proof.
  rewrite (onData_unfold cfg env devices now data s).
  destruct (Z.eqb_spec (Z.of_nat (List.length data)) 0x02); [lia | ].
  destruct (Z.eqb_spec (Z.of_nat (List.length data)) 0x05); [lia | ].
  destruct (Z.eqb_spec (Z.of_nat (List.length data)) 0x0f); [lia | ].
  destruct (Z.eqb_spec (Z.of_nat (List.length data)) 0x14); [lia | ].
  reflexivity.
Qed.

Lemma unknown_reports_witness :
  exec (onData defaultConfig okEnv [statusInterface] 7 []) initSt
  = {| vars := initVars; host := addEvents [EUnknown []] initHost |}.
Proof.
  apply (unknown_reports defaultConfig okEnv [statusInterface] 7 [] initSt);
    discriminate.
Defined.

Lemma Subseq_refl {A} (l : list A) : Subseq l l.
Proof. induction l; constructor; auto. Qed.

Lemma Subseq_nil_l {A} (l : list A) : Subseq [] l.
Proof. induction l; constructor; auto. Qed.

Lemma Subseq_app {A} (l1 k1 l2 k2 : list A) :
  Subseq l1 k1 -> Subseq l2 k2 -> Subseq (l1 ++ l2) (k1 ++ k2).
Proof. induction 1; intros H2; cbn; try constructor; auto. Qed.

Lemma Subseq_surfaced enabled same e : Subseq (surfaced enabled same e) [e].
Proof.
  unfold surfaced. destruct (enabled && same);
    [apply Subseq_nil_l | apply Subseq_refl].
Qed.

Lemma signals_surfaced enabled same e :
  isSignal e = true -> signals (surfaced enabled same e) = surfaced enabled same e.
Proof.
  intros H. unfold surfaced. destruct (enabled && same); [reflexivity | ].
  cbn. now rewrite H.
Qed.

(** The signals of one report. *)
Lemma onData_signals cfg env devices now data s :
  exists l,
    emitted (host (exec (onData cfg env devices now data) s))
    = emitted (host s) ++ l
    /\ Subseq (signals l) (decodeReport data)
    /\ (dedupe cfg = false -> signals l = decodeReport data).
Proof.
  rewrite (onData_unfold cfg env devices now data s). unfold decodeReport.
  destruct (Z.of_nat (List.length data) =? 0x02).
  { destruct (_ && _).
    - rewrite powerBlock_exec, clearTimer_exec. cbn [vars host].
      eexists. split; [reflexivity | ].
      rewrite signals_surfaced by reflexivity.
      split; [apply Subseq_surfaced | now intros ->].
    - destruct (_ && _).
      + destruct (bootstrap_emits cfg env devices s) as (errs & E & S).
        rewrite powerBlock_exec. cbn [vars host]. rewrite emitted_addEvents, E.
        rewrite <- app_assoc. eexists. split; [reflexivity | ].
        rewrite signals_app, S, signals_surfaced by reflexivity. cbn [app].
        split; [apply Subseq_surfaced | now intros ->].
      + rewrite mutedBlock_exec. cbn [vars host].
        eexists. split; [reflexivity | ].
        rewrite signals_surfaced by reflexivity.
        split; [apply Subseq_surfaced | now intros ->]. }
  destruct (Z.of_nat (List.length data) =? 0x05).
  { destruct (nth 1 data 0 =? 0x01);
      [ | destruct (nth 1 data 0 =? 0x02)].
    - eexists. split; [reflexivity | ]. split; [apply Subseq_refl | reflexivity].
    - eexists. split; [reflexivity | ]. split; [apply Subseq_refl | reflexivity].
    - exists []. rewrite app_nil_r. split; [reflexivity | ].
      split; [constructor | reflexivity]. }
  destruct (_ || _).
  - set (s1 := if nth 3 data 0 =? 0x10
               then exec (chargingBlock cfg (magicOf data >=? 20)) s else s).
    assert (C : exists l1,
               emitted (host s1) = emitted (host s) ++ l1
               /\ Subseq (signals l1)
                    (if nth 3 data 0 =? 0x10
                     then [ECharging (magicOf data >=? 20)] else [])
               /\ (dedupe cfg = false ->
                   signals l1
                   = if nth 3 data 0 =? 0x10
                     then [ECharging (magicOf data >=? 20)] else [])).
    { subst s1. destruct (nth 3 data 0 =? 0x10).
      - rewrite chargingBlock_exec. cbn [vars host].
        eexists. split; [reflexivity | ].
        rewrite signals_surfaced by reflexivity.
        split; [apply Subseq_surfaced | now intros ->].
      - exists []. rewrite app_nil_r. split; [reflexivity | ].
        split; [constructor | reflexivity]. }
    destruct C as (l1 & E1 & S1 & D1).
    destruct (percentageOf data) as [pct | ].
    + unfold exec. rewrite batteryBlock_run. cbn [snd].
      destruct (dedupe cfg) eqn:Dd; cbn [negb orb].
      * destruct (negb _ || _).
        -- exists (l1 ++ [EBattery pct]). cbn [vars host].
           rewrite emitted_addEvents, E1, app_assoc. split; [reflexivity | ].
           rewrite signals_app. cbn.
           split; [apply Subseq_app; [exact S1 | apply Subseq_refl]
                  | discriminate].
        -- exists l1. split; [exact E1 | ]. split; [ | discriminate].
           rewrite <- (app_nil_r (signals l1)).
           apply Subseq_app; [exact S1 | apply Subseq_nil_l].
      * exists (l1 ++ [EBattery pct]). cbn [vars host].
        rewrite emitted_addEvents, E1, app_assoc. split; [reflexivity | ].
        rewrite signals_app. cbn.
        split; [apply Subseq_app; [exact S1 | apply Subseq_refl] | ].
        intros _. now rewrite D1.
    + exists l1. rewrite app_nil_r. cbn. auto.
  - eexists. split; [reflexivity | ]. split; [apply Subseq_refl | reflexivity].
Qed.

(** X10. De-duplication only ever leaves events out.  Over any sequence
    of reports, from any state, the signals the reader emits are the
    signals the reports decode to, in the same order, with some of them
    left out; with de-duplication disabled none is left out. *)
Theorem dedupe_only_suppresses cfg env devices (reports : list (Z * list Z))
  (s : St) :
  let s' :=
    exec (forEach (fun r => onData cfg env devices (fst r) (snd r)) reports) s in
  let decoded := flat_map (fun r => decodeReport (snd r)) reports in
  Subseq (signals (since s s')) decoded
  /\ (dedupe cfg = false -> signals (since s s') = decoded).
Proof.
  cbv zeta.
  assert (G : exists l,
            emitted (host (exec (forEach (fun r => onData cfg env devices
                                                     (fst r) (snd r)) reports) s))
            = emitted (host s) ++ l
            /\ Subseq (signals l)
                 (flat_map (fun r => decodeReport (snd r)) reports)
            /\ (dedupe cfg = false ->
                signals l = flat_map (fun r => decodeReport (snd r)) reports)).
  { revert s. induction reports as [ | [t d] rs IH]; intros s.
    - exists []. rewrite app_nil_r. cbn. repeat split. constructor.
    - rewrite exec_forEach_cons. cbn [fst snd flat_map].
      destruct (onData_signals cfg env devices t d s) as (l0 & E0 & S0 & D0).
      destruct (IH (exec (onData cfg env devices t d) s)) as (l1 & E1 & S1 & D1).
      exists (l0 ++ l1). rewrite E1, E0, app_assoc. split; [reflexivity | ].
      rewrite signals_app. split; [now apply Subseq_app | ].
      intros Dd. now rewrite D0, D1. }
  destruct G as (l & E & S & D).
  rewrite (since_emitted _ _ l E). auto.
Qed.

(** ** What a report leaves alone *)

Lemma two_bytes data :
  List.length data = 2%nat -> data = [nth 0 data 0; nth 1 data 0].
Proof.
  destruct data as [ | a [ | b [ | c l]]]; try discriminate. reflexivity.
Qed.

Ltac frame_block :=
  match goal with
  | |- context [exec (powerBlock ?c ?p) ?s] => rewrite (powerBlock_exec c p s)
  | |- context [exec (mutedBlock ?c ?b) ?s] => rewrite (mutedBlock_exec c b s)
  | |- context [exec (chargingBlock ?c ?b) ?s] =>
      rewrite (chargingBlock_exec c b s)
  | |- context [exec clearTimer ?s] => rewrite (clearTimer_exec s)
  end.

(** X9. What a report never touches.  No report opens, closes or
    registers a headset handle.  Only the power-on report
    [(0x64,0x01)] can open the status handle or write to it, and only the
    two power reports can start or clear the timer.  A report of two
    bytes leaves the charging and battery state as it is, and every other
    report leaves the power and muted state as it is; reports of five
    bytes and unknown reports leave all of them. *)
Theorem report_frames cfg env devices (now : Z) (data : list Z) (s : St) :
  let s' := exec (onData cfg env devices now data) s in
  listenersOf s' = listenersOf s
  /\ (data <> [0x64; 0x01] -> devicesOf s' = devicesOf s)
  /\ (data <> [0x64; 0x01] -> data <> [0x64; 0x03] ->
      schedulerOf s' = schedulerOf s)
  /\ (List.length data <> 2%nat -> powerMutedOf s' = powerMutedOf s)
  /\ (List.length data <> 15%nat -> List.length data <> 20%nat ->
      chargeBatteryOf s' = chargeBatteryOf s).
Proof.
  intros s'.
  pose proof (onData_unfold cfg env devices now data s) as U.
  cbv zeta in U. fold s' in U.
  destruct (Z.eqb_spec (Z.of_nat (List.length data)) 0x02) as [L2 | L2].
  { assert (D : data = [nth 0 data 0; nth 1 data 0]) by (apply two_bytes; lia).
    destruct ((nth 0 data 0 =? 0x64) && (nth 1 data 0 =? 0x03)) eqn:C1.
    { apply pair_test in C1. destruct C1 as [C1 C1'].
      rewrite U. repeat frame_block.
      split; [reflexivity | ]. split; [reflexivity | ].
      split; [intros _ N; exfalso; apply N; rewrite D; congruence | ].
      split; [intros N; lia | ].
      intros _ _. now destruct s as [[] ?]. }
    destruct ((nth 0 data 0 =? 0x64) && (nth 1 data 0 =? 0x01)) eqn:C2.
    { apply pair_test in C2. destruct C2 as [C2 C2'].
      rewrite U. repeat frame_block.
      pose proof (bootstrap_headsets cfg env devices s) as [H1 H2].
      pose proof (bootstrap_dedupeVars cfg env devices s) as V.
      unfold dedupeVars in V. injection V as V1 V2 V3 V4 V5.
      split; [unfold listenersOf; cbn; now rewrite H1, H2 | ].
      split; [intros N; exfalso; apply N; rewrite D; congruence | ].
      split; [intros N; exfalso; apply N; rewrite D; congruence | ].
      split; [intros N; lia | ].
      intros _ _. unfold chargeBatteryOf. cbn. now rewrite V1, V2, V3. }
    rewrite U. repeat frame_block.
    split; [reflexivity | ]. split; [reflexivity | ].
    split; [intros _ _; now destruct s as [[] ?] | ].
    split; [intros N; lia | ].
    intros _ _. now destruct s as [[] ?]. }
  destruct (Z.eqb_spec (Z.of_nat (List.length data)) 0x05) as [L5 | L5].
  { assert (E : s' = s \/ exists e, s' = exec (emit e) s).
    { rewrite U. destruct (nth 1 data 0 =? 0x01); [right; eauto | ].
      destruct (nth 1 data 0 =? 0x02); [right; eauto | now left]. }
    destruct E as [-> | [e ->]]; repeat split. }
  destruct (Z.eqb_spec (Z.of_nat (List.length data)) 0x0f) as [L15 | L15];
    [ | destruct (Z.eqb_spec (Z.of_nat (List.length data)) 0x14) as [L20 | L20]].
  3: { cbn [orb] in U. rewrite U. repeat split. }
  all: cbn [orb] in U;
    set (s1 := if nth 3 data 0 =? 0x10
               then exec (chargingBlock cfg (magicOf data >=? 20)) s else s)
      in U;
    assert (F1 : listenersOf s1 = listenersOf s /\ devicesOf s1 = devicesOf s
                 /\ schedulerOf s1 = schedulerOf s
                 /\ powerMutedOf s1 = powerMutedOf s)
      by (subst s1; destruct (nth 3 data 0 =? 0x10);
          [frame_block; destruct s as [[] ?]; repeat split | repeat split]);
    destruct F1 as (F1 & F2 & F3 & F4);
    assert (G : listenersOf s' = listenersOf s1 /\ devicesOf s' = devicesOf s1
                /\ schedulerOf s' = schedulerOf s1
                /\ powerMutedOf s' = powerMutedOf s1)
      by (rewrite U;
          destruct (batteryBlock_exec cfg now (percentageOf data) s1)
            as [-> | (p & _ & ->)];
          [repeat split | destruct s1 as [[] ?]; repeat split]);
    destruct G as (G1 & G2 & G3 & G4);
    (split; [congruence | ]); (split; [intros _; congruence | ]);
    (split; [intros _ _; congruence | ]); (split; [intros _; congruence | ]);
    intros; lia.
Qed.

(** ** The battery percentages of a session *)

Lemma estimate_range cs m pct : estimate cs m = Some pct -> percentOk pct.
Proof.
  unfold estimate, percentOk. destruct (Z.eqb_spec cs 0x10) as [-> | N].
  - rewrite bandLookup_other by discriminate. unfold ifReturn, orElse.
    cbn. destruct (m <=? 11); intros H; inversion H.
    split; [lia | reflexivity].
  - cbn [orElse]. intros H.
    destruct (Z.eq_dec cs 0x0f) as [-> | N1].
    + rewrite bandLookup_0f in H. apply bands0f_cases in H.
      repeat (destruct H as [H | H]; [destruct H as [_ ->]; now split | ]).
      destruct H as [_ ->]. now split.
    + destruct (Z.eq_dec cs 0x0e) as [-> | N2].
      * rewrite bandLookup_0e in H. apply bands0e_cases in H.
        repeat (destruct H as [H | H]; [destruct H as [_ ->]; now split | ]).
        destruct H as [_ ->]. now split.
      * rewrite bandLookup_other in H by assumption. discriminate.
Qed.

Lemma errors_batteryOk l : signals l = [] -> Forall batteryOk l.
Proof.
  induction l as [ | e l IH]; intros H; constructor.
  - destruct e; try discriminate; exact I.
  - apply IH. destruct e; try discriminate; exact H.
Qed.

Lemma batteryInv_frame s s' l :
  lastBattery (vars s') = lastBattery (vars s) ->
  emitted (host s') = emitted (host s) ++ l ->
  Forall batteryOk l ->
  batteryInv s -> batteryInv s'.
Proof.
  intros V E F [H1 H2]. split.
  - rewrite E. apply Forall_app. auto.
  - now rewrite V.
Qed.

Lemma batteryOk_surfaced enabled same e :
  batteryOk e -> Forall batteryOk (surfaced enabled same e).
Proof. intros H. unfold surfaced. destruct (enabled && same); auto. Qed.

Lemma batteryInv_onData cfg env devices now data s :
  batteryInv s -> batteryInv (exec (onData cfg env devices now data) s).
Proof.
  apply (onData_preserves cfg env devices batteryInv); clear s.
  - intros s. rewrite clearTimer_exec.
    apply (batteryInv_frame s _ []); auto. cbn. now rewrite app_nil_r.
  - intros s. destruct (bootstrap_emits cfg env devices s) as (errs & E & S).
    apply (batteryInv_frame s _ errs); auto using errors_batteryOk.
    pose proof (bootstrap_dedupeVars cfg env devices s) as V.
    unfold dedupeVars in V. now injection V.
  - intros p s. rewrite powerBlock_exec.
    eapply batteryInv_frame; [ | reflexivity | ]; [reflexivity | ].
    now apply batteryOk_surfaced.
  - intros b s. rewrite mutedBlock_exec.
    eapply batteryInv_frame; [ | reflexivity | ]; [reflexivity | ].
    now apply batteryOk_surfaced.
  - intros b s. rewrite chargingBlock_exec.
    eapply batteryInv_frame; [ | reflexivity | ]; [reflexivity | ].
    now apply batteryOk_surfaced.
  - intros t cs m s [H1 H2].
    destruct (batteryBlock_exec cfg t (estimate cs m) s) as [-> | (p & E & ->)];
      [now split | ].
    apply estimate_range in E. split; cbn.
    + apply Forall_app. split; [exact H1 | now constructor].
    + now intros pct [= <-].
  - intros e s T _. apply (batteryInv_frame s _ [e]); auto.
    constructor; [ | constructor]. destruct e; try exact I. discriminate.
Qed.

(** X3. Every battery event of a session carries one of the percentages
    10, 15, ..., 100 of the band tables, and so does the battery value
    the reader stores: never a value outside 0..100, and never [null] on
    the battery channel. *)
Theorem battery_events_in_range cfg env devices (s : St)
  (Hr : reachable cfg env devices s) :
  (forall pct, In (EBattery pct) (emitted (host s)) ->
     10 <= pct <= 100 /\ pct mod 5 = 0)
  /\ (forall pct, lastBattery (vars s) = Some pct ->
        10 <= pct <= 100 /\ pct mod 5 = 0).
Proof.
  assert (B : batteryInv s).
  { revert s Hr. apply session_induction.
    - split; [constructor | discriminate].
    - intros s. destruct (bootstrap_emits cfg env devices s) as (errs & E & S).
      apply (batteryInv_frame s _ errs); auto using errors_batteryOk.
      pose proof (bootstrap_dedupeVars cfg env devices s) as V.
      unfold dedupeVars in V. now injection V.
    - intros d s.
      destruct (openInterface_facts env d s) as (V & _ & (errs & E & S) & _).
      apply (batteryInv_frame s _ errs); auto using errors_batteryOk.
      now rewrite V.
    - intros now data s. apply batteryInv_onData.
    - intros s. destruct (onClose_facts s) as (V & _).
      unfold onClose.
      change (exec (fun s0 => forEach hidClose (headsets (host s0)) s0) s)
        with (exec (forEach hidClose (headsets (host s))) s).
      destruct (forEach_hidClose_facts (headsets (host s)) s)
        as (V' & _ & E & _).
      apply (batteryInv_frame s _ []); auto.
      + now rewrite V'.
      + now rewrite E, app_nil_r.
    - intros dev s. apply (batteryInv_frame s _ [EError (IoFailure dev)]); auto.
      repeat constructor. }
  destruct B as [B1 B2]. split; [ | exact B2].
  intros pct I. rewrite Forall_forall in B1. exact (B1 _ I).
Qed.

Lemma battery_events_in_range_witness :
  exists s0,
    create defaultConfig okEnv [statusInterface; powerInterface] = Some s0
    /\ forall pct,
         In (EBattery pct)
           (emitted (host (run defaultConfig okEnv
                             [statusInterface; powerInterface]
                             [Data 1%nat 1000
                                [0; 0; 0; 0x0f; 60; 0; 0; 0; 0; 0; 0; 0; 0; 0; 0]]
                             s0))) ->
         10 <= pct <= 100 /\ pct mod 5 = 0.
Proof.
  eexists. split; [vm_compute; reflexivity | ].
  refine (proj1 (battery_events_in_range defaultConfig okEnv
                   [statusInterface; powerInterface] _ _)).
  eexists. eexists. split; [vm_compute; reflexivity | reflexivity].
Defined.

(** ** The handles of a session *)

Lemma handlesInv_frame devices s s' :
  devicesOf s' = devicesOf s -> listenersOf s' = listenersOf s ->
  handlesInv devices s -> handlesInv devices s'.
Proof.
  unfold devicesOf, listenersOf, handlesInv.
  intros [= -> -> -> ->] [= -> ->]. auto.
Qed.

Lemma In_dropId {A} (h d : nat) (x : A) l :
  In (h, x) l -> h <> d -> In (h, x) (dropId d l).
Proof.
  intros I N. unfold dropId. apply filter_In. split; [exact I | ].
  cbn. apply negb_true_iff, Nat.eqb_neq. exact N.
Qed.

Lemma In_fold_dropId {A} (h : nat) (x : A) ds : forall l,
  In (h, x) l -> ~ In h ds ->
  In (h, x) (fold_left (fun hs d => dropId d hs) ds l).
Proof.
  induction ds as [ | d ds IH]; intros l I N; [exact I | ].
  cbn. apply IH.
  - apply In_dropId; [exact I | ]. intros ->. apply N. now left.
  - intros C. apply N. now right.
Qed.

Lemma length_wakeup : List.length wakeup = 20%nat.
Proof. reflexivity. Qed.

Lemma handlesInv_bootstrap cfg env devices s :
  handlesInv devices s -> handlesInv devices (exec (bootstrap cfg env devices) s).
Proof.
  unfold handlesInv.
  pose proof (bootstrap_resolves cfg env devices s) as R.
  pose proof (bootstrap_handles cfg env devices s) as H.
  pose proof (bootstrap_writes cfg env devices s) as W.
  pose proof (bootstrap_headsets cfg env devices s) as [L1 L2].
  assert (O : openSeq (host (exec (bootstrap cfg env devices) s))
              = match bootstrapDevice (vars s), findStatus devices with
                | None, Some _ => S (openSeq (host s))
                | _, _ => openSeq (host s)
                end) by (boot s; reflexivity).
  cbv zeta in R, H, W.
  set (s' := exec (bootstrap cfg env devices) s) in *.
  intros (I1 & I2 & I3 & I4). rewrite L1, L2, O.
  destruct (bootstrapDevice (vars s)) as [dev | ] eqn:B.
  - rewrite R in *. rewrite W, H.
    split; [exact I1 | ]. split; [exact I2 | ]. split; [exact I3 | ].
    apply Forall_app. split; [exact I4 | ]. repeat constructor.
  - destruct (findStatus devices) as [info | ] eqn:F.
    + destruct (openOk env (openSeq (host s)) (path info)).
      * rewrite R in *. rewrite W, H, I3.
        split; [intros h Hh; apply I1 in Hh; lia | ].
        split; [exact I2 | ].
        split.
        { split; [lia | ]. split.
          - intros C. apply I1 in C. lia.
          - exists info. split; [reflexivity | ].
            apply in_or_app. right. now left. }
        repeat constructor.
      * rewrite R in *. rewrite W.
        split; [intros h Hh; apply I1 in Hh; lia | ].
        split; [exact I2 | ]. split; [exact I3 | ].
        rewrite I3. constructor.
    + rewrite R in *. rewrite W. auto.
Qed.

Lemma handlesInv_openInterface env devices d s :
  handlesInv devices s -> handlesInv devices (exec (openInterface env d) s).
Proof.
  unfold handlesInv. destruct s as [v []].
  unfold openInterface, hidOpen, listen. run_m.
  intros (I1 & I2 & I3 & I4).
  destruct (openOk env _ (path d)); cbn.
  - split.
    { intros h Hh. apply in_app_or in Hh. destruct Hh as [Hh | [<- | []]];
        [apply I1 in Hh | ]; lia. }
    split; [intros h Hh; apply in_or_app; left; now apply I2 | ].
    split; [ | exact I4].
    destruct (bootstrapDevice v) as [dev | ]; [ | exact I3].
    destruct I3 as (L & N & info & F & I).
    split; [lia | ]. split.
    + intros C. apply in_app_or in C. destruct C as [C | [C | []]];
        [now apply N | lia].
    + exists info. split; [exact F | ]. apply in_or_app. now left.
  - split; [intros h Hh; apply I1 in Hh; lia | ].
    split; [exact I2 | ]. split; [ | exact I4].
    destruct (bootstrapDevice v) as [dev | ]; [ | exact I3].
    destruct I3 as (L & N & I). split; [lia | ]. auto.
Qed.

Lemma forEach_hidClose_openSeq l : forall s,
  openSeq (host (exec (forEach hidClose l) s)) = openSeq (host s).
Proof.
  induction l as [ | d l IH]; intros s; [reflexivity | ].
  rewrite exec_forEach_cons, IH. reflexivity.
Qed.

Lemma handlesInv_onClose devices s :
  handlesInv devices s -> handlesInv devices (exec onClose s).
Proof.
  unfold handlesInv, onClose.
  change (exec (fun s0 => forEach hidClose (headsets (host s0)) s0) s)
    with (exec (forEach hidClose (headsets (host s))) s).
  destruct (forEach_hidClose_facts (headsets (host s)) s)
    as (V & _ & _ & Hs & W & H & C).
  pose proof (forEach_hidClose_openSeq (headsets (host s)) s) as O.
  intros (I1 & I2 & I3 & I4). rewrite V, Hs, W, H, C, O.
  split; [exact I1 | ].
  split; [intros h Hh; apply in_app_or in Hh; destruct Hh; auto | ].
  split; [ | exact I4].
  destruct (bootstrapDevice (vars s)) as [dev | ]; [ | exact I3].
  destruct I3 as (L & N & info & F & I).
  split; [exact L | ]. split; [exact N | ].
  exists info. split; [exact F | ]. now apply In_fold_dropId.
Qed.

Lemma handlesInv_onData cfg env devices now data s :
  handlesInv devices s ->
  handlesInv devices (exec (onData cfg env devices now data) s).
Proof.
  apply (onData_preserves cfg env devices (handlesInv devices)); clear s.
  - intros s. apply handlesInv_frame; rewrite clearTimer_exec; reflexivity.
  - intros s. apply handlesInv_bootstrap.
  - intros p s. apply handlesInv_frame; rewrite powerBlock_exec; reflexivity.
  - intros b s. apply handlesInv_frame; rewrite mutedBlock_exec; reflexivity.
  - intros b s. apply handlesInv_frame; rewrite chargingBlock_exec; reflexivity.
  - intros t cs m s.
    destruct (batteryBlock_exec cfg t (estimate cs m) s) as [-> | (p & _ & ->)];
      [auto | apply handlesInv_frame; reflexivity].
  - intros e s _ _. apply handlesInv_frame; reflexivity.
Qed.

Lemma reachable_handlesInv cfg env devices s :
  reachable cfg env devices s -> handlesInv devices s.
Proof.
  revert s. apply session_induction.
  - repeat split; try constructor; cbn; intros; contradiction.
  - intros s. apply handlesInv_bootstrap.
  - intros d s. apply handlesInv_openInterface.
  - intros now data s. apply handlesInv_onData.
  - intros s. apply handlesInv_onClose.
  - intros dev s. apply handlesInv_frame; reflexivity.
Qed.

Lemma run_app cfg env devices a b s :
  run cfg env devices (a ++ b) s
  = run cfg env devices b (run cfg env devices a s).
Proof. unfold run. apply fold_left_app. Qed.

Lemma reachable_run cfg env devices acts s :
  reachable cfg env devices s ->
  reachable cfg env devices (run cfg env devices acts s).
Proof.
  intros (s0 & a0 & C & ->). exists s0, (a0 ++ acts).
  split; [exact C | ]. now rewrite run_app.
Qed.

(** The scheduler keeps the handle it has. *)
Lemma bootstrapDevice_kept cfg env devices dev acts : forall s,
  bootstrapDevice (vars s) = Some dev ->
  bootstrapDevice (vars (run cfg env devices acts s)) = Some dev.
Proof.
  assert (B : forall s, bootstrapDevice (vars s) = Some dev ->
              bootstrapDevice (vars (exec (bootstrap cfg env devices) s))
              = Some dev).
  { intros s H. pose proof (bootstrap_resolves cfg env devices s) as R.
    cbv zeta in R. now rewrite R, H. }
  assert (F : forall s s', devicesOf s' = devicesOf s ->
              bootstrapDevice (vars s) = Some dev ->
              bootstrapDevice (vars s') = Some dev).
  { unfold devicesOf. intros s s' [= -> _ _ _]. auto. }
  induction acts as [ | a acts IH]; intros s H; [exact H | ].
  cbn. apply IH. destruct a as [t | d now data | d | ]; cbn [step].
  - destruct (hasId t (timers (host s))); auto.
  - destruct (isHeadset d s); [ | exact H]. revert H.
    apply (onData_preserves cfg env devices
             (fun s => bootstrapDevice (vars s) = Some dev)); auto.
    + intros s0. apply F. rewrite clearTimer_exec. reflexivity.
    + intros p s0. apply F. rewrite powerBlock_exec. reflexivity.
    + intros b s0. apply F. rewrite mutedBlock_exec. reflexivity.
    + intros b s0. apply F. rewrite chargingBlock_exec. reflexivity.
    + intros t cs m s0.
      destruct (batteryBlock_exec cfg t (estimate cs m) s0)
        as [-> | (p & _ & ->)]; [auto | apply F; reflexivity].
  - destruct (hasId d (handles (host s))); [ | exact H]. exact H.
  - destruct (onClose_facts s) as (V & _). now rewrite V.
Qed.

(** X6. Once the scheduler holds a status handle it holds the same
    handle for the rest of the session: whatever happens afterwards
    (reports, timer ticks, errors, ['close']), the handle is not replaced,
    is still open on the path of the status interface, is none of the
    headset handles, and [close()] is never called on it. *)
Theorem status_handle_kept cfg env devices (s : St) (dev : nat)
  (acts : list Action)
  (Hr : reachable cfg env devices s)
  (Hb : bootstrapDevice (vars s) = Some dev) :
  let s' := run cfg env devices acts s in
  bootstrapDevice (vars s') = Some dev
  /\ (exists info, findStatus devices = Some info
                   /\ In (dev, path info) (handles (host s')))
  /\ ~ In dev (headsets (host s'))
  /\ ~ In dev (closeCalls (host s')).
Proof.
  intros s'.
  assert (B : bootstrapDevice (vars s') = Some dev)
    by now apply bootstrapDevice_kept.
  pose proof (reachable_handlesInv cfg env devices s'
                (reachable_run cfg env devices acts s Hr))
    as (_ & I2 & I3 & _).
  rewrite B in I3. destruct I3 as (_ & N & I).
  split; [exact B | ]. split; [exact I | ]. split; [exact N | ].
  intros C. apply N. now apply I2.
Qed.

Lemma status_handle_kept_witness :
  exists s0,
    create defaultConfig okEnv [statusInterface; powerInterface] = Some s0
    /\ bootstrapDevice (vars s0) = Some 0%nat
    /\ bootstrapDevice
         (vars (run defaultConfig okEnv [statusInterface; powerInterface]
                  [Data 2%nat 1000 [0x64; 0x03]; Close; Tick 0%nat] s0))
       = Some 0%nat.
Proof.
  eexists. split; [vm_compute; reflexivity | ].
  split; [reflexivity | ].
  match goal with
  | |- bootstrapDevice (vars (run _ _ _ ?acts ?s)) = _ =>
      refine (proj1 (status_handle_kept defaultConfig okEnv
                       [statusInterface; powerInterface] s 0%nat acts _
                       eq_refl))
  end.
  eexists. exists []. split; [vm_compute; reflexivity | reflexivity].
Defined.

(** X7. The only thing a session ever writes to a device is the wake-up
    report of 20 bytes, and it writes it to the status handle of the
    scheduler only, never to a headset handle. *)
Theorem writes_are_wakeups cfg env devices (s : St)
  (Hr : reachable cfg env devices s) :
  forall dev buffer, In (dev, buffer) (writes (host s)) ->
    buffer = wakeup /\ List.length buffer = 20%nat
    /\ bootstrapDevice (vars s) = Some dev
    /\ ~ In dev (headsets (host s)).
Proof.
  intros dev buffer I.
  pose proof (reachable_handlesInv cfg env devices s Hr) as (_ & _ & I3 & I4).
  rewrite Forall_forall in I4. destruct (I4 _ I) as [E B]. cbn in E, B.
  rewrite B in I3. destruct I3 as (_ & N & _).
  subst buffer. repeat split; auto.
Qed.

Lemma writes_are_wakeups_witness :
  exists s0,
    create defaultConfig okEnv [statusInterface; powerInterface] = Some s0
    /\ In (0%nat, wakeup) (writes (host s0))
    /\ ~ In 0%nat (headsets (host s0)).
Proof.
  eexists. split; [vm_compute; reflexivity | ].
  split; [now left | ].
  refine (proj2 (proj2 (proj2
           (writes_are_wakeups defaultConfig okEnv
              [statusInterface; powerInterface] _ _ 0%nat wakeup _)))).
  - eexists. exists []. split; [vm_compute; reflexivity | reflexivity].
  - now left.
Defined.

(** ** The scheduler *)

(** X8. A session never has more than one repeating timer: the timers
    of the runtime are exactly the one [interval] holds, started with the
    delay [updateDelay], so that the scheduler is either armed or
    disarmed and repeated power-on reports or timer ticks never stack
    timers. *)
Theorem single_timer cfg env devices (s : St)
  (Hr : reachable cfg env devices s) :
  (List.length (timers (host s)) <= 1)%nat
  /\ (forall t d, In (t, d) (timers (host s)) ->
        interval (vars s) = Some t /\ d = updateDelay cfg)
  /\ (interval (vars s) = None <-> timers (host s) = [])
  /\ (armed s = true \/ disarmed s = true).
Proof.
  destruct (reachable_Inv cfg env devices s Hr) as (S & _).
  unfold schedOk in S. unfold armed, disarmed. rewrite S.
  destruct (interval (vars s)) as [t | ]; cbn.
  - split; [lia | ]. split.
    + intros t' d [[= <- <-] | []]. auto.
    + split; [split; discriminate | ]. left. now rewrite Nat.eqb_refl.
  - split; [lia | ]. split; [intros t d [] | ]. split; [tauto | now right].
Qed.

Lemma single_timer_witness :
  exists s0,
    create defaultConfig okEnv [statusInterface; powerInterface] = Some s0
    /\ le (List.length
              (timers (host (run defaultConfig okEnv
                               [statusInterface; powerInterface]
                               [Data 2%nat 5 [0x64; 0x01];
                                Data 2%nat 6 [0x64; 0x01]; Tick 0%nat] s0))))
         1%nat.
Proof.
  eexists. split; [vm_compute; reflexivity | ].
  refine (proj1 (single_timer defaultConfig okEnv
                   [statusInterface; powerInterface] _ _)).
  eexists. eexists. split; [vm_compute; reflexivity | reflexivity].
Defined.

(** X11. The keep-alive in its steady state.  When the timer of an armed
    scheduler that holds the status handle fires, [bootstrap] writes the
    wake-up report to that handle once and does nothing else; if the
    write throws, the error is emitted, and the timer stays armed and the
    handle stays held, so that the next tick writes again. *)
Theorem keepalive_tick cfg env devices (s : St) (t dev : nat)
  (Hr : reachable cfg env devices s)
  (Hi : interval (vars s) = Some t)
  (Hb : bootstrapDevice (vars s) = Some dev) :
  let s' := step cfg env devices (Tick t) s in
  vars s' = vars s
  /\ writes (host s') = writes (host s) ++ [(dev, wakeup)]
  /\ since s s'
     = (if writeOk env (List.length (writes (host s))) then []
        else [EError (WriteFailed dev)])
  /\ timers (host s') = timers (host s)
  /\ handles (host s') = handles (host s)
  /\ openSeq (host s') = openSeq (host s)
  /\ listenersOf s' = listenersOf s
  /\ armed s' = true.
Proof.
  destruct (reachable_Inv cfg env devices s Hr) as (S & _).
  unfold schedOk in S. rewrite Hi in S. cbn [step]. rewrite S.
  cbn [hasId existsb fst]. rewrite Nat.eqb_refl. cbn [orb].
  unfold armed, listenersOf.
  destruct s as [[? ? ? ? ? i b] []]. cbn in S, Hi, Hb. subst.
  unfold bootstrap, resolveStatus, setInterval, hidOpen, hidWrite. run_m.
  destruct (writeOk env _); cbn; rewrite ?Nat.eqb_refl;
    repeat split; try apply skipn_length_app.
  unfold since. cbn. apply skipn_all.
Qed.

Lemma keepalive_tick_witness :
  exists s0,
    create defaultConfig okEnv [statusInterface; powerInterface] = Some s0
    /\ writes (host (step defaultConfig okEnv [statusInterface; powerInterface]
                       (Tick 0%nat) s0))
       = writes (host s0) ++ [(0%nat, wakeup)].
Proof.
  eexists. split; [vm_compute; reflexivity | ].
  match goal with
  | |- writes (host (step _ _ _ _ ?s)) = _ =>
      refine (proj1 (proj2 (keepalive_tick defaultConfig okEnv
                              [statusInterface; powerInterface] s 0%nat 0%nat
                              _ eq_refl eq_refl)))
  end.
  eexists. exists []. split; [vm_compute; reflexivity | reflexivity].
Defined.

(** X13. A failed open of the status interface is recoverable.  When the
    status interface exists but [new HID.HID] throws, [bootstrap] emits
    that error, writes nothing, holds no handle and leaves the timer
    armed; the next [bootstrap] opens the interface again, and if that
    succeeds it holds the new handle and writes the wake-up report to
    it. *)
Theorem status_open_retry cfg env devices (s : St) (info : Descriptor)
  (Hf : findStatus devices = Some info)
  (Hb : bootstrapDevice (vars s) = None)
  (Ho : openOk env (openSeq (host s)) (path info) = false) :
  let s' := exec (bootstrap cfg env devices) s in
  let s'' := exec (bootstrap cfg env devices) s' in
  since s s' = [EError (OpenFailed (path info))]
  /\ bootstrapDevice (vars s') = None
  /\ writes (host s') = writes (host s)
  /\ handles (host s') = handles (host s)
  /\ openSeq (host s') = S (openSeq (host s))
  /\ interval (vars s') <> None
  /\ (openOk env (S (openSeq (host s))) (path info) = true ->
      bootstrapDevice (vars s'') = Some (S (openSeq (host s)))
      /\ handles (host s'')
         = handles (host s) ++ [(S (openSeq (host s)), path info)]
      /\ writes (host s'')
         = writes (host s) ++ [(S (openSeq (host s)), wakeup)]).
Proof.
  intros s' s''.
  assert (A : since s s' = [EError (OpenFailed (path info))]
              /\ bootstrapDevice (vars s') = None
              /\ writes (host s') = writes (host s)
              /\ handles (host s') = handles (host s)
              /\ openSeq (host s') = S (openSeq (host s))
              /\ interval (vars s') <> None).
  { subst s' s''. destruct s as [[? ? ? ? ? i b] []]. cbn in Hb, Ho. subst b.
    unfold bootstrap, resolveStatus, setInterval, hidOpen, hidWrite.
    rewrite Hf. run_m.
    destruct i; cbn; rewrite Ho; cbn;
      (split; [apply skipn_length_app | repeat split; discriminate]). }
  destruct A as (A1 & A2 & A3 & A4 & A5 & A6).
  repeat (split; [assumption | ]).
  intros Ho'.
  pose proof (bootstrap_resolves cfg env devices s') as R.
  pose proof (bootstrap_handles cfg env devices s') as H.
  pose proof (bootstrap_writes cfg env devices s') as W.
  cbv zeta in R, H, W. fold s'' in R, H, W.
  rewrite A2, Hf, A5, Ho' in R, H. rewrite R in W.
  rewrite R, H, W, A3, A4. auto.
Qed.

Lemma status_open_retry_witness :
  findStatus [statusInterface] = Some statusInterface
  /\ openOk flakyEnv (openSeq (host initSt)) (path statusInterface) = false
  /\ since initSt (exec (bootstrap defaultConfig flakyEnv [statusInterface])
                     initSt)
     = [EError (OpenFailed (path statusInterface))].
Proof.
  split; [reflexivity | ]. split; [reflexivity | ].
  exact (proj1 (status_open_retry defaultConfig flakyEnv [statusInterface]
                  initSt statusInterface eq_refl eq_refl eq_refl)).
Defined.

(** ** Closing *)

Lemma hasId_dropId {A} (h d : nat) (l : list (nat * A)) :
  hasId h (dropId d l) = hasId h l && negb (Nat.eqb h d).
Proof.
  unfold hasId, dropId. induction l as [ | [n x] l IH]; [reflexivity | ].
  cbn. destruct (Nat.eqb_spec n d) as [-> | N]; cbn.
  - rewrite IH. destruct (Nat.eqb_spec d h) as [-> | N'].
    + rewrite Nat.eqb_refl. cbn. now rewrite andb_false_r.
    + reflexivity.
  - rewrite IH. destruct (Nat.eqb_spec n h) as [-> | N'].
    + apply Nat.eqb_neq in N. now rewrite N.
    + reflexivity.
Qed.

Lemma hasId_fold_dropId {A} (h : nat) ds : forall (l : list (nat * A)),
  hasId h (fold_left (fun hs d => dropId d hs) ds l)
  = hasId h l && negb (existsb (Nat.eqb h) ds).
Proof.
  induction ds as [ | d ds IH]; intros l; cbn [fold_left existsb negb];
    [now rewrite andb_true_r | ].
  rewrite IH, hasId_dropId, negb_orb. now rewrite andb_assoc.
Qed.

Lemma fold_dropId_absent {A} ds : forall (l : list (nat * A)),
  (forall h, In h ds -> hasId h l = false) ->
  fold_left (fun hs d => dropId d hs) ds l = l.
Proof.
  induction ds as [ | d ds IH]; intros l N; [reflexivity | ].
  cbn [fold_left]. assert (D : dropId d l = l).
  { unfold dropId. apply forallb_filter_id. apply forallb_forall.
    intros [n x] I. cbn. apply negb_true_iff, Nat.eqb_neq. intros ->.
    assert (Hd : hasId d l = true).
    { unfold hasId. apply existsb_exists. exists (d, x).
      split; [exact I | apply Nat.eqb_refl]. }
    rewrite N in Hd; [discriminate | now left]. }
  rewrite D. apply IH. intros h I. apply N. now right.
Qed.

(** X12. The ['close'] listeners call [close()] once on every handle the
    loop opened, in the order of opening; afterwards none of these
    handles is open, every other open handle is still open, and the
    variables, the timers, the writes and the log of events are as they
    were.  A second ['close'] calls [close()] on each of them again and
    changes no handle. *)
Theorem close_closes_headsets (s : St) :
  let s' := exec onClose s in
  let s'' := exec onClose s' in
  closeCalls (host s') = closeCalls (host s) ++ headsets (host s)
  /\ (forall h, In h (headsets (host s)) -> hasId h (handles (host s')) = false)
  /\ (forall h p, In (h, p) (handles (host s)) -> ~ In h (headsets (host s)) ->
        In (h, p) (handles (host s')))
  /\ vars s' = vars s
  /\ timers (host s') = timers (host s)
  /\ writes (host s') = writes (host s)
  /\ emitted (host s') = emitted (host s)
  /\ headsets (host s') = headsets (host s)
  /\ handles (host s'') = handles (host s')
  /\ closeCalls (host s'')
     = closeCalls (host s) ++ headsets (host s) ++ headsets (host s).
Proof.
  intros s' s''.
  assert (F : forall x,
            let y := exec onClose x in
            vars y = vars x /\ timers (host y) = timers (host x)
            /\ emitted (host y) = emitted (host x)
            /\ headsets (host y) = headsets (host x)
            /\ writes (host y) = writes (host x)
            /\ handles (host y)
               = fold_left (fun hs d => dropId d hs) (headsets (host x))
                   (handles (host x))
            /\ closeCalls (host y) = closeCalls (host x) ++ headsets (host x)).
  { intros x. unfold onClose.
    change (exec (fun s0 => forEach hidClose (headsets (host s0)) s0) x)
      with (exec (forEach hidClose (headsets (host x))) x).
    apply forEach_hidClose_facts. }
  destruct (F s) as (V & T & E & Hs & W & H & C). fold s' in V, T, E, Hs, W, H, C.
  destruct (F s') as (_ & _ & _ & _ & _ & H' & C'). fold s'' in H', C'.
  split; [exact C | ].
  split.
  { intros h I. rewrite H, hasId_fold_dropId.
    assert (X : existsb (Nat.eqb h) (headsets (host s)) = true)
      by (apply existsb_exists; exists h; split; [exact I | apply Nat.eqb_refl]).
    rewrite X. apply andb_false_r. }
  split; [intros h p I N; rewrite H; now apply In_fold_dropId | ].
  repeat (split; [assumption | ]).
  split.
  - rewrite H', Hs.
    apply fold_dropId_absent. intros h I. rewrite H, hasId_fold_dropId.
    assert (X : existsb (Nat.eqb h) (headsets (host s)) = true)
      by (apply existsb_exists; exists h; split; [exact I | apply Nat.eqb_refl]).
    rewrite X. apply andb_false_r.
  - rewrite C', C, Hs. now rewrite app_assoc.
Qed.

(** ** The enumeration and the loop that opens the interfaces *)

Lemma prefix_app needle : forall s,
  String.prefix needle s = true <-> exists post, s = (needle ++ post)%string.
Proof.
  induction needle as [ | a needle IH]; intros s.
  - split; [intros _; exists s; reflexivity | intros _; now destruct s].
  - destruct s as [ | b s]; cbn.
    + split; [discriminate | intros [post H]; discriminate].
    + destruct (ascii_dec a b) as [-> | N].
      * rewrite IH. split; intros [post H]; exists post.
        -- now rewrite H.
        -- now injection H.
      * split; [discriminate | ]. intros [post H]. injection H as H1 H2.
        now destruct N.
Qed.

Lemma includes_spec needle : forall s,
  includes s needle = true <->
  exists pre post, s = (pre ++ needle ++ post)%string.
Proof.
  induction s as [ | c s IH].
  - cbn [includes]. rewrite orb_false_r, prefix_app. split.
    + intros [post H]. exists EmptyString, post. exact H.
    + intros (pre & post & H). destruct pre as [ | a pre]; [ | discriminate].
      exists post. exact H.
  - cbn [includes]. rewrite orb_true_iff, prefix_app, IH. split.
    + intros [[post H] | (pre & post & H)].
      * exists EmptyString, post. exact H.
      * exists (String c pre), post. cbn. now rewrite H.
    + intros (pre & post & H). destruct pre as [ | a pre].
      * left. exists post. exact H.
      * right. injection H as _ H. exists pre, post. exact H.
Qed.

Lemma has_supported p :
  has SUPPORTED_PRODUCT_IDS p = true <-> p = 5828 \/ p = 5923.
Proof.
  unfold has, SUPPORTED_PRODUCT_IDS. cbn. rewrite !orb_true_iff, !Z.eqb_eq.
  intuition discriminate.
Qed.

(** X4. The enumeration selects interfaces of the vendor 2385 only.  If
    some of them have a known product id (5828 or 5923), it selects
    exactly those, whatever their names; otherwise it selects exactly
    those whose product name holds "cloud flight wireless", in any case
    of its letters (an interface without a product name is not
    selected).  The reader is created iff an interface is selected:
    [module.exports] throws exactly when the selection is empty. *)
Theorem device_selection cfg env (hidDevices : list Descriptor) :
  (forall d, In d (selectDevices hidDevices) ->
     In d hidDevices /\ vendorId d = 2385)
  /\ ((exists d, In d hidDevices /\ knownProduct d) ->
      forall d, In d (selectDevices hidDevices) <->
                In d hidDevices /\ knownProduct d)
  /\ (~ (exists d, In d hidDevices /\ knownProduct d) ->
      forall d, In d (selectDevices hidDevices) <->
                In d hidDevices /\ vendorId d = 2385 /\ nameMatches d)
  /\ (module_exports cfg env hidDevices = None <->
      selectDevices hidDevices = []).
Proof.
  assert (M : module_exports cfg env hidDevices = None <->
              selectDevices hidDevices = []).
  { unfold module_exports, create.
    destruct (selectDevices hidDevices); split; intros H;
      try reflexivity; discriminate. }
  revert M. generalize (module_exports cfg env hidDevices). intros mo M.
  unfold selectDevices, knownProduct, nameMatches, VENDOR_ID in *.
  set (all := filter (fun d => vendorId d =? 2385) hidDevices) in *.
  set (known := filter (fun d => has SUPPORTED_PRODUCT_IDS (productId d)) all)
    in *.
  assert (A : forall d, In d all <-> In d hidDevices /\ vendorId d = 2385).
  { intros d. unfold all. now rewrite filter_In, Z.eqb_eq. }
  assert (K : forall d, In d known <->
                        In d hidDevices
                        /\ vendorId d = 2385
                           /\ (productId d = 5828 \/ productId d = 5923)).
  { intros d. unfold known. rewrite filter_In, A, has_supported. tauto. }
  assert (N : forall d,
            In d (filter
                    (fun d0 =>
                       includes
                         (toLowerCase
                            match product d0 with
                            | Some n => n
                            | None => EmptyString
                            end) "cloud flight wireless") all) <->
            In d hidDevices /\ vendorId d = 2385
            /\ exists pre post,
                 toLowerCase
                   match product d with Some n => n | None => EmptyString end
                 = (pre ++ "cloud flight wireless" ++ post)%string).
  { intros d. rewrite filter_In, A, includes_spec. tauto. }
  clearbody known. destruct known as [ | k ks]; cbv iota.
  - split; [intros d; rewrite N; tauto | ].
    split; [intros (d0 & I0) d; exfalso; apply K in I0; exact I0 | ].
    split; [intros _ d; apply N | exact M].
  - split; [intros d; rewrite K; tauto | ].
    split; [intros _ d; apply K | ].
    split; [intros No d; exfalso; apply No; exists k; apply K; now left | ].
    exact M.
Qed.

(** X5. An interface that fails to open is not fatal.  The loop makes
    one [new HID.HID] call per selected interface, in order; an
    interface that opens becomes a new open headset handle with its
    listeners, one that throws is reported by one error event and gets no
    handle and no listener, and the loop goes on with the next; it
    changes no variable of the reader.  When node-hid never fails, every
    selected interface gets its handle and no error is emitted. *)
Theorem open_loop env (ds : list Descriptor) (s : St) :
  let s' := exec (forEach (openInterface env) ds) s in
  exists (opened : list (nat * string)) (failed : list string),
    handles (host s') = handles (host s) ++ opened
    /\ headsets (host s') = headsets (host s) ++ map fst opened
    /\ since s s' = map (fun p => EError (OpenFailed p)) failed
    /\ (List.length opened + List.length failed = List.length ds)%nat
    /\ openSeq (host s') = (openSeq (host s) + List.length ds)%nat
    /\ vars s' = vars s
    /\ Forall (fun hp => (openSeq (host s) <= fst hp)%nat
                         /\ exists d, In d ds /\ snd hp = path d) opened
    /\ Forall (fun p => exists d, In d ds /\ p = path d) failed
    /\ ((forall n p, openOk env n p = true) ->
        failed = [] /\ map snd opened = map path ds).
Proof.
  cbv zeta. revert s. induction ds as [ | d ds IH]; intros s.
  - exists [], []. cbn. rewrite !app_nil_r, since_refl, Nat.add_0_r.
    repeat split; constructor.
  - rewrite exec_forEach_cons.
    set (s1 := exec (openInterface env d) s).
    destruct (IH s1) as (op & fl & H & Hs & E & L & O & V & Fo & Ff & Ok).
    assert (X : extends s1 (exec (forEach (openInterface env) ds) s1)).
    { destruct (forEach_open_facts env ds s1) as (_ & _ & (errs & Ee & _) & _).
      now exists errs. }
    destruct (openOk env (openSeq (host s)) (path d)) eqn:Od.
    + assert (S1 : handles (host s1) = handles (host s) ++ [(openSeq (host s), path d)]
                   /\ headsets (host s1) = headsets (host s) ++ [openSeq (host s)]
                   /\ emitted (host s1) = emitted (host s)
                   /\ openSeq (host s1) = S (openSeq (host s))
                   /\ vars s1 = vars s).
      { subst s1. destruct s as [v []]. cbn in Od.
        unfold openInterface, hidOpen, listen. run_m. rewrite Od. cbn.
        repeat split. }
      destruct S1 as (A1 & A2 & A3 & A4 & A5).
      exists ((openSeq (host s), path d) :: op), fl.
      rewrite H, Hs, O, V, A1, A2, A4, A5, <- !app_assoc. cbn [map fst app].
      split; [reflexivity | ]. split; [reflexivity | ].
      split.
      { rewrite (since_trans s s1) by
          (try exact X; exists []; now rewrite A3, app_nil_r).
        rewrite E. rewrite (since_emitted s s1 []) by now rewrite A3, app_nil_r.
        reflexivity. }
      split; [cbn; lia | ]. split; [cbn; lia | ]. split; [reflexivity | ].
      split.
      { constructor.
        - cbn. split; [lia | ]. exists d. split; [now left | reflexivity].
        - eapply Forall_impl; [ | exact Fo]. cbn. intros hp [Hle (d' & I & P)].
          split; [lia | ]. exists d'. split; [now right | exact P]. }
      split.
      { eapply Forall_impl; [ | exact Ff]. cbn. intros p (d' & I & P).
        exists d'. split; [now right | exact P]. }
      intros All. destruct (Ok All) as [-> M]. split; [reflexivity | ].
      cbn. now rewrite M.
    + assert (S1 : handles (host s1) = handles (host s)
                   /\ headsets (host s1) = headsets (host s)
                   /\ emitted (host s1)
                      = emitted (host s) ++ [EError (OpenFailed (path d))]
                   /\ openSeq (host s1) = S (openSeq (host s))
                   /\ vars s1 = vars s).
      { subst s1. destruct s as [v []]. cbn in Od.
        unfold openInterface, hidOpen, listen. run_m. rewrite Od. cbn.
        repeat split. }
      destruct S1 as (A1 & A2 & A3 & A4 & A5).
      exists op, (path d :: fl).
      rewrite H, Hs, O, V, A1, A2, A4, A5.
      split; [reflexivity | ]. split; [reflexivity | ].
      split.
      { rewrite (since_trans s s1) by (try exact X; eexists; exact A3).
        rewrite E. rewrite (since_emitted s s1 _ A3). reflexivity. }
      split; [cbn; lia | ]. split; [cbn; lia | ]. split; [reflexivity | ].
      split.
      { eapply Forall_impl; [ | exact Fo]. cbn. intros hp [Hle (d' & I & P)].
        split; [lia | ]. exists d'. split; [now right | exact P]. }
      split.
      { constructor.
        - exists d. split; [now left | reflexivity].
        - eapply Forall_impl; [ | exact Ff]. cbn. intros p (d' & I & P).
          exists d'. split; [now right | exact P]. }
      intros All. rewrite All in Od. discriminate.
Qed.

(** * The tray application reads the helper *)

Section TrayFacts.

Variable JsVal : Type.
Variable jsNull : JsVal.
Variable truthy : JsVal -> bool.
Variable isOn : JsVal -> bool.
Variable parseLine : Text -> option (Tray.Parsed JsVal).

Local Abbreviation Main := (Tray.Main JsVal).
Local Abbreviation handleLine := (Tray.handleLine truthy isOn parseLine).
Local Abbreviation drain := (Tray.drain truthy isOn parseLine).
Local Abbreviation onData := (Tray.onData truthy isOn parseLine).
Local Abbreviation setBuf := (@Tray.setBuf JsVal).
Local Abbreviation handleLines :=
  (fold_left (fun (m : Main) l => handleLine l m)).

Lemma handleLine_buf l (m : Main) : Tray.buf (handleLine l m) = Tray.buf m.
Proof.
  unfold Tray.handleLine. destruct (Tray.blank l); [reflexivity|].
  destruct (parseLine l); reflexivity.
Qed.

Lemma handleLine_setBuf l b (m : Main) :
  handleLine l (setBuf b m) = setBuf b (handleLine l m).
Proof.
  unfold Tray.handleLine. destruct (Tray.blank l); [reflexivity|].
  destruct (parseLine l); reflexivity.
Qed.

Lemma handleLines_setBuf ls b (m : Main) :
  handleLines ls (setBuf b m) = setBuf b (handleLines ls m).
Proof.
  revert m. induction ls as [|l ls IH]; intro m; cbn; [reflexivity|].
  rewrite handleLine_setBuf. apply IH.
Qed.

Lemma setBuf_setBuf b b' (m : Main) : setBuf b (setBuf b' m) = setBuf b m.
Proof. reflexivity. Qed.

Lemma setBuf_buf (m : Main) : setBuf (Tray.buf m) m = m.
Proof. destruct m; reflexivity. Qed.

Lemma indexOf_None t : Tray.indexOf 0x0a t = None -> splitLines t = ([], t).
Proof.
  induction t as [|c r IH]; cbn; [reflexivity|].
  destruct (c =? 10); [discriminate|].
  destruct (Tray.indexOf 10 r); [discriminate|].
  intros _. rewrite IH by reflexivity. reflexivity.
Qed.

Lemma indexOf_Some t i :
  Tray.indexOf 0x0a t = Some i ->
  splitLines t
  = (firstn i t :: fst (splitLines (skipn (S i) t)),
     snd (splitLines (skipn (S i) t)))
  /\ (List.length (skipn (S i) t) < List.length t)%nat.
Proof.
  revert i. induction t as [|c r IH]; intro i; cbn [Tray.indexOf]; [discriminate|].
  destruct (c =? 10) eqn:E.
  - intro H. injection H as <-. cbn [splitLines firstn skipn]. rewrite E.
    destruct (splitLines r). split; [reflexivity|cbn [List.length]; lia].
  - destruct (Tray.indexOf 10 r) as [j|]; [|discriminate].
    intro H. injection H as <-.
    destruct (IH j eq_refl) as [IH1 IH2].
    cbn [splitLines]. rewrite IH1, E. split; [reflexivity|].
    change (skipn (S (S j)) (c :: r)) with (skipn (S j) r).
    cbn [List.length]. lia.
Qed.

Lemma splitLines_rest t : Tray.indexOf 0x0a (snd (splitLines t)) = None.
Proof.
  induction t as [|c r IH]; cbn; [reflexivity|].
  destruct (splitLines r) as [ls rest]. cbn in IH.
  destruct (c =? 10) eqn:E; [exact IH|].
  destruct ls; cbn; [rewrite E, IH; reflexivity|exact IH].
Qed.

Lemma splitLines_app t u :
  splitLines (t ++ u)
  = (fst (splitLines t) ++ fst (splitLines (snd (splitLines t) ++ u)),
     snd (splitLines (snd (splitLines t) ++ u))).
Proof.
  induction t as [|c r IH]; cbn [app splitLines fst snd].
  - destruct (splitLines u); reflexivity.
  - rewrite IH. destruct (splitLines r) as [ls rest]. cbn [fst snd].
    destruct (c =? 10) eqn:E; [reflexivity|].
    destruct ls as [|l ls]; cbn [app fst snd].
    + cbn [splitLines]. rewrite E.
      destruct (splitLines (rest ++ u)) as [ls' rest']. cbn.
      destruct ls'; reflexivity.
    + reflexivity.
Qed.

(** The loop runs until [buf] holds no line feed: enough turns handle
    every complete line, in order. *)
Lemma drain_lines fuel (m : Main) :
  (List.length (Tray.buf m) < fuel)%nat ->
  drain fuel m
  = setBuf (snd (splitLines (Tray.buf m)))
      (handleLines (fst (splitLines (Tray.buf m))) m).
Proof.
  revert m. induction fuel as [|fuel IH]; intros m Hlt; [lia|].
  cbn [Tray.drain].
  destruct (Tray.indexOf 10 (Tray.buf m)) as [i|] eqn:E.
  - destruct (indexOf_Some _ _ E) as [-> Hlen]. cbn [fst snd fold_left].
    rewrite IH.
    + rewrite handleLine_buf. cbn [Tray.buf Tray.setBuf].
      rewrite handleLine_setBuf, handleLines_setBuf. reflexivity.
    + rewrite handleLine_buf. cbn [Tray.buf Tray.setBuf]. lia.
  - rewrite (indexOf_None _ E). cbn. symmetry. apply setBuf_buf.
Qed.

Lemma read_lines chunk (m : Main) :
  onData chunk m
  = setBuf (snd (splitLines (Tray.buf m ++ chunk)))
      (handleLines (fst (splitLines (Tray.buf m ++ chunk))) m).
Proof.
  unfold Tray.onData. rewrite drain_lines by (cbn; lia).
  cbn [Tray.buf Tray.setBuf]. rewrite handleLines_setBuf. reflexivity.
Qed.

Lemma handleLines_buf ls (m : Main) : Tray.buf (handleLines ls m) = Tray.buf m.
Proof.
  revert m. induction ls as [|l ls IH]; intro m; cbn; [reflexivity|].
  rewrite IH. apply handleLine_buf.
Qed.

Lemma read_app c1 c2 (m : Main) :
  Tray.indexOf 0x0a (Tray.buf m) = None ->
  onData c2 (onData c1 m) = onData (c1 ++ c2) m.
Proof.
  intro Hb. rewrite !read_lines. cbn [Tray.buf Tray.setBuf].
  rewrite handleLines_setBuf, setBuf_setBuf.
  rewrite app_assoc, (splitLines_app (Tray.buf m ++ c1) c2). cbn [fst snd].
  rewrite fold_left_app. reflexivity.
Qed.

Lemma read_buf chunk (m : Main) :
  Tray.indexOf 0x0a (Tray.buf (onData chunk m)) = None.
Proof. rewrite read_lines. cbn. apply splitLines_rest. Qed.

Lemma read_nil (m : Main) :
  Tray.indexOf 0x0a (Tray.buf m) = None -> onData [] m = m.
Proof.
  intro H. rewrite read_lines, app_nil_r, (indexOf_None _ H). cbn.
  apply setBuf_buf.
Qed.

Lemma read_fold chunks (m : Main) :
  Tray.indexOf 0x0a (Tray.buf m) = None ->
  fold_left (fun m c => onData c m) chunks m = onData (List.concat chunks) m.
Proof.
  revert m. induction chunks as [|c cs IH]; intros m H; cbn [fold_left List.concat].
  - symmetry. apply read_nil, H.
  - rewrite IH by apply read_buf. apply read_app, H.
Qed.

End TrayFacts.

Lemma indexOf_In t : Tray.indexOf 0x0a t = None <-> ~ In 0x0a t.
Proof.
  induction t as [|c r IH]; cbn; [tauto|].
  destruct (c =? 10) eqn:E.
  - apply Z.eqb_eq in E. split; [discriminate|]. intros H. exfalso. auto.
  - apply Z.eqb_neq in E.
    destruct (Tray.indexOf 10 r); cbn.
    + split; [discriminate|]. intros H. exfalso.
      assert (Some n = None) by (apply IH; tauto). discriminate.
    + split; [|reflexivity]. intros _ [H|H]; [congruence|].
      now apply (proj1 IH).
Qed.

Lemma splitLines_join t :
  t = flat_map (fun l => l ++ [0x0a]) (fst (splitLines t)) ++ snd (splitLines t).
Proof.
  induction t as [|c r IH]; cbn [splitLines]; [reflexivity|].
  destruct (splitLines r) as [ls rest]. cbn [fst snd] in IH.
  destruct (c =? 10) eqn:E.
  - apply Z.eqb_eq in E. subst c. cbn. now f_equal.
  - destruct ls as [|l ls]; cbn [fst snd flat_map app] in *; now f_equal.
Qed.

Lemma splitLines_lines t : Forall (fun l => ~ In 0x0a l) (fst (splitLines t)).
Proof.
  induction t as [|c r IH]; cbn [splitLines]; [constructor|].
  destruct (splitLines r) as [ls rest]. cbn [fst snd] in IH.
  destruct (c =? 10) eqn:E.
  - constructor; [intros []|exact IH].
  - destruct ls as [|l ls]; cbn [fst]; [constructor|].
    inversion IH as [|? ? Hl Hls]; subst. constructor; [|exact Hls].
    apply Z.eqb_neq in E. intros [H|H]; [congruence|auto].
Qed.

Lemma splitLines_line l r :
  ~ In 0x0a l ->
  splitLines (l ++ 0x0a :: r)
  = (l :: fst (splitLines r), snd (splitLines r)).
Proof.
  induction l as [|c l IH]; intros H; cbn [app splitLines].
  - destruct (splitLines r); reflexivity.
  - rewrite IH by (intros I; apply H; now right).
    destruct (c =? 10) eqn:E; [|reflexivity].
    apply Z.eqb_eq in E. exfalso. apply H. now left.
Qed.

Lemma splitLines_output (stringify : Sensor.Msg -> Text) objs :
  Forall (fun obj => ~ In 0x0a (stringify obj)) objs ->
  splitLines (Sensor.output stringify objs) = (map stringify objs, []).
Proof.
  induction 1 as [|obj objs Hn _ IH]; [reflexivity|].
  unfold Sensor.output in *. cbn [flat_map map]. unfold Sensor.log at 1.
  rewrite <- app_assoc. cbn [app]. rewrite splitLines_line by exact Hn.
  rewrite IH. reflexivity.
Qed.

Section PipeFacts.

Variable JsVal : Type.
Variable truthy : JsVal -> bool.
Variable isOn : JsVal -> bool.
Variable parseLine : Text -> option (Tray.Parsed JsVal).
Variable ofBool : bool -> JsVal.
Variable ofNum : Z -> JsVal.
Variable ofPower : Power -> JsVal.
Variable ofError : Failure -> JsVal.
Variable stringify : Sensor.Msg -> Text.

Local Abbreviation Main := (Tray.Main JsVal).
Local Abbreviation handleLine := (Tray.handleLine truthy isOn parseLine).
Local Abbreviation onData := (Tray.onData truthy isOn parseLine).
Local Abbreviation view := (view ofBool ofNum ofPower ofError).

Local Abbreviation roundTrip := (roundTrip ofBool ofNum ofPower ofError parseLine stringify).

Lemma handle_messages objs : forall (m : Main),
  Forall roundTrip objs ->
  let m' := fold_left (fun m l => handleLine l m) (map stringify objs) m in
  Tray.state m'
  = fold_left (fun st msg => Tray.apply truthy isOn msg st) (map view objs)
      (Tray.state m)
  /\ Tray.ui m'
     = Tray.ui m ++ Tray.updates truthy isOn (map view objs) (Tray.state m)
  /\ Tray.console m' = Tray.console m ++ flat_map (printed ofError) objs
  /\ Tray.buf m' = Tray.buf m.
Proof.
  induction objs as [|obj objs IH]; intros m H; cbn zeta.
  - cbn. rewrite !app_nil_r. auto.
  - inversion H as [|? ? (Hp & _ & Hb) Hs]; subst.
    cbn [map fold_left flat_map Tray.updates].
    destruct (IH (handleLine (stringify obj) m) Hs) as (I1 & I2 & I3 & I4).
    cbn zeta in *. rewrite I1, I2, I3, I4.
    unfold Tray.handleLine. rewrite Hb, Hp. cbn.
    rewrite <- !app_assoc. cbn.
    repeat split. destruct obj; reflexivity.
Qed.

Lemma read_messages objs chunks (m : Main) :
  Tray.buf m = [] ->
  Forall roundTrip objs ->
  List.concat chunks = Sensor.output stringify objs ->
  let m' := fold_left (fun m c => onData c m) chunks m in
  Tray.state m'
  = fold_left (fun st msg => Tray.apply truthy isOn msg st) (map view objs)
      (Tray.state m)
  /\ Tray.ui m'
     = Tray.ui m ++ Tray.updates truthy isOn (map view objs) (Tray.state m)
  /\ Tray.console m' = Tray.console m ++ flat_map (printed ofError) objs
  /\ Tray.buf m' = [].
Proof.
  intros Hb Hj Hc. cbn zeta.
  rewrite read_fold by (rewrite Hb; reflexivity).
  rewrite read_lines, Hb, Hc. cbn [app].
  rewrite splitLines_output.
  2:{ eapply Forall_impl; [|exact Hj]. intros a (_ & H & _). exact H. }
  cbn [fst snd].
  destruct (handle_messages objs m Hj) as (I1 & I2 & I3 & I4).
  cbn zeta in *. cbn [Tray.setBuf Tray.state Tray.ui Tray.console Tray.buf].
  auto.
Qed.

End PipeFacts.

(** X14. The tray reads the helper line by line, however the text
    arrives.  Whatever the chunks the streams deliver, the lines handled
    are the pieces of the whole text (what was left in [buf], then the
    chunks) that end in a line feed, each handled once and in order; what
    follows the last line feed waits in [buf]; and the result is the same
    as if the text had come in one chunk. *)
Theorem lines_across_chunks {JsVal} (truthy isOn : JsVal -> bool)
  (parseLine : Text -> option (Tray.Parsed JsVal))
  (chunks : list Text) (m : Tray.Main JsVal)
  (Hb : ~ In 0x0a (Tray.buf m)) :
  let m' := fold_left (fun m c => Tray.onData truthy isOn parseLine c m) chunks m in
  let text := Tray.buf m ++ List.concat chunks in
  let lines := fst (splitLines text) in
  m' = Tray.setBuf (Tray.buf m')
         (fold_left (fun m l => Tray.handleLine truthy isOn parseLine l m) lines m)
  /\ text = flat_map (fun l => l ++ [0x0a]) lines ++ Tray.buf m'
  /\ Forall (fun l => ~ In 0x0a l) lines
  /\ ~ In 0x0a (Tray.buf m')
  /\ m' = Tray.onData truthy isOn parseLine (List.concat chunks) m.
Proof.
  cbn zeta. apply indexOf_In in Hb.
  rewrite read_fold by exact Hb. rewrite read_lines.
  cbn [Tray.buf Tray.setBuf].
  split; [reflexivity|]. split; [apply splitLines_join|].
  split; [apply splitLines_lines|]. split; [|reflexivity].
  apply indexOf_In, splitLines_rest.
Qed.

Lemma lines_across_chunks_witness :
  ~ In 0x0a (Tray.buf (Tray.initMain JsNull))
  /\ fold_left (fun m c => Tray.onData jsTruthy jsIsOn plainParse c m)
       [textOf "power"; textOf " on" ++ [0x0a] ++ textOf "status"]
       (Tray.initMain JsNull)
     = Tray.onData jsTruthy jsIsOn plainParse
         (List.concat [textOf "power"; textOf " on" ++ [0x0a] ++ textOf "status"])
         (Tray.initMain JsNull).
Proof.
  assert (H : ~ In 0x0a (Tray.buf (Tray.initMain JsNull))) by (intros []).
  split; [exact H | ].
  exact (proj2 (proj2 (proj2 (proj2
    (lines_across_chunks jsTruthy jsIsOn plainParse
       [textOf "power"; textOf " on" ++ [0x0a] ++ textOf "status"]
       (Tray.initMain JsNull) H))))).
Defined.

(** X15. The messages of the helper reach the state of the tray.  When
    the text the streams deliver, in any chunks, is what the helper has
    logged for a run of messages, and [JSON.parse] gives each message
    back from its text (which is one line and not blank), then [state] is
    the state after applying the messages in order, [updateUI] was called
    once after each message, the console got the error messages and
    nothing else, and no text is left in [buf]. *)
Theorem tray_reads_messages {JsVal} (truthy isOn : JsVal -> bool)
  (parseLine : Text -> option (Tray.Parsed JsVal))
  (ofBool : bool -> JsVal) (ofNum : Z -> JsVal) (ofPower : Power -> JsVal)
  (ofError : Failure -> JsVal) (stringify : Sensor.Msg -> Text)
  (objs : list Sensor.Msg) (chunks : list Text) (m : Tray.Main JsVal)
  (Hbuf : Tray.buf m = [])
  (Hjson : Forall (roundTrip ofBool ofNum ofPower ofError parseLine stringify) objs)
  (Hchunks : List.concat chunks = Sensor.output stringify objs) :
  let m' := fold_left (fun m c => Tray.onData truthy isOn parseLine c m) chunks m in
  let msgs := map (view ofBool ofNum ofPower ofError) objs in
  Tray.state m'
  = fold_left (fun st msg => Tray.apply truthy isOn msg st) msgs (Tray.state m)
  /\ Tray.ui m' = Tray.ui m ++ Tray.updates truthy isOn msgs (Tray.state m)
  /\ Tray.console m' = Tray.console m ++ flat_map (printed ofError) objs
  /\ Tray.buf m' = [].
Proof. exact (read_messages _ _ _ _ _ _ _ _ _ _ _ _ Hbuf Hjson Hchunks). Qed.

Lemma tray_reads_messages_witness :
  Tray.buf (Tray.initMain JsNull) = []
  /\ Forall (roundTrip JsBool JsNum jsPower (fun _ => JsNull) plainParse plainText)
       [Sensor.PowerMsg Off; Sensor.Status false false]
  /\ Tray.ui
       (fold_left (fun m c => Tray.onData jsTruthy jsIsOn plainParse c m)
          [textOf "power"; textOf " off" ++ [0x0a] ++ textOf "status false" ++ [0x0a]]
          (Tray.initMain JsNull))
     = Tray.ui (Tray.initMain JsNull)
       ++ Tray.updates jsTruthy jsIsOn
            (map (view JsBool JsNum jsPower (fun _ => JsNull))
               [Sensor.PowerMsg Off; Sensor.Status false false])
            (Tray.state (Tray.initMain JsNull)).
Proof.
  assert (J : Forall (roundTrip JsBool JsNum jsPower (fun _ => JsNull)
                        plainParse plainText)
                [Sensor.PowerMsg Off; Sensor.Status false false]).
  { repeat constructor; try (vm_compute; reflexivity);
      vm_compute; intuition discriminate. }
  split; [reflexivity | ]. split; [exact J | ].
  exact (proj1 (proj2
    (tray_reads_messages jsTruthy jsIsOn plainParse JsBool JsNum jsPower
       (fun _ => JsNull) plainText
       [Sensor.PowerMsg Off; Sensor.Status false false]
       [textOf "power"; textOf " off" ++ [0x0a] ++ textOf "status false" ++ [0x0a]]
       (Tray.initMain JsNull) eq_refl J eq_refl))).
Defined.

Lemma lastOn_same ch : forall evs e,
  lastOn ch evs = Some e -> sameChannel ch e = true.
Proof.
  induction evs as [|x evs IH] using rev_ind; intros e; [discriminate|].
  rewrite lastOn_snoc. destruct (sameChannel ch x) eqn:E.
  - intros H. injection H as <-. exact E.
  - apply IH.
Qed.

Lemma updates_length {JsVal} (truthy isOn : JsVal -> bool) msgs : forall st,
  List.length (Tray.updates truthy isOn msgs st) = List.length msgs.
Proof. induction msgs as [|x l IH]; intros st; cbn; [|rewrite IH]; reflexivity. Qed.

(** What the tray shows after the messages of a run of events. *)
Lemma shown_after_events {JsVal} (truthy isOn : JsVal -> bool)
  (ofBool : bool -> JsVal) (ofNum : Z -> JsVal) (ofPower : Power -> JsVal)
  (ofError : Failure -> JsVal)
  (Ht : forall b, truthy (ofBool b) = b)
  (Hp : forall p, isOn (ofPower p) = match p with On => true | Off => false end) :
  forall evs st,
  let st' :=
    fold_left (fun st msg => Tray.apply truthy isOn msg st)
      (map (view ofBool ofNum ofPower ofError) (flat_map Sensor.forward evs)) st in
  Tray.found st'
  = match lastOn (EPower On) evs with
    | Some (EPower Off) => false
    | Some _ => true
    | None => Tray.found st
    end
  /\ Tray.power st'
     = match lastOn (EPower On) evs with
       | Some (EPower p) => ofPower p
       | _ => Tray.power st
       end
  /\ Tray.battery st'
     = match lastOn (EBattery 0) evs with
       | Some (EBattery pct) => ofNum pct
       | _ => Tray.battery st
       end
  /\ Tray.muted st'
     = match lastOn (EMuted true) evs with
       | Some (EMuted b) => Some b
       | _ => Tray.muted st
       end
  /\ Tray.charging st'
     = match lastOn (ECharging true) evs with
       | Some (ECharging b) => Some b
       | _ => Tray.charging st
       end.
Proof.
  induction evs as [|e evs IH] using rev_ind; intros st; cbn zeta.
  - cbn. auto.
  - rewrite flat_map_app, map_app, fold_left_app, !lastOn_snoc.
    destruct (IH st) as (I1 & I2 & I3 & I4 & I5). cbn zeta in *.
    cbn [flat_map]. rewrite app_nil_r.
    destruct e as [[|] | b | d | b | pct | data | f]; cbn;
      rewrite ?Ht, ?Hp; cbn; rewrite ?Ht; auto 10.
Qed.

(** X16. The tray shows the last value of every channel.  When the
    helper has started a reader and has logged the events that reader
    delivered to its listeners, and the tray has read that text (from an
    empty [buf], in any chunks, [JSON.parse] giving each message back),
    then the tray shows the headset as found unless the last power event
    was 'off'; the power, the battery percentage, the muted flag and the
    charging flag are those of the last event of their channel, and are
    as they were when there was none; volume and unknown events change
    nothing. *)
Theorem tray_shows_last_values {JsVal} (truthy isOn : JsVal -> bool)
  (parseLine : Text -> option (Tray.Parsed JsVal))
  (ofBool : bool -> JsVal) (ofNum : Z -> JsVal) (ofPower : Power -> JsVal)
  (ofError : Failure -> JsVal) (stringify : Sensor.Msg -> Text)
  (env : Env) (hidDevices : list Descriptor)
  (started : list Sensor.Msg) (flight : St)
  (evs : list Event) (chunks : list Text) (m : Tray.Main JsVal)
  (Hstart : Sensor.start env hidDevices = (started, Some flight, None))
  (Hbuf : Tray.buf m = [])
  (Htruthy : forall b, truthy (ofBool b) = b)
  (Hon : forall p, isOn (ofPower p) = match p with On => true | Off => false end)
  (Hjson : Forall (roundTrip ofBool ofNum ofPower ofError parseLine stringify)
             (started ++ flat_map Sensor.forward evs))
  (Hchunks : List.concat chunks
             = Sensor.output stringify (started ++ flat_map Sensor.forward evs)) :
  let m' := fold_left (fun m c => Tray.onData truthy isOn parseLine c m) chunks m in
  Tray.found (Tray.state m')
  = match lastOn (EPower On) evs with Some (EPower Off) => false | _ => true end
  /\ Tray.power (Tray.state m')
     = match lastOn (EPower On) evs with
       | Some (EPower p) => ofPower p
       | _ => Tray.power (Tray.state m)
       end
  /\ Tray.battery (Tray.state m')
     = match lastOn (EBattery 0) evs with
       | Some (EBattery pct) => ofNum pct
       | _ => Tray.battery (Tray.state m)
       end
  /\ Tray.muted (Tray.state m')
     = match lastOn (EMuted true) evs with
       | Some (EMuted b) => Some b
       | _ => Tray.muted (Tray.state m)
       end
  /\ Tray.charging (Tray.state m')
     = match lastOn (ECharging true) evs with
       | Some (ECharging b) => Some b
       | _ => Tray.charging (Tray.state m)
       end
  /\ (List.length (Tray.ui m')
      = List.length (Tray.ui m)
        + List.length (started ++ flat_map Sensor.forward evs))%nat.
Proof.
  cbn zeta.
  assert (S0 : started = [Sensor.Status true false]).
  { unfold Sensor.start in Hstart.
    destruct (module_exports Sensor.config env hidDevices);
      [injection Hstart as <- _; reflexivity | discriminate]. }
  destruct (read_messages _ truthy isOn parseLine ofBool ofNum ofPower ofError
              stringify _ chunks m Hbuf Hjson Hchunks) as (R1 & R2 & _ & _).
  cbn zeta in R1, R2. rewrite R1, R2. subst started.
  cbn [app map fold_left view Tray.apply].
  destruct (shown_after_events truthy isOn ofBool ofNum ofPower ofError
              Htruthy Hon evs
              {| Tray.found := truthy (ofBool true);
                 Tray.battery := Tray.battery (Tray.state m);
                 Tray.charging := Tray.charging (Tray.state m);
                 Tray.muted := Tray.muted (Tray.state m);
                 Tray.power := Tray.power (Tray.state m) |})
    as (I1 & I2 & I3 & I4 & I5).
  cbn zeta in *. cbn [Tray.found Tray.battery Tray.charging Tray.muted Tray.power] in *.
  rewrite I1, I2, I3, I4, I5, Htruthy.
  split.
  { destruct (lastOn (EPower On) evs) as [e|] eqn:E; [|reflexivity].
    apply lastOn_same in E. destruct e; try discriminate. reflexivity. }
  repeat (split; [reflexivity|]).
  rewrite length_app. f_equal.
  cbn [Tray.updates List.length]. f_equal.
  rewrite updates_length. apply length_map.
Qed.

Lemma tray_shows_last_values_witness :
  exists flight,
    Sensor.start okEnv [statusInterface]
    = ([Sensor.Status true false], Some flight, None)
    /\ Forall (roundTrip JsBool JsNum jsPower (fun _ => JsNull) plainParse plainText)
         ([Sensor.Status true false] ++ flat_map Sensor.forward [EPower Off])
    /\ Tray.found
         (Tray.state
            (fold_left (fun m c => Tray.onData jsTruthy jsIsOn plainParse c m)
               [textOf "status true" ++ [0x0a] ++ textOf "power ";
                textOf "off" ++ [0x0a] ++ textOf "status false" ++ [0x0a]]
               (Tray.initMain JsNull)))
       = false.
Proof.
  assert (J : Forall (roundTrip JsBool JsNum jsPower (fun _ => JsNull)
                        plainParse plainText)
                ([Sensor.Status true false] ++ flat_map Sensor.forward [EPower Off])).
  { repeat constructor; try (vm_compute; reflexivity);
      vm_compute; intuition discriminate. }
  eexists. split; [vm_compute; reflexivity | ]. split; [exact J | ].
  refine (proj1
    (tray_shows_last_values jsTruthy jsIsOn plainParse JsBool JsNum jsPower
       (fun _ => JsNull) plainText okEnv [statusInterface]
       [Sensor.Status true false] _ [EPower Off]
       [textOf "status true" ++ [0x0a] ++ textOf "power ";
        textOf "off" ++ [0x0a] ++ textOf "status false" ++ [0x0a]]
       (Tray.initMain JsNull) _ eq_refl _ _ J eq_refl)).
  - vm_compute; reflexivity.
  - intros []; reflexivity.
  - intros []; reflexivity.
Defined.

Lemma handle_unread {JsVal} (truthy isOn : JsVal -> bool)
  (parseLine : Text -> option (Tray.Parsed JsVal)) lines :
  forall (m : Tray.Main JsVal),
  Forall (fun l => Tray.blank l = true \/ parseLine l = None
                   \/ parseLine l = Some Tray.POther
                   \/ exists e, parseLine l = Some (Tray.PError e)) lines ->
  let m' := fold_left (fun m l => Tray.handleLine truthy isOn parseLine l m) lines m in
  Tray.state m' = Tray.state m
  /\ (exists n, Tray.ui m' = Tray.ui m ++ repeat (Tray.state m) n)
  /\ (Forall (fun l => Tray.blank l = true \/ parseLine l = None) lines ->
      Tray.ui m' = Tray.ui m
      /\ Tray.console m'
         = Tray.console m
           ++ map Tray.ParseError (filter (fun l => negb (Tray.blank l)) lines)).
Proof.
  induction lines as [|l lines IH]; intros m H; cbn zeta.
  - cbn. split; [reflexivity|]. split; [exists O; cbn; now rewrite app_nil_r|].
    intros _. now rewrite app_nil_r.
  - inversion H as [|? ? Hl Hls]; subst. cbn [fold_left].
    destruct (IH (Tray.handleLine truthy isOn parseLine l m) Hls)
      as (I1 & (n & I2) & I3). cbn zeta in *.
    assert (S1 : Tray.state (Tray.handleLine truthy isOn parseLine l m)
                 = Tray.state m).
    { unfold Tray.handleLine.
      destruct (Tray.blank l); [reflexivity|].
      destruct Hl as [Hl|[Hl|[Hl|(e & Hl)]]]; [discriminate| | |];
        rewrite Hl; reflexivity. }
    rewrite I1, S1. split; [reflexivity|]. split.
    + rewrite I2, S1. unfold Tray.handleLine.
      destruct (Tray.blank l); [now exists n|].
      destruct Hl as [Hl|[Hl|[Hl|(e & Hl)]]]; [discriminate| | |];
        rewrite Hl; cbn [Tray.ui Tray.apply].
      * now exists n.
      * exists (S n). now rewrite <- app_assoc.
      * exists (S n). now rewrite <- app_assoc.
    + intros Hb. inversion Hb as [|? ? Hl' Hls']; subst.
      destruct (I3 Hls') as (U & C). rewrite U, C.
      unfold Tray.handleLine. cbn [filter].
      destruct (Tray.blank l) eqn:B; cbn [negb]; [split; reflexivity|].
      destruct Hl' as [Hl'|Hl']; [discriminate|]. rewrite Hl'.
      cbn [Tray.ui Tray.console map]. split; [reflexivity|].
      now rewrite <- app_assoc.
Qed.

(** X17. Text that is no message never changes what the tray shows.
    When every complete line the streams deliver is blank, or is no JSON
    text, or parses to a value whose [event] is none of the five state
    events, the state stays as it was and what [updateUI] shows is that
    same state.  If the lines are all blank or unparsable, [updateUI] is
    not called at all and the console gets one entry per line that is
    not blank, in order: blank lines are skipped silently. *)
Theorem unreadable_lines {JsVal} (truthy isOn : JsVal -> bool)
  (parseLine : Text -> option (Tray.Parsed JsVal))
  (chunks : list Text) (m : Tray.Main JsVal)
  (Hb : ~ In 0x0a (Tray.buf m))
  (Hbad : Forall (fun l => Tray.blank l = true \/ parseLine l = None
                           \/ parseLine l = Some Tray.POther
                           \/ exists e, parseLine l = Some (Tray.PError e))
            (fst (splitLines (Tray.buf m ++ List.concat chunks)))) :
  let m' := fold_left (fun m c => Tray.onData truthy isOn parseLine c m) chunks m in
  let lines := fst (splitLines (Tray.buf m ++ List.concat chunks)) in
  Tray.state m' = Tray.state m
  /\ (exists n, Tray.ui m' = Tray.ui m ++ repeat (Tray.state m) n)
  /\ (Forall (fun l => Tray.blank l = true \/ parseLine l = None) lines ->
      Tray.ui m' = Tray.ui m
      /\ Tray.console m'
         = Tray.console m
           ++ map Tray.ParseError (filter (fun l => negb (Tray.blank l)) lines)).
Proof.
  cbn zeta. apply indexOf_In in Hb.
  rewrite read_fold by exact Hb. rewrite read_lines.
  cbn [Tray.state Tray.ui Tray.console Tray.setBuf].
  exact (handle_unread truthy isOn parseLine _ m Hbad).
Qed.

Lemma unreadable_lines_witness :
  ~ In 0x0a (Tray.buf (Tray.initMain JsNull))
  /\ Forall (fun l => Tray.blank l = true \/ plainParse l = None
                      \/ plainParse l = Some Tray.POther
                      \/ exists e, plainParse l = Some (Tray.PError e))
       (fst (splitLines
               (Tray.buf (Tray.initMain JsNull)
                ++ List.concat [textOf "  " ++ [0x0a]; textOf "(node) warning" ++ [0x0a]])))
  /\ Tray.state
       (fold_left (fun m c => Tray.onData jsTruthy jsIsOn plainParse c m)
          [textOf "  " ++ [0x0a]; textOf "(node) warning" ++ [0x0a]]
          (Tray.initMain JsNull))
     = Tray.state (Tray.initMain JsNull).
Proof.
  assert (H : ~ In 0x0a (Tray.buf (Tray.initMain JsNull))) by (intros []).
  assert (B : Forall (fun l => Tray.blank l = true \/ plainParse l = None
                      \/ plainParse l = Some Tray.POther
                      \/ exists e, plainParse l = Some (Tray.PError e))
       (fst (splitLines
               (Tray.buf (Tray.initMain JsNull)
                ++ List.concat [textOf "  " ++ [0x0a]; textOf "(node) warning" ++ [0x0a]]))))
    by (repeat constructor; right; left; reflexivity).
  split; [exact H | ]. split; [exact B | ].
  exact (proj1 (unreadable_lines jsTruthy jsIsOn plainParse
                  [textOf "  " ++ [0x0a]; textOf "(node) warning" ++ [0x0a]]
                  (Tray.initMain JsNull) H B)).
Defined.

(** X18. When the helper exits, the tray shows the headset as not found
    with no battery, muted or charging value, and starts the helper again
    in 5000 ms unless the application is quitting.  The power value and
    the text left in [buf] are kept: the unfinished last line of the
    helper that died is put before the first line of the next one, which
    is then handled as one line with it. *)
Theorem helper_exit {JsVal} (jsNull : JsVal) (truthy isOn : JsVal -> bool)
  (parseLine : Text -> option (Tray.Parsed JsVal))
  (quitting : bool) (m : Tray.Main JsVal) (line : Text)
  (Hb : ~ In 0x0a (Tray.buf m)) (Hl : ~ In 0x0a line) :
  let m' := fst (Tray.onExit jsNull quitting m) in
  Tray.state m'
  = {| Tray.found := false; Tray.battery := jsNull; Tray.charging := None;
       Tray.muted := None; Tray.power := Tray.power (Tray.state m) |}
  /\ Tray.ui m' = Tray.ui m ++ [Tray.state m']
  /\ snd (Tray.onExit jsNull quitting m) = (if quitting then None else Some 5000)
  /\ Tray.buf m' = Tray.buf m
  /\ Tray.onData truthy isOn parseLine (line ++ [0x0a]) m'
     = Tray.handleLine truthy isOn parseLine (Tray.buf m ++ line)
         (Tray.setBuf [] m').
Proof.
  cbn zeta. repeat (split; [reflexivity|]).
  rewrite read_lines. cbn [Tray.onExit fst Tray.buf].
  rewrite app_assoc, splitLines_line.
  - cbn [splitLines fst snd fold_left]. rewrite <- handleLine_setBuf. reflexivity.
  - intros I. apply in_app_or in I. tauto.
Qed.

Lemma helper_exit_witness :
  ~ In 0x0a (textOf "power")
  /\ ~ In 0x0a (textOf "status true")
  /\ Tray.state
       (Tray.onData jsTruthy jsIsOn plainParse (textOf "status true" ++ [0x0a])
          (fst (Tray.onExit JsNull false
                  (Tray.setBuf (textOf "power") (Tray.initMain JsNull)))))
     = Tray.state (Tray.initMain JsNull).
Proof.
  assert (A : ~ In 0x0a (textOf "power")) by (vm_compute; intuition discriminate).
  assert (B : ~ In 0x0a (textOf "status true"))
    by (vm_compute; intuition discriminate).
  split; [exact A | ]. split; [exact B | ].
  rewrite (proj2 (proj2 (proj2 (proj2
    (helper_exit JsNull jsTruthy jsIsOn plainParse false
       (Tray.setBuf (textOf "power") (Tray.initMain JsNull))
       (textOf "status true") A B))))).
  reflexivity.
Defined.

(** X19. The helper is started with every candidate in turn.  After [k]
    failures to start it, [idx] is [k] modulo the number of candidates
    (four, or five when [NVM_SYMLINK] is set), so that the executable is
    always one of the candidates (the fallback of [candidates[idx] ||
    'node'] is never taken), every candidate is tried within one round,
    the last of a round is ['node'], and the rounds repeat. *)
Theorem launch_rotation (nvmNode : option string) (k : nat) :
  let candidates := Tray.candidatesOf nvmNode in
  let n := List.length candidates in
  (n = match nvmNode with Some _ => 5 | None => 4 end)%nat
  /\ Tray.idxAfter candidates k = Nat.modulo k n
  /\ (Tray.idxAfter candidates k < n)%nat
  /\ nth_error candidates (Tray.idxAfter candidates k)
     = Some (Tray.exe candidates (Tray.idxAfter candidates k))
  /\ Tray.idxAfter candidates (k + n) = Tray.idxAfter candidates k
  /\ (forall c, In c candidates ->
        exists j, (j < n)%nat
                  /\ Tray.exe candidates (Tray.idxAfter candidates (k + j)) = c)
  /\ Tray.exe candidates (Tray.idxAfter candidates (n - 1)) = "node"%string
  /\ snd (Tray.onSpawnError candidates (Tray.idxAfter candidates k)) = 1000.
Proof.
  cbn zeta.
  set (cands := Tray.candidatesOf nvmNode).
  assert (N : (List.length cands
               = match nvmNode with Some _ => 5 | None => 4 end)%nat).
  { unfold cands. destruct nvmNode; reflexivity. }
  assert (P : (0 < List.length cands)%nat) by (rewrite N; destruct nvmNode; lia).
  assert (I : forall j, Tray.idxAfter cands j = Nat.modulo j (List.length cands)).
  { induction j as [|j IH].
    - cbn. symmetry. apply Nat.Div0.mod_0_l.
    - change (Tray.idxAfter cands (S j))
        with (fst (Tray.onSpawnError cands (Tray.idxAfter cands j))).
      rewrite IH. unfold Tray.onSpawnError. cbn [fst].
      rewrite Nat.Div0.add_mod_idemp_l. f_equal. lia. }
  assert (L : forall j, (Tray.idxAfter cands j < List.length cands)%nat).
  { intros j. rewrite I. apply Nat.mod_upper_bound. lia. }
  split; [exact N|]. split; [apply I|]. split; [apply L|].
  split.
  { unfold Tray.exe. apply nth_error_nth'. apply L. }
  split.
  { rewrite !I. rewrite <- Nat.Div0.add_mod_idemp_r, Nat.Div0.mod_same, Nat.add_0_r.
    reflexivity. }
  split.
  { intros c Hc. destruct (In_nth _ _ "node"%string Hc) as (i & Hi & Hn).
    set (n := List.length cands) in *.
    exists (Nat.modulo (i + (n - Nat.modulo k n)) n). split.
    - apply Nat.mod_upper_bound. lia.
    - rewrite I. fold n. rewrite Nat.Div0.add_mod_idemp_r.
      replace (k + (i + (n - Nat.modulo k n)))%nat
        with (i + (k - Nat.modulo k n) + 1 * n)%nat.
      2:{ pose proof (Nat.mod_upper_bound k n ltac:(lia)).
          pose proof (Nat.Div0.mod_le k n). lia. }
      rewrite Nat.Div0.mod_add.
      replace (k - Nat.modulo k n)%nat with (n * (k / n))%nat.
      2:{ pose proof (Nat.div_mod_eq k n). lia. }
      rewrite Nat.mul_comm, Nat.Div0.mod_add, Nat.mod_small by exact Hi.
      exact Hn. }
  split; [|reflexivity].
  rewrite I. rewrite Nat.mod_small by lia.
  unfold cands, Tray.exe. destruct nvmNode; reflexivity.
Qed.

Lemma forEach_open_all_fail env ds :
  (forall n p, openOk env n p = false) ->
  forall s,
  let s' := exec (forEach (openInterface env) ds) s in
  handles (host s') = handles (host s)
  /\ headsets (host s') = headsets (host s)
  /\ writes (host s') = writes (host s).
Proof.
  intros F. induction ds as [|d ds IH]; intros s; cbn zeta.
  - cbn. auto.
  - rewrite exec_forEach_cons.
    destruct (IH (exec (openInterface env d) s)) as (A & B & C).
    cbn zeta in *. rewrite A, B, C.
    destruct s as [v h]. unfold openInterface, hidOpen, listen. run_m.
    rewrite F. cbn. auto.
Qed.

(** X20. The helper reports the headset as found exactly when the
    enumeration selects an interface.  It then holds a reader created
    with de-duplication on and a battery heartbeat of 60000 ms, and sets
    no retry; this is so even when none of the selected interfaces could
    be opened, in which case the reader holds no handle at all and has
    written nothing.  When no interface is selected, the helper logs
    found: false with the error, has no reader, and starts again in
    10000 ms. *)
Theorem sensor_start (env : Env) (hidDevices : list Descriptor) :
  (selectDevices hidDevices <> [] ->
     exists flight,
       Sensor.start env hidDevices
       = ([Sensor.Status true false], Some flight, None)
       /\ reachable Sensor.config env (selectDevices hidDevices) flight
       /\ dedupe Sensor.config = true
       /\ batteryMinIntervalMs Sensor.config = 60000
       /\ ((forall n p, openOk env n p = false) ->
           handles (host flight) = [] /\ headsets (host flight) = []
           /\ writes (host flight) = []))
  /\ (selectDevices hidDevices = [] ->
      Sensor.start env hidDevices
      = ([Sensor.Status false true], None, Some 10000)).
Proof.
  unfold Sensor.start, module_exports. split.
  - intros Hne. destruct (selectDevices hidDevices) as [|d ds] eqn:E;
      [contradiction|].
    unfold create. eexists. split; [reflexivity|]. split.
    { eexists. exists []. split; reflexivity. }
    split; [reflexivity|]. split; [reflexivity|].
    intros F. rewrite exec_bind.
    destruct (forEach_open_all_fail env (d :: ds) F
                (exec (bootstrap Sensor.config env (d :: ds)) initSt))
      as (A & B & C).
    cbn zeta in *. rewrite A, B, C.
    rewrite bootstrap_handles.
    rewrite (proj1 (bootstrap_headsets _ _ _ _)).
    pose proof (bootstrap_writes Sensor.config env (d :: ds) initSt) as W.
    pose proof (bootstrap_resolves Sensor.config env (d :: ds) initSt) as R.
    cbn zeta in *. rewrite R in W. cbn [initSt vars initVars bootstrapDevice] in *.
    destruct (findStatus (d :: ds)); [rewrite F in *|]; auto.
  - intros ->. reflexivity.
Qed.
